(** * vk_approval_bot: conversation engine and reminder scheduler

    A shallow embedding of [src/bot/bot.service.ts] (class [BotService]):
    the message handler [handleMessage], the callback handler
    [handleCallback] and the periodic reminder sweep of
    [startReminderChecks] / [sendReminderWithButtons].

    The three external collaborators -- the Redis session store, the
    Prisma repository and the messaging gateway reached through axios --
    are modelled by an explicit [World]; every call to one of them is
    appended to a trace and may throw, as decided by an environment. *)

From Stdlib Require Import ZArith List String Ascii Bool Lia.
From stdpp Require Import base option list strings gmap pretty.

Local Open Scope string_scope.
Local Open Scope Z_scope.

(** ** JavaScript string primitives

    Strings are held in their UTF-8 encoding.  Every separator the bot
    splits on is an ASCII character, and an ASCII byte never occurs inside
    a multi-byte UTF-8 sequence, so splitting bytes agrees with splitting
    UTF-16 code units. *)

Module JS.

(** [s.split(sep)] for a one-character separator: never empty. *)
Fixpoint split (sep : ascii) (s : string) : list string :=
  match s with
  | EmptyString => [EmptyString]
  | String c s' =>
      if Ascii.eqb c sep then EmptyString :: split sep s'
      else match split sep s' with
           | seg :: rest => String c seg :: rest
           | [] => [String c EmptyString]
           end
  end.

(** [s.includes(c)] for a one-character needle. *)
Fixpoint includes (c : ascii) (s : string) : bool :=
  match s with
  | EmptyString => false
  | String d s' => Ascii.eqb d c || includes c s'
  end.

(** [s.startsWith(p)]. *)
Definition startsWith (p s : string) : bool := String.prefix p s.

(** Truthiness of a string: only the empty string is falsy. *)
Definition truthy (s : string) : bool :=
  match s with EmptyString => false | _ => true end.

(** Truthiness of a possibly missing string ([undefined] / [null]). *)
Definition truthy_opt (o : option string) : bool :=
  match o with Some s => truthy s | None => false end.

(** [a || b] on possibly missing strings. *)
Definition or_else (o : option string) (d : string) : string :=
  match o with Some s => if truthy s then s else d | None => d end.

(** A template hole [${x}] filled with a nullable column. *)
Definition show (o : option string) : string :=
  match o with Some s => s | None => "null" end.

(** Leading white space as [parseInt] skips it (StrWhiteSpaceChar):
    TAB, LF, VT, FF, CR, SP, and in UTF-8 the code points U+00A0, U+1680,
    U+2000..U+200A, U+2028, U+2029, U+202F, U+205F, U+3000, U+FEFF. *)
Definition is_ascii_space (c : ascii) : bool :=
  let n := nat_of_ascii c in
  ((9 <=? n) && (n <=? 13))%nat || (n =? 32)%nat.

Definition utf8_space2 (a b : ascii) : bool :=
  ((nat_of_ascii a =? 194) && (nat_of_ascii b =? 160))%nat.

Definition utf8_space3 (a b c : ascii) : bool :=
  let x := nat_of_ascii a in
  let y := nat_of_ascii b in
  let z := nat_of_ascii c in
  ((x =? 225) && (y =? 154) && (z =? 128)
   || (x =? 226) && (y =? 128)
        && ((128 <=? z) && (z <=? 138) || (z =? 168) || (z =? 169) || (z =? 175))
   || (x =? 226) && (y =? 129) && (z =? 159)
   || (x =? 227) && (y =? 128) && (z =? 128)
   || (x =? 239) && (y =? 187) && (z =? 191))%nat.

Fixpoint skip_space (fuel : nat) (s : string) : string :=
  match fuel with
  | O => s
  | S fuel' =>
      match s with
      | String a r1 =>
          if is_ascii_space a then skip_space fuel' r1
          else match r1 with
               | String b r2 =>
                   if utf8_space2 a b then skip_space fuel' r2
                   else match r2 with
                        | String c r3 =>
                            if utf8_space3 a b c then skip_space fuel' r3
                            else s
                        | EmptyString => s
                        end
               | EmptyString => s
               end
      | EmptyString => s
      end
  end.

Definition trimStart (s : string) : string := skip_space (String.length s) s.

Definition digit_of (c : ascii) : option Z :=
  let n := nat_of_ascii c in
  if ((48 <=? n) && (n <=? 57))%nat then Some (Z.of_nat n - 48) else None.

(** Value of the longest prefix of decimal digits; [None] when it is empty. *)
Fixpoint digits (acc : option Z) (s : string) : option Z :=
  match s with
  | EmptyString => acc
  | String c s' =>
      match digit_of c with
      | Some d => digits (Some (10 * default 0 acc + d)) s'
      | None => acc
      end
  end.

(** [parseInt(s, 10)]; [None] is [NaN].  The result is the mathematical
    value of the digits; JavaScript rounds it to a double, which keeps the
    sign and is exact up to 2^53. *)
Definition parseInt (s : string) : option Z :=
  match trimStart s with
  | String "-" r => Z.opp <$> digits None r
  | String "+" r => digits None r
  | r => digits None r
  end.

End JS.

(** ** Data model *)

(** [TASK_STATUS]; a stored status outside the enumeration is kept, since
    the callback handler has a branch for it. *)
Inductive TaskStatus :=
| PENDING
| APPROVED
| REJECTED
| OtherStatus (s : string).

(** [USER_STEPS], the steps of a conversation. *)
Inductive USER_STEPS :=
| AWAITING_DESCRIPTION
| AWAITING_USER_ID
| AWAITING_USER_ID_FOR_TASKS
| AWAITING_TIME.

Record User := mkUser {
  vkId : string;
  u_firstName : option string;
  u_lastName : option string
}.

Record Task := mkTask {
  id : string;
  userToId : string;
  chatId : string;
  firstName : option string;
  lastName : option string;
  text : option string;
  fileId : option string;
  fileCaption : option string;
  status : TaskStatus;
  remindInterval : Z;
  lastRemind : Z;
  createdAt : Z
}.

(** The in-progress task of a session, [taskData]; a key that was never
    assigned is absent. *)
Record TaskData := mkTaskData {
  td_description : option string;
  td_firstName : option string;
  td_lastName : option string;
  td_fileId : option string;
  td_fileCaption : option string;
  td_userId : option string
}.

Definition emptyTaskData : TaskData := mkTaskData None None None None None None.

(** The value stored under a chat identifier: the object that
    [JSON.stringify] writes and [JSON.parse] reads back. *)
Record Session := mkSession {
  step : USER_STEPS;
  taskData : TaskData
}.

(** A stored session with the expiry, in seconds, it was written with. *)
Record Entry := mkEntry {
  value : Session;
  expire : option Z
}.

Record Button := mkButton {
  b_text : string;
  callbackData : string;
  style : string
}.

Definition Keyboard := list (list Button).

(** What [prisma.task.update] is asked to change. *)
Inductive TaskPatch :=
| SetLastRemind (t : Z)
| SetStatus (s : TaskStatus).

(** The [where] clause of [findMany] and [count]. *)
Record TaskFilter := mkFilter {
  w_status : option TaskStatus;
  w_lastRemind_lt : option Z;
  w_userToId : option string;
  w_chatId : option string
}.

(** The [data] of [prisma.task.create]. *)
Record TaskCreate := mkTaskCreate {
  c_userToId : option string;
  c_chatId : string;
  c_firstName : option string;
  c_lastName : option string;
  c_text : option string;
  c_fileId : option string;
  c_fileCaption : option string;
  c_status : TaskStatus;
  c_remindInterval : Z;
  c_lastRemind : Z
}.

(** Every call the service makes to a collaborator. *)
Inductive Call :=
| RedisGet (chat : string)
| RedisSet (chat : string) (v : Session) (ex : option Z)
| RedisDel (chat : string)
| UserFindUnique (vk : string)
| UserUpsert (vk : string) (first last : option string)
| TaskFindUnique (tid : string)
| TaskFindMany (w : TaskFilter) (newest_first : bool) (take : option nat)
| TaskCount (w : TaskFilter)
| TaskCreateCall (d : TaskCreate)
| TaskUpdate (tid : string) (p : TaskPatch)
| SendText (chat : string) (body : string) (markup : option Keyboard)
| SendFile (chat : string) (file : string) (caption : string) (markup : Keyboard)
| AnswerCallbackQuery (query : string) (note : string).

Inductive Error :=
| CallFailed (c : Call)
| RecordNotFound (tid : string)
| TaskMissing (tid : string).

Record World := mkWorld {
  users : list User;
  tasks : list Task;
  sessions : gmap string Entry;
  trace : list Call
}.

(** What the service cannot decide: whether the n-th call of a run throws,
    the identifier the database gives a new row, and how a date prints. *)
Record Env := mkEnv {
  fails : nat -> Call -> bool;
  uuid : nat -> string;
  toLocaleString : Z -> string
}.

(** Inbound events. *)
Record FilePayload := mkFile {
  f_fileId : option string;
  f_caption : option string
}.

Record Part := mkPart {
  p_type : string;
  p_payload : option FilePayload
}.

Record MessageEvent := mkMessage {
  m_firstName : option string;
  m_lastName : option string;
  m_parts : option (list Part)
}.

Record CallbackEvent := mkCallback {
  cb_data : string;
  cb_queryId : string;
  cb_chatId : string;
  cb_userId : string
}.

(** ** The monad of a handler run

    A computation transforms the world and either returns or throws; what
    it did before throwing stays done. *)

Inductive Res (A : Type) :=
| Ok (a : A)
| Throw (e : Error).

Arguments Ok {A} a.
Arguments Throw {A} e.

Definition M (A : Type) : Type := World -> Res A * World.

Definition ret {A} (a : A) : M A := fun w => (Ok a, w).

Definition throw {A} (e : Error) : M A := fun w => (Throw e, w).

Definition bind {A B} (m : M A) (k : A -> M B) : M B := fun w =>
  match m w with
  | (Ok a, w') => k a w'
  | (Throw e, w') => (Throw e, w')
  end.

(** [try { m } catch (error) { h }] *)
Definition try_catch {A} (m : M A) (h : Error -> M A) : M A := fun w =>
  match m w with
  | (Ok a, w') => (Ok a, w')
  | (Throw e, w') => h e w'
  end.

Declare Scope bot_scope.
Delimit Scope bot_scope with bot.
Notation "x <- m ;; k" := (bind m (fun x => k))
  (at level 100, m at next level, right associativity) : bot_scope.
Notation "m ;;; k" := (bind m (fun _ => k))
  (at level 100, right associativity) : bot_scope.
Local Open Scope bot_scope.

(** [for (const x of xs) { body }], with the position of [x] in [xs]. *)
Fixpoint for_each {A St} (body : nat -> A -> St -> M St) (i : nat) (xs : list A)
    (s : St) : M St :=
  match xs with
  | [] => ret s
  | x :: xs' => s' <- body i x s ;; for_each body (S i) xs' s'
  end.

Definition log_call (c : Call) (w : World) : World :=
  mkWorld (users w) (tasks w) (sessions w) (trace w ++ [c]).

Definition set_users (us : list User) (w : World) : World :=
  mkWorld us (tasks w) (sessions w) (trace w).

Definition set_tasks (ts : list Task) (w : World) : World :=
  mkWorld (users w) ts (sessions w) (trace w).

Definition set_sessions (ss : gmap string Entry) (w : World) : World :=
  mkWorld (users w) (tasks w) ss (trace w).

(** ** Repository tables *)

Definition status_eqb (a b : TaskStatus) : bool :=
  match a, b with
  | PENDING, PENDING | APPROVED, APPROVED | REJECTED, REJECTED => true
  | OtherStatus x, OtherStatus y => String.eqb x y
  | _, _ => false
  end.

Definition opt_test {A} (p : A -> bool) (o : option A) : bool :=
  match o with Some a => p a | None => true end.

Definition matches (f : TaskFilter) (t : Task) : bool :=
  opt_test (status_eqb (status t)) (w_status f)
  && opt_test (fun bound => lastRemind t <? bound) (w_lastRemind_lt f)
  && opt_test (String.eqb (userToId t)) (w_userToId f)
  && opt_test (String.eqb (chatId t)) (w_chatId f).

Definition find_task (tid : string) (ts : list Task) : option Task :=
  List.find (fun t => String.eqb (id t) tid) ts.

Definition find_user (vk : string) (us : list User) : option User :=
  List.find (fun u => String.eqb (vkId u) vk) us.

Definition patch_task (p : TaskPatch) (t : Task) : Task :=
  match p with
  | SetLastRemind x =>
      mkTask (id t) (userToId t) (chatId t) (firstName t) (lastName t) (text t)
        (fileId t) (fileCaption t) (status t) (remindInterval t) x (createdAt t)
  | SetStatus s =>
      mkTask (id t) (userToId t) (chatId t) (firstName t) (lastName t) (text t)
        (fileId t) (fileCaption t) s (remindInterval t) (lastRemind t) (createdAt t)
  end.

(** Rewrite the row [findUnique] would return. *)
Fixpoint update_task (tid : string) (p : TaskPatch) (ts : list Task) : list Task :=
  match ts with
  | [] => []
  | t :: ts' =>
      if String.eqb (id t) tid then patch_task p t :: ts'
      else t :: update_task tid p ts'
  end.

(** Stable insertion sort, newest [createdAt] first. *)
Fixpoint insert_newest (t : Task) (ts : list Task) : list Task :=
  match ts with
  | [] => [t]
  | u :: ts' =>
      if createdAt u <? createdAt t then t :: u :: ts'
      else u :: insert_newest t ts'
  end.

Definition newest_first_order (ts : list Task) : list Task :=
  List.fold_right insert_newest [] ts.

Definition select_tasks (f : TaskFilter) (newest : bool) (n : option nat)
    (ts : list Task) : list Task :=
  let rows := List.filter (matches f) ts in
  let rows := if newest then newest_first_order rows else rows in
  match n with Some k => List.firstn k rows | None => rows end.

Section Service.

Context (env : Env).

(** A call to a collaborator: recorded, then it throws or takes effect. *)
Definition call {A} (c : Call) (effect : World -> Res A * World) : M A := fun w =>
  let w' := log_call c w in
  if fails env (List.length (trace w)) c then (Throw (CallFailed c), w')
  else effect w'.

(** *** Redis *)

Definition redis_get (chat : string) : M (option Session) :=
  call (RedisGet chat) (fun w => (Ok (value <$> sessions w !! chat), w)).

Definition redis_set (chat : string) (v : Session) (ex : option Z) : M unit :=
  call (RedisSet chat v ex)
    (fun w => (Ok tt, set_sessions (<[chat := mkEntry v ex]> (sessions w)) w)).

Definition redis_del (chat : string) : M unit :=
  call (RedisDel chat) (fun w => (Ok tt, set_sessions (delete chat (sessions w)) w)).

(** *** Prisma *)

Definition user_findUnique (vk : string) : M (option User) :=
  call (UserFindUnique vk) (fun w => (Ok (find_user vk (users w)), w)).

(** [upsert] with an empty [update]: a present row is left as it is. *)
Definition user_upsert (vk : string) (first last : option string) : M unit :=
  call (UserUpsert vk first last) (fun w =>
    match find_user vk (users w) with
    | Some _ => (Ok tt, w)
    | None => (Ok tt, set_users (users w ++ [mkUser vk first last]) w)
    end).

Definition task_findUnique (tid : string) : M (option Task) :=
  call (TaskFindUnique tid) (fun w => (Ok (find_task tid (tasks w)), w)).

Definition task_findMany (f : TaskFilter) (newest : bool) (n : option nat)
  : M (list Task) :=
  call (TaskFindMany f newest n) (fun w => (Ok (select_tasks f newest n (tasks w)), w)).

Definition task_count (f : TaskFilter) : M nat :=
  call (TaskCount f) (fun w => (Ok (List.length (List.filter (matches f) (tasks w))), w)).

(** [update] of a missing row throws. *)
Definition task_update (tid : string) (p : TaskPatch) : M unit :=
  call (TaskUpdate tid p) (fun w =>
    match find_task tid (tasks w) with
    | Some _ => (Ok tt, set_tasks (update_task tid p (tasks w)) w)
    | None => (Throw (RecordNotFound tid), w)
    end).

(** [create]: the database supplies [id] and [createdAt]; the assignee is
    a required column ([sendReminderWithButtons] takes it as a [string]). *)
Definition task_create (now : Z) (d : TaskCreate) : M unit :=
  call (TaskCreateCall d) (fun w =>
    match c_userToId d with
    | Some assignee =>
        let row :=
          mkTask (uuid env (List.length (trace w))) assignee (c_chatId d)
            (c_firstName d) (c_lastName d) (c_text d) (c_fileId d)
            (c_fileCaption d) (c_status d) (c_remindInterval d)
            (c_lastRemind d) now in
        (Ok tt, set_tasks (tasks w ++ [row]) w)
    | None => (Throw (CallFailed (TaskCreateCall d)), w)
    end).

(** *** Messaging gateway *)

Definition sendText (chat body : string) (markup : option Keyboard) : M unit :=
  call (SendText chat body markup) (fun w => (Ok tt, w)).

Definition sendFile (chat file caption : string) (markup : Keyboard) : M unit :=
  call (SendFile chat file caption markup) (fun w => (Ok tt, w)).

Definition answerCallbackQuery (query note : string) : M unit :=
  call (AnswerCallbackQuery query note) (fun w => (Ok tt, w)).

(** ** Reply texts *)

Definition nl : string := String (ascii_of_nat 10) EmptyString.

Definition msg_ask_contact : string :=
  "Отправьте контакт из ваших контактов, кому нужно назначить задачу:".
Definition msg_bad_link : string :=
  "Некорректная ссылка. Отправьте контакт из ваших контактов.".
Definition msg_no_user : string := "Пользователь с таким userId не найден.".
Definition msg_ask_interval : string := "Введите интервал напоминания в минутах:".
Definition msg_check_error : string :=
  "Произошла ошибка при проверке вашего аккаунта. Попробуйте снова.".
Definition msg_tasks_error : string :=
  "Произошла ошибка при получении задач. Попробуйте снова.".
Definition msg_bad_interval : string :=
  "Неверный формат интервала. Введите положительное число.".
Definition msg_created : string := "Задача успешно создана!".
Definition msg_create_error : string :=
  "Произошла ошибка при создании задачи. Попробуйте снова.".
Definition msg_unknown : string :=
  "Неизвестная команда. Используйте /help для списка команд.".
Definition msg_welcome : string := "Добро пожаловать! Выберите команду:".
Definition msg_help : string :=
  "Доступные команды:" +:+ nl +:+
  "    /start - Начать работу с ботом" +:+ nl +:+
  "    /create-task - Создать новую задачу" +:+ nl +:+
  "    /delete-task - Удалить задачу" +:+ nl +:+
  "    /watch-last-tasks - Просмотреть последние задачи" +:+ nl +:+
  "    /help - Получить список команд".
Definition msg_task_not_found : string := "Задача не найдена.".
Definition msg_approved : string := "Задача успешно подтверждена!".
Definition msg_rejected : string := "Задача отклонена.".
Definition msg_already_approved : string := "Задача уже подтверждена.".
Definition msg_already_rejected : string := "Задача уже отклонена.".
Definition msg_unknown_status : string := "Неизвестный статус задачи.".
Definition msg_task_error : string :=
  "Произошла ошибка при обработке задачи. Попробуйте снова.".
Definition msg_ask_description : string := "Введите описание задачи:".
Definition msg_no_own_tasks : string := "У вас нет созданных задач.".
Definition msg_ask_user_contact : string := "Отправьте контакт пользователя:".
Definition msg_stats_error : string :=
  "Произошла ошибка при получении статистики. Попробуйте снова.".
Definition msg_ack : string := "Команда обработана".
Definition no_description : string := "Описание отсутствует".

(** The two buttons under a reminder. *)
Definition reminder_keyboard (taskId : string) : Keyboard :=
  [[mkButton "Подтвердить" ("approve_" +:+ taskId) "primary";
    mkButton "Отклонить" ("reject_" +:+ taskId) "attention"]].

(** The button grid of the welcome reply. *)
Definition welcome_keyboard : Keyboard :=
  [[mkButton "Создать задачу" "create_task" "primary";
    mkButton "Посмотреть задачи пользователя" "check_user_tasks" "primary"];
   [mkButton "Просмотреть последние задачи" "watch_tasks" "primary"];
   [mkButton "Просмотреть статистику" "watch_statistics" "primary"]].

Definition reminder_text (task : Task) : string :=
  "📨 *Новая задача на утверждение*" +:+ nl +:+ nl +:+
  "*От:* " +:+ JS.show (firstName task) +:+ " " +:+ JS.show (lastName task) +:+ nl +:+
  (if JS.truthy_opt (text task)
   then "*Описание задачи:* " +:+ JS.or_else (text task) no_description +:+ nl
   else "") +:+
  (if JS.truthy_opt (fileId task)
   then "*Описание файла:* " +:+ JS.or_else (fileCaption task) no_description +:+ nl
   else "").

Definition status_label (s : TaskStatus) : string :=
  match s with
  | APPROVED => "Подтверждена"
  | REJECTED => "Отклонена"
  | _ => "В ожидании"
  end.

(** ** Reminder scheduler *)

Definition sendReminderWithButtons (chat taskId : string) : M unit :=
  found <- task_findUnique taskId ;;
  match found with
  | None => throw (TaskMissing taskId)
  | Some task =>
      let messageText := reminder_text task in
      let inlineKeyboardMarkup := reminder_keyboard taskId in
      if JS.truthy_opt (fileId task)
      then sendFile chat (default "" (fileId task)) messageText inlineKeyboardMarkup
      else sendText chat messageText (Some inlineKeyboardMarkup)
  end.

Definition pending_before (now : Z) : TaskFilter :=
  mkFilter (Some PENDING) (Some now) None None.

(** The body of the loop over the selected tasks. *)
Definition remind (now : Z) (task : Task) : M unit :=
  try_catch
    (sendReminderWithButtons (userToId task) (id task) ;;;
     let newLastRemind := now + remindInterval task * 60 * 1000 in
     task_update (id task) (SetLastRemind newLastRemind))
    (fun _ => ret tt).

(** One tick of the interval set up by [startReminderChecks]; [now] is
    the clock read at its start. *)
Definition startReminderChecks (now : Z) : M unit :=
  try_catch
    (selected <- task_findMany (pending_before now) false None ;;
     for_each (fun _ task _ => remind now task) 0%nat selected tt)
    (fun _ => ret tt).

(** ** Conversation engine: messages *)

(** [event.payload.parts?.find(part => part.type === 'file')?.payload] *)
Definition find_file (event : MessageEvent) : option FilePayload :=
  match m_parts event with
  | Some parts =>
      match List.find (fun part => String.eqb (p_type part) "file") parts with
      | Some part => p_payload part
      | None => None
      end
  | None => None
  end.

(** [if (file) { taskData.fileId = ...; taskData.fileCaption = ... }] *)
Definition attach (file : option FilePayload) (td : TaskData) : TaskData :=
  match file with
  | Some f =>
      mkTaskData (td_description td) (td_firstName td) (td_lastName td)
        (f_fileId f) (f_caption f) (td_userId td)
  | None => td
  end.

Definition describe (body : string) (event : MessageEvent) (td : TaskData) : TaskData :=
  mkTaskData (Some body) (m_firstName event) (m_lastName event)
    (td_fileId td) (td_fileCaption td) (td_userId td).

Definition assign (contactId : string) (td : TaskData) : TaskData :=
  mkTaskData (td_description td) (td_firstName td) (td_lastName td)
    (td_fileId td) (td_fileCaption td) (Some contactId).

(** [urlParts[urlParts.length - 1]] of [text.split('/')] *)
Definition contact_of (body : string) : string :=
  List.last (JS.split "/" body) "".

(** [!contactId || !contactId.includes('@')] *)
Definition bad_contact (contactId : string) : bool :=
  negb (JS.truthy contactId) || negb (JS.includes "@" contactId).

(** One entry of a task report. *)
Definition report_entry (i : nat) (task : Task) (assignedUser : option User) : string :=
  "*Задача " +:+ pretty (i + 1)%nat +:+ ":*" +:+ nl +:+
  "*Описание:* " +:+
    (if JS.truthy_opt (text task) then default "" (text task)
     else JS.or_else (fileCaption task) no_description) +:+ nl +:+
  "*Для кого:* " +:+
    (match assignedUser with
     | Some u => JS.show (u_firstName u) +:+ " " +:+ JS.show (u_lastName u)
     | None => "Неизвестный пользователь"
     end) +:+ nl +:+
  "*Статус:* " +:+ status_label (status task) +:+ nl +:+
  "*Создано:* " +:+ toLocaleString env (createdAt task) +:+ nl +:+ nl.

(** The loop that appends one entry per task to [responseText]. *)
Definition report (header : string) (rows : list Task) : M string :=
  for_each
    (fun i task responseText =>
       assignedUser <- user_findUnique (userToId task) ;;
       ret (responseText +:+ report_entry i task assignedUser))
    0%nat rows header.

Definition new_task (chat : string) (td : TaskData) (interval now : Z) : TaskCreate :=
  mkTaskCreate (td_userId td) chat (td_firstName td) (td_lastName td)
    (td_description td) (td_fileId td) (td_fileCaption td) PENDING interval now.

(** The [switch (step)] of a chat that has a session: the reply text.
    A stored step is always one of the four, so the [default] case of the
    source has no counterpart. *)
Definition on_step (now : Z) (chat body : string) (event : MessageEvent)
    (st : Session) : M string :=
  let file := find_file event in
  let td := taskData st in
  match step st with
  | AWAITING_DESCRIPTION =>
      redis_set chat (mkSession AWAITING_USER_ID (attach file (describe body event td)))
        (Some 3600) ;;;
      ret msg_ask_contact
  | AWAITING_USER_ID =>
      let contactId := contact_of body in
      if bad_contact contactId then ret msg_bad_link
      else
        try_catch
          (user <- user_findUnique contactId ;;
           match user with
           | None => ret msg_no_user
           | Some _ =>
               redis_set chat (mkSession AWAITING_TIME (attach file (assign contactId td)))
                 (Some 3600) ;;;
               ret msg_ask_interval
           end)
          (fun _ => ret msg_check_error)
  | AWAITING_USER_ID_FOR_TASKS =>
      let contactId := contact_of body in
      if bad_contact contactId then ret msg_bad_link
      else
        try_catch
          (userToCheck <- user_findUnique contactId ;;
           match userToCheck with
           | None => ret msg_no_user
           | Some u =>
               let name := JS.show (u_firstName u) +:+ " " +:+ JS.show (u_lastName u) in
               rows <- task_findMany (mkFilter None None (Some contactId) None)
                         true (Some 10%nat) ;;
               responseText <-
                 (if (List.length rows =? 0)%nat
                  then ret ("У пользователя " +:+ name +:+ " нет задач.")
                  else report ("📝 *Последние 10 задач пользователя " +:+ name +:+ ":*"
                               +:+ nl +:+ nl) rows) ;;
               redis_del chat ;;;
               ret responseText
           end)
          (fun _ => ret msg_tasks_error)
  | AWAITING_TIME =>
      match JS.parseInt body with
      | None => ret msg_bad_interval
      | Some interval =>
          if interval <=? 0 then ret msg_bad_interval
          else
            created <- try_catch
                         (task_create now (new_task chat td interval now) ;;; ret true)
                         (fun _ => ret false) ;;
            if created : bool then redis_del chat ;;; ret msg_created
            else ret msg_create_error
      end
  end.

(** The [switch (command)] of an idle chat: reply text and buttons. *)
Definition on_command (chat body : string) (event : MessageEvent)
  : M (string * Keyboard) :=
  let command := List.hd "" (JS.split " " body) in
  if String.eqb command "/start" then
    redis_del chat ;;;
    user_upsert chat (m_firstName event) (m_lastName event) ;;;
    ret (msg_welcome, welcome_keyboard)
  else if String.eqb command "/help" then ret (msg_help, [])
  else ret (msg_unknown, []).

Definition handleMessage (now : Z) (chat body : string) (event : MessageEvent)
  : M unit :=
  userState <- redis_get chat ;;
  reply <- match userState with
           | Some st =>
               responseText <- on_step now chat body event st ;;
               ret (responseText, [])
           | None => on_command chat body event
           end ;;
  let inlineKeyboardMarkup := snd reply in
  sendText chat (fst reply)
    (if (List.length inlineKeyboardMarkup =? 0)%nat then None
     else Some inlineKeyboardMarkup).

(** ** Conversation engine: callbacks *)

Definition own_tasks (userId : string) (s : option TaskStatus) : TaskFilter :=
  mkFilter s None None (Some userId).

(** The approve / reject branch: the reply text. *)
Definition decide_task (data : string) : M string :=
  let parts := JS.split "_" data in
  let action := List.nth 0 parts "" in
  let taskId := List.nth 1 parts "" in
  try_catch
    (found <- task_findUnique taskId ;;
     match found with
     | None => ret msg_task_not_found
     | Some task =>
         match status task with
         | PENDING =>
             let newStatus := if String.eqb action "approve" then APPROVED else REJECTED in
             task_update taskId (SetStatus newStatus) ;;;
             ret (if String.eqb action "approve" then msg_approved else msg_rejected)
         | APPROVED => ret msg_already_approved
         | REJECTED => ret msg_already_rejected
         | OtherStatus _ => ret msg_unknown_status
         end
     end)
    (fun _ => ret msg_task_error).

Definition statistics (userId : string) : M string :=
  try_catch
    (totalTasks <- task_count (own_tasks userId None) ;;
     approvedTasks <- task_count (own_tasks userId (Some APPROVED)) ;;
     rejectedTasks <- task_count (own_tasks userId (Some REJECTED)) ;;
     pendingTasks <- task_count (own_tasks userId (Some PENDING)) ;;
     ret ("📊 *Статистика по вашим задачам:*" +:+ nl +:+ nl +:+
          "• Всего создано задач: " +:+ pretty totalTasks +:+ nl +:+
          "• Одобрено: " +:+ pretty approvedTasks +:+ nl +:+
          "• Отклонено: " +:+ pretty rejectedTasks +:+ nl +:+
          "• В ожидании: " +:+ pretty pendingTasks))
    (fun _ => ret msg_stats_error).

Definition last_tasks (userId : string) : M string :=
  try_catch
    (rows <- task_findMany (own_tasks userId None) true (Some 10%nat) ;;
     if (List.length rows =? 0)%nat then ret msg_no_own_tasks
     else report ("📝 *Последние 10 задач:*" +:+ nl +:+ nl) rows)
    (fun _ => ret msg_tasks_error).

(** The reply text of a callback, before it is acknowledged. *)
Definition on_callback (event : CallbackEvent) : M string :=
  let data := cb_data event in
  let chat := cb_chatId event in
  if JS.startsWith "approve_" data || JS.startsWith "reject_" data
  then decide_task data
  else if String.eqb data "create_task" then
    redis_set chat (mkSession AWAITING_DESCRIPTION emptyTaskData) None ;;;
    ret msg_ask_description
  else if String.eqb data "watch_tasks" then last_tasks (cb_userId event)
  else if String.eqb data "check_user_tasks" then
    redis_set chat (mkSession AWAITING_USER_ID_FOR_TASKS emptyTaskData) None ;;;
    ret msg_ask_user_contact
  else if String.eqb data "watch_statistics" then statistics (cb_userId event)
  else ret msg_unknown.

Definition handleCallback (event : CallbackEvent) : M unit :=
  redis_get (cb_chatId event) ;;;
  responseText <- on_callback event ;;
  answerCallbackQuery (cb_queryId event) msg_ack ;;;
  sendText (cb_chatId event) responseText None.

End Service.

(** ** Event dispatcher

    The interval callback of [startPolling].  The long poll [getEvents]
    is a read of the gateway: its answer for a given [lastEventId] and
    poll time is taken from the environment of the tick, as is the clock
    reading while each event of the batch is handled. *)

(** [event.type] with the part of [event.payload] the dispatcher reads. *)
Inductive EventBody :=
| NewMessage (chat : string) (body : string) (event : MessageEvent)
| CallbackQuery (event : CallbackEvent)
| OtherEvent (type : string).

Record GatewayEvent := mkEvent {
  eventId : Z;
  e_body : EventBody
}.

(** [response.data] of [events/get]. *)
Record EventsResponse := mkEvents {
  ok : bool;
  events : list GatewayEvent
}.

(** The service with its in-memory watermark. *)
Record Poller := mkPoller {
  lastEventId : Z;
  world : World
}.

(** The two branches on [event.type]; any other type is passed over. *)
Definition dispatch (env : Env) (now : Z) (e : GatewayEvent) : M unit :=
  match e_body e with
  | NewMessage chat body event => handleMessage env now chat body event
  | CallbackQuery event => handleCallback env event
  | OtherEvent _ => ret tt
  end.

(** [for (const event of events.events) { ...; this.lastEventId = event.eventId }];
    a handler that throws ends the loop before the assignment. *)
Fixpoint dispatch_all (env : Env) (clock : nat -> Z) (i : nat)
    (es : list GatewayEvent) (p : Poller) : Res unit * Poller :=
  match es with
  | [] => (Ok tt, p)
  | e :: es' =>
      match dispatch env (clock i) e (world p) with
      | (Ok _, w') => dispatch_all env clock (S i) es' (mkPoller (eventId e) w')
      | (Throw err, w') => (Throw err, mkPoller (lastEventId p) w')
      end
  end.

Definition pollTime : nat := 3.

(** One tick of the interval set up by [startPolling]: whatever is
    thrown inside is logged and dropped. *)
Definition startPolling (env : Env) (clock : nat -> Z)
    (getEvents : Z -> nat -> Res EventsResponse) (p : Poller) : Poller :=
  match getEvents (lastEventId p) pollTime with
  | Ok response =>
      if ok response && (0 <? List.length (events response))%nat
      then snd (dispatch_all env clock 0 (events response) p)
      else p
  | Throw _ => p
  end.

(** ** Bootstrap: the CORS origins of [main.ts] *)

Module Bootstrap.

(** [s.trimEnd()]: a suffix made of white space only is dropped. *)
Fixpoint trimEnd (s : string) : string :=
  match s with
  | EmptyString => EmptyString
  | String c r =>
      match JS.trimStart s with
      | EmptyString => EmptyString
      | _ => String c (trimEnd r)
      end
  end.

(** [s.trim()] *)
Definition trim (s : string) : string := trimEnd (JS.trimStart s).

(** [originString ? originString.split(',').map((o) => o.trim()) : []];
    an unset variable is [None]. *)
Definition origins (originString : option string) : list string :=
  match originString with
  | Some s => if JS.truthy s then List.map trim (JS.split "," s) else []
  | None => []
  end.

End Bootstrap.

(** ** Vocabulary of the properties *)

(** The calls a computation adds to the trace of [w], oldest first. *)
Definition emitted {A} (m : M A) (w : World) : list Call :=
  drop (List.length (trace w)) (trace (snd (m w))).

(** [m] takes every world to one related to it by [R], whether it
    returns or throws. *)
Definition Keeps {A} (R : World -> World -> Prop) (m : M A) : Prop :=
  forall w, R w (snd (m w)).

Definition same_sessions (w w' : World) : Prop := sessions w' = sessions w.

Definition same_tables (w w' : World) : Prop :=
  users w' = users w /\ tasks w' = tasks w.

(** The trace grows by calls that all satisfy [P]. *)
Definition emits (P : Call -> Prop) (w w' : World) : Prop :=
  exists l, trace w' = (trace w ++ l)%list /\ Forall P l.

Definition is_gateway (c : Call) : bool :=
  match c with
  | SendText _ _ _ | SendFile _ _ _ _ | AnswerCallbackQuery _ _ => true
  | _ => false
  end.

Definition is_redis (c : Call) : bool :=
  match c with
  | RedisGet _ | RedisSet _ _ _ | RedisDel _ => true
  | _ => false
  end.

Definition is_session_write (c : Call) : bool :=
  match c with
  | RedisSet _ _ _ | RedisDel _ => true
  | _ => false
  end.

(** The callback data of the approve / reject buttons. *)
Definition is_decision (data : string) : bool :=
  JS.startsWith "approve_" data || JS.startsWith "reject_" data.

(** The task identifier the approve / reject branch reads from the data. *)
Definition decided_task (data : string) : string :=
  List.nth 1 (JS.split "_" data) "".

(** [t'] is [t] with at most [lastRemind] changed. *)
Definition lastRemind_only (t t' : Task) : Prop :=
  id t' = id t /\ userToId t' = userToId t /\ chatId t' = chatId t
  /\ firstName t' = firstName t /\ lastName t' = lastName t
  /\ text t' = text t /\ fileId t' = fileId t /\ fileCaption t' = fileCaption t
  /\ status t' = status t /\ remindInterval t' = remindInterval t
  /\ createdAt t' = createdAt t.

(** Row by row, the task table changed in [lastRemind] at most. *)
Definition tasks_frame (w w' : World) : Prop :=
  Forall2 lastRemind_only (tasks w) (tasks w').

(** Every row stays in its place with its identifier, and with its status
    unless that status was [PENDING]. *)
Definition rows_kept (w w' : World) : Prop :=
  forall i t, tasks w !! i = Some t ->
    exists t', tasks w' !! i = Some t' /\ id t' = id t
               /\ (status t <> PENDING -> status t' = status t).

(** A keyboard that offers the decision on task [tid]. *)
Definition offers (tid : string) (k : Keyboard) : bool :=
  existsb (existsb (fun b =>
    String.eqb (callbackData b) ("approve_" +:+ tid)
    || String.eqb (callbackData b) ("reject_" +:+ tid))) k.

(** The calls that read, prompt for or write task [tid]. *)
Definition concerns (tid : string) (c : Call) : bool :=
  match c with
  | TaskFindUnique x | TaskUpdate x _ => String.eqb x tid
  | SendText _ _ (Some k) | SendFile _ _ _ k => offers tid k
  | _ => false
  end.

(** The approve / reject prompt of a task as the sweep sends it. *)
Definition prompt_of (t : Task) : Call :=
  if JS.truthy_opt (fileId t)
  then SendFile (userToId t) (default "" (fileId t)) (reminder_text t)
         (reminder_keyboard (id t))
  else SendText (userToId t) (reminder_text t) (Some (reminder_keyboard (id t))).

(** The row of [tid] is as it was and no call concerning it was made. *)
Definition untouched (tid : string) (w w' : World) : Prop :=
  find_task tid (tasks w') = find_task tid (tasks w)
  /\ emits (fun c => concerns tid c = false) w w'.

(** A succession of sweeps, each in its own environment at its own time. *)
Definition run_sweeps (sweeps : list (Env * Z)) (w : World) : World :=
  List.fold_left (fun w s => snd (startReminderChecks (fst s) (snd s) w)) sweeps w.

(** Everything that acts on the world. *)
Inductive Action :=
| Message (now : Z) (chat body : string) (event : MessageEvent)
| Callback (event : CallbackEvent)
| Sweep (now : Z).

Definition perform (env : Env) (a : Action) : M unit :=
  match a with
  | Message now chat body event => handleMessage env now chat body event
  | Callback event => handleCallback env event
  | Sweep now => startReminderChecks env now
  end.

Definition run (steps : list (Env * Action)) (w : World) : World :=
  List.fold_left (fun w s => snd (perform (fst s) (snd s) w)) steps w.

(** A session write that carries the one-hour expiry. *)
Definition expires_in_an_hour (c : Call) : Prop :=
  match c with
  | RedisSet _ _ ex => ex = Some 3600
  | _ => True
  end.

(** A session write without expiry that opens one of the two flows. *)
Definition opens_flow_without_expiry (c : Call) : Prop :=
  match c with
  | RedisSet _ v ex =>
      ex = None
      /\ (v = mkSession AWAITING_DESCRIPTION emptyTaskData
          \/ v = mkSession AWAITING_USER_ID_FOR_TASKS emptyTaskData)
  | _ => True
  end.

(** A text that is a decimal numeral: digits only, at least one. *)
Definition is_numeral (s : string) : bool :=
  JS.truthy s && forallb (fun c => bool_decide (is_Some (JS.digit_of c))) (list_ascii_of_string s).

(** The first call a computation makes is [c]. *)
Definition Opens (c : Call) {A} (m : M A) : Prop :=
  forall w, emits (fun _ => True) (log_call c w) (snd (m w)).

(** Neither cancels a conversation nor greets. *)
Definition not_a_restart (c : Call) : Prop :=
  match c with
  | RedisDel _ | UserUpsert _ _ _ => False
  | SendText _ body markup => body <> msg_welcome /\ markup = None
  | _ => True
  end.

(** Users and sessions are as they were. *)
Definition same_users_sessions (w w' : World) : Prop :=
  users w' = users w /\ sessions w' = sessions w.

(** A call that adds a task row or rewrites a status. *)
Definition adds_or_decides (c : Call) : bool :=
  match c with
  | TaskCreateCall _ | TaskUpdate _ (SetStatus _) => true
  | _ => false
  end.

(** The reply that reports the state of a task already decided. *)
Definition already (s : TaskStatus) : string :=
  match s with
  | APPROVED => msg_already_approved
  | REJECTED => msg_already_rejected
  | _ => msg_unknown_status
  end.

(** The task table only gained rows at its end. *)
Definition tasks_extend (w w' : World) : Prop :=
  exists l, tasks w' = (tasks w ++ l)%list.

Definition is_task_write (c : Call) : bool :=
  match c with
  | TaskCreateCall _ | TaskUpdate _ _ => true
  | _ => false
  end.

(** The loop of the sweep over the rows it selected. *)
Definition reminders (env : Env) (now : Z) (i : nat) (rows : list Task) : M unit :=
  for_each (fun _ task _ => remind env now task) i rows tt.

(** The user table only gained rows at its end, and no two rows share a
    [vkId] unless two already did. *)
Definition users_grow (w w' : World) : Prop :=
  (exists l, users w' = (users w ++ l)%list)
  /\ (NoDup (map vkId (users w)) -> NoDup (map vkId (users w'))).

(** The sessions of every chat but [chat] are as they were. *)
Definition sessions_elsewhere (chat : string) (w w' : World) : Prop :=
  forall other, other <> chat -> sessions w' !! other = sessions w !! other.





(** An environment in which the gateway refuses every message. *)
Definition gateway_down : Env :=
  mkEnv (fun _ c => is_gateway c) (fun n => "task-" +:+ pretty n) (fun t => pretty t).

(** The action an event stands for; none for an event of another type. *)
Definition action_of (now : Z) (e : GatewayEvent) : option Action :=
  match e_body e with
  | NewMessage chat body event => Some (Message now chat body event)
  | CallbackQuery event => Some (Callback event)
  | OtherEvent _ => None
  end.

(** The actions of a batch, each at the clock reading of its turn. *)
Fixpoint batch_actions (env : Env) (clock : nat -> Z) (i : nat)
    (es : list GatewayEvent) : list (Env * Action) :=
  match es with
  | [] => []
  | e :: es' =>
      match action_of (clock i) e with
      | Some a => (env, a) :: batch_actions env clock (S i) es'
      | None => batch_actions env clock (S i) es'
      end
  end.

(** Each identifier is greater than the one before, the first greater
    than [low]. *)
Fixpoint ascending (low : Z) (ids : list Z) : bool :=
  match ids with
  | [] => true
  | x :: rest => (low <? x) && ascending x rest
  end.

(** The batch the tick works on: empty when the poll failed or was not ok. *)
Definition polled (getEvents : Z -> nat -> Res EventsResponse) (p : Poller)
  : list GatewayEvent :=
  match getEvents (lastEventId p) pollTime with
  | Ok response => if ok response then events response else []
  | Throw _ => []
  end.

(** The two timers of the service. *)
Inductive Tick :=
| Poll (env : Env) (clock : nat -> Z) (getEvents : Z -> nat -> Res EventsResponse)
| Remind (env : Env) (now : Z).

Definition tick (t : Tick) (p : Poller) : Poller :=
  match t with
  | Poll env clock getEvents => startPolling env clock getEvents p
  | Remind env now =>
      mkPoller (lastEventId p) (snd (startReminderChecks env now (world p)))
  end.

(** The service run through a succession of timer ticks. *)
Definition run_service (ticks : list Tick) (p : Poller) : Poller :=
  List.fold_left (fun p t => tick t p) ticks p.

Definition same_users (w w' : World) : Prop := users w' = users w.

Definition same_tasks (w w' : World) : Prop := tasks w' = tasks w.

(** The three statuses the service itself writes. *)
Definition standard (s : TaskStatus) : Prop :=
  s = PENDING \/ s = APPROVED \/ s = REJECTED.

(** A row as the conversation creates it and the decisions leave it. *)
Definition well_formed (t : Task) : Prop :=
  standard (status t) /\ 0 < remindInterval t.

Definition keeps_well_formed (w w' : World) : Prop :=
  Forall well_formed (tasks w) -> Forall well_formed (tasks w').

(** The number of tasks created from chat [userId] that have status [s]. *)
Definition tasks_with (userId : string) (s : TaskStatus) (ts : list Task) : nat :=
  List.length
    (List.filter (fun t => String.eqb (chatId t) userId && status_eqb (status t) s) ts).

(** The number of tasks created from chat [userId]. *)
Definition tasks_of (userId : string) (ts : list Task) : nat :=
  List.length (List.filter (fun t => String.eqb (chatId t) userId) ts).

(** The session of [chat] was deleted or the store is as it was. *)
Definition cleared_or_kept (chat : string) (w w' : World) : Prop :=
  sessions w' = sessions w \/ sessions w' = delete chat (sessions w).

(** The filter and the limits of the report on the tasks given to
    [contact]. *)
Definition given_to (contact : string) : TaskFilter :=
  mkFilter None None (Some contact) None.

(** The number of occurrences of [c] in [s]. *)
Fixpoint occurrences (c : ascii) (s : string) : nat :=
  match s with
  | EmptyString => 0
  | String d s' => (if Ascii.eqb d c then 1 else 0) + occurrences c s'
  end.

(** ** Sample worlds *)

(** An environment in which no call fails. *)
Definition quiet : Env :=
  mkEnv (fun _ _ => false) (fun n => "task-" +:+ pretty n) (fun t => pretty t).

(** An environment in which the repository refuses every [create]. *)
Definition create_refused : Env :=
  mkEnv (fun _ c => match c with TaskCreateCall _ => true | _ => false end)
    (fun n => "task-" +:+ pretty n) (fun t => pretty t).

(** An environment in which every repository call throws. *)
Definition repository_down : Env :=
  mkEnv (fun _ c => negb (is_redis c) && negb (is_gateway c))
    (fun n => "task-" +:+ pretty n) (fun t => pretty t).

Definition bob : User := mkUser "bob@corp" (Some "Bob") (Some "Brown").

Definition draft : TaskData :=
  mkTaskData (Some "Fix bug") (Some "Alice") (Some "Adams") None None (Some "bob@corp").

Definition from_alice : MessageEvent := mkMessage (Some "Alice") (Some "Adams") None.

Definition sample_task (tid : string) (st : TaskStatus) (last : Z) : Task :=
  mkTask tid "bob@corp" "alice@corp" (Some "Alice") (Some "Adams")
    (Some "Fix bug") None None st 30 last 0.

(** Alice's chat is at step [s] of a conversation. *)
Definition in_step (s : USER_STEPS) : World :=
  mkWorld [bob] [] {[ "alice@corp" := mkEntry (mkSession s draft) (Some 3600) ]} [].

(** No conversation is open; the task table is [ts]. *)
Definition idle (ts : list Task) : World := mkWorld [bob] ts ∅ [].

Definition press (data : string) : CallbackEvent :=
  mkCallback data "query-1" "alice@corp" "alice@corp".

(** ** Reasoning rules for [Keeps] *)

Section KeepsRules.

Context (R : World -> World -> Prop) `{!PreOrder R}.

Lemma keeps_ret {A} (a : A) : Keeps R (ret a).
Proof. intros w. simpl. reflexivity. Qed.

Lemma keeps_throw {A} (e : Error) : Keeps R (@throw A e).
Proof. intros w. simpl. reflexivity. Qed.

Lemma keeps_bind {A B} (m : M A) (k : A -> M B) :
  Keeps R m -> (forall a, Keeps R (k a)) -> Keeps R (bind m k).
Proof.
  intros Hm Hk w. unfold bind. specialize (Hm w).
  destruct (m w) as [[a|e] w1]; simpl in *; [|exact Hm].
  etransitivity; [exact Hm|apply Hk].
Qed.

Lemma keeps_try_catch {A} (m : M A) (h : Error -> M A) :
  Keeps R m -> (forall e, Keeps R (h e)) -> Keeps R (try_catch m h).
Proof.
  intros Hm Hh w. unfold try_catch. specialize (Hm w).
  destruct (m w) as [[a|e] w1]; simpl in *; [exact Hm|].
  etransitivity; [exact Hm|apply Hh].
Qed.

Lemma keeps_for_each {A St} (body : nat -> A -> St -> M St) xs :
  (forall i x s, Keeps R (body i x s)) ->
  forall i s, Keeps R (for_each body i xs s).
Proof.
  intros Hbody. induction xs as [|x xs IH]; intros i s; simpl.
  - apply keeps_ret.
  - apply keeps_bind; [apply Hbody|]. intros s'. apply IH.
Qed.

Lemma keeps_call {A} env (c : Call) (effect : World -> Res A * World) :
  (forall w, R w (log_call c w)) -> Keeps R effect -> Keeps R (call env c effect).
Proof.
  intros Hlog Heff w. unfold call.
  destruct (fails env _ c); simpl; [apply Hlog|].
  etransitivity; [apply Hlog|apply Heff].
Qed.

End KeepsRules.

(** Splits a goal [Keeps R m] along the structure of [m]. *)
Ltac keeps_structure :=
  repeat first
    [ apply keeps_ret; solve [typeclasses eauto]
    | apply keeps_throw; solve [typeclasses eauto]
    | apply keeps_bind; [typeclasses eauto| |intros ?]
    | apply keeps_try_catch; [typeclasses eauto| |intros ?]
    | apply keeps_for_each; [typeclasses eauto|intros ? ? ?]
    | match goal with
      | |- Keeps _ (match ?x with _ => _ end) => destruct x
      | |- Keeps _ (if ?b then _ else _) => destruct b
      | |- Keeps _ (let _ := _ in _) => cbv zeta
      end ].

(** Closes [Keeps R p] for a primitive [p] whose effect is visibly in [R]. *)
Ltac keeps_primitive fin :=
  apply keeps_call; [typeclasses eauto| |];
  [ intros ?; fin
  | intros ?; simpl; repeat case_match; simpl; fin ].

(** ** Preorders *)

#[local] Instance same_sessions_preorder : PreOrder same_sessions.
Proof.
  split; [intros w; reflexivity|].
  intros a b c H1 H2. unfold same_sessions in *. congruence.
Qed.

#[local] Instance same_tables_preorder : PreOrder same_tables.
Proof.
  split; [intros w; split; reflexivity|].
  intros a b c [H1 H2] [H3 H4]. split; congruence.
Qed.

#[local] Instance emits_preorder P : PreOrder (emits P).
Proof.
  split.
  - intros w. exists []. split; [symmetry; apply app_nil_r|constructor].
  - intros a b c (l1 & E1 & F1) (l2 & E2 & F2). exists (l1 ++ l2)%list.
    split; [rewrite E2, E1; symmetry; apply app_assoc|apply Forall_app; auto].
Qed.

Lemma lastRemind_only_refl t : lastRemind_only t t.
Proof. repeat split. Qed.

Lemma lastRemind_only_trans a b c :
  lastRemind_only a b -> lastRemind_only b c -> lastRemind_only a c.
Proof. unfold lastRemind_only. intuition congruence. Qed.

#[local] Instance tasks_frame_preorder : PreOrder tasks_frame.
Proof.
  split.
  - intros w. unfold tasks_frame. induction (tasks w); constructor;
      auto using lastRemind_only_refl.
  - intros a b c. unfold tasks_frame.
    generalize (tasks a) (tasks b) (tasks c). clear.
    intros la lb lc H. revert lc.
    induction H; intros lc H2; inversion H2; subst; constructor;
      eauto using lastRemind_only_trans.
Qed.

#[local] Instance rows_kept_preorder : PreOrder rows_kept.
Proof.
  split.
  - intros w i t H. exists t. auto.
  - intros a b c H1 H2 i t Hi.
    destruct (H1 i t Hi) as (t1 & Hi1 & Hid1 & Hs1).
    destruct (H2 i t1 Hi1) as (t2 & Hi2 & Hid2 & Hs2).
    exists t2. split; [exact Hi2|]. split; [congruence|].
    intros Hp. rewrite Hs2; [auto|]. rewrite Hs1; auto.
Qed.

#[local] Instance untouched_preorder tid : PreOrder (untouched tid).
Proof.
  split.
  - intros w. split; reflexivity.
  - intros a b c [H1 E1] [H2 E2]. split; [congruence|].
    etransitivity; eassumption.
Qed.

(** ** The trace only grows *)

Lemma emits_emitted {A} P (m : M A) w :
  emits P w (snd (m w)) -> Forall P (emitted m w).
Proof.
  intros (l & E & F). unfold emitted. rewrite E.
  rewrite drop_app_length. exact F.
Qed.

Lemma emits_call {A} (P : Call -> Prop) env c (effect : World -> Res A * World) :
  P c -> (forall w, trace (snd (effect w)) = trace w) ->
  Keeps (emits P) (call env c effect).
Proof.
  intros Hc Heff. apply keeps_call; [typeclasses eauto| |].
  - intros w. exists [c]. split; [reflexivity|repeat constructor; exact Hc].
  - intros w. exists []. split; [rewrite Heff; symmetry; apply app_nil_r|constructor].
Qed.

(** A primitive emits its own call and nothing else. *)
Ltac emits_primitive :=
  apply emits_call;
  [ simpl; auto
  | intros ?; simpl; repeat case_match; reflexivity ].

Ltac by_reflexivity := first [reflexivity | split; reflexivity].

(** ** Frames of the primitives *)

Section Frames.

Context (env : Env).

Lemma redis_get_sessions chat : Keeps same_sessions (redis_get env chat).
Proof. keeps_primitive by_reflexivity. Qed.

Lemma user_findUnique_sessions vk : Keeps same_sessions (user_findUnique env vk).
Proof. keeps_primitive by_reflexivity. Qed.

Lemma user_upsert_sessions vk a b : Keeps same_sessions (user_upsert env vk a b).
Proof. keeps_primitive by_reflexivity. Qed.

Lemma task_findUnique_sessions tid : Keeps same_sessions (task_findUnique env tid).
Proof. keeps_primitive by_reflexivity. Qed.

Lemma task_findMany_sessions f o n : Keeps same_sessions (task_findMany env f o n).
Proof. keeps_primitive by_reflexivity. Qed.

Lemma task_count_sessions f : Keeps same_sessions (task_count env f).
Proof. keeps_primitive by_reflexivity. Qed.

Lemma task_update_sessions tid p : Keeps same_sessions (task_update env tid p).
Proof. keeps_primitive by_reflexivity. Qed.

Lemma task_create_sessions now d : Keeps same_sessions (task_create env now d).
Proof. keeps_primitive by_reflexivity. Qed.

Lemma sendText_sessions chat body k : Keeps same_sessions (sendText env chat body k).
Proof. keeps_primitive by_reflexivity. Qed.

Lemma sendFile_sessions chat f c k : Keeps same_sessions (sendFile env chat f c k).
Proof. keeps_primitive by_reflexivity. Qed.

Lemma answerCallbackQuery_sessions q n :
  Keeps same_sessions (answerCallbackQuery env q n).
Proof. keeps_primitive by_reflexivity. Qed.

Lemma redis_get_tables chat : Keeps same_tables (redis_get env chat).
Proof. keeps_primitive by_reflexivity. Qed.

Lemma redis_set_tables chat v ex : Keeps same_tables (redis_set env chat v ex).
Proof. keeps_primitive by_reflexivity. Qed.

Lemma redis_del_tables chat : Keeps same_tables (redis_del env chat).
Proof. keeps_primitive by_reflexivity. Qed.

Lemma user_findUnique_tables vk : Keeps same_tables (user_findUnique env vk).
Proof. keeps_primitive by_reflexivity. Qed.

Lemma task_findUnique_tables tid : Keeps same_tables (task_findUnique env tid).
Proof. keeps_primitive by_reflexivity. Qed.

Lemma task_findMany_tables f o n : Keeps same_tables (task_findMany env f o n).
Proof. keeps_primitive by_reflexivity. Qed.

Lemma task_count_tables f : Keeps same_tables (task_count env f).
Proof. keeps_primitive by_reflexivity. Qed.

Lemma sendText_tables chat body k : Keeps same_tables (sendText env chat body k).
Proof. keeps_primitive by_reflexivity. Qed.

Lemma sendFile_tables chat f c k : Keeps same_tables (sendFile env chat f c k).
Proof. keeps_primitive by_reflexivity. Qed.

Lemma answerCallbackQuery_tables q n :
  Keeps same_tables (answerCallbackQuery env q n).
Proof. keeps_primitive by_reflexivity. Qed.

End Frames.

Create HintDb frames discriminated.

#[local] Hint Resolve redis_get_sessions user_findUnique_sessions
  user_upsert_sessions task_findUnique_sessions task_findMany_sessions
  task_count_sessions task_update_sessions task_create_sessions
  sendText_sessions sendFile_sessions answerCallbackQuery_sessions
  redis_get_tables redis_set_tables redis_del_tables user_findUnique_tables
  task_findUnique_tables task_findMany_tables task_count_tables
  sendText_tables sendFile_tables answerCallbackQuery_tables : frames.

(** Splits a handler down to its primitives and shows that each emitted
    call satisfies the predicate at hand. *)
Ltac emits_auto :=
  keeps_structure;
  unfold redis_get, redis_set, redis_del, user_findUnique, user_upsert,
    task_findUnique, task_findMany, task_count, task_update, task_create,
    sendText, sendFile, answerCallbackQuery;
  emits_primitive.

Ltac frames_auto := keeps_structure; auto with frames.

(** ** Callbacks that decide a task *)

Lemma on_callback_decision env event :
  is_decision (cb_data event) = true ->
  on_callback env event = decide_task env (cb_data event).
Proof. unfold on_callback, is_decision. intros ->. reflexivity. Qed.

Lemma decide_task_sessions env data : Keeps same_sessions (decide_task env data).
Proof. unfold decide_task. frames_auto. Qed.

Lemma decide_task_no_session_write env data :
  Keeps (emits (fun c => is_session_write c = false)) (decide_task env data).
Proof. unfold decide_task. emits_auto. Qed.

(** C10: handling an [approve_<taskId>] or [reject_<taskId>] callback
    neither writes nor deletes a session.  Whatever the world (task
    missing, pending or resolved) and whichever calls fail, the session
    store after the handler is the one before it, and none of the calls the
    handler makes is a [set] or a [del] on the store. *)
Theorem decision_callback_leaves_sessions env event w :
  is_decision (cb_data event) = true ->
  sessions (snd (handleCallback env event w)) = sessions w
  /\ Forall (fun c => is_session_write c = false)
       (emitted (handleCallback env event) w).
Proof.
  intros Hd. split.
  - revert w. change (Keeps same_sessions (handleCallback env event)).
    unfold handleCallback. rewrite (on_callback_decision _ _ Hd).
    keeps_structure; auto using decide_task_sessions with frames.
  - apply emits_emitted. revert w.
    change (Keeps (emits (fun c => is_session_write c = false))
              (handleCallback env event)).
    unfold handleCallback. rewrite (on_callback_decision _ _ Hd).
    apply keeps_bind; [typeclasses eauto| |intros ?].
    { emits_auto. }
    apply keeps_bind; [typeclasses eauto| |intros ?].
    { apply decide_task_no_session_write. }
    emits_auto.
Qed.

Lemma decision_callback_leaves_sessions_witness :
  let w := mkWorld [bob] [sample_task "t1" PENDING 0] (sessions (in_step AWAITING_TIME)) [] in
  sessions (snd (handleCallback quiet (press "approve_t1") w)) = sessions w
  /\ Forall (fun c => is_session_write c = false)
       (emitted (handleCallback quiet (press "approve_t1")) w).
Proof.
  intros w. apply (decision_callback_leaves_sessions quiet (press "approve_t1") w).
  reflexivity.
Defined.

(** ** Expiry of session writes *)

Lemma handleMessage_expiry env now chat body event :
  Keeps (emits expires_in_an_hour) (handleMessage env now chat body event).
Proof. unfold handleMessage, on_step, on_command, report. emits_auto. Qed.

Lemma handleCallback_expiry env event :
  Keeps (emits opens_flow_without_expiry) (handleCallback env event).
Proof.
  unfold handleCallback, on_callback, decide_task, last_tasks, statistics, report.
  emits_auto.
Qed.

Lemma startReminderChecks_no_redis env now :
  Keeps (emits (fun c => is_redis c = false)) (startReminderChecks env now).
Proof.
  unfold startReminderChecks, remind, sendReminderWithButtons. emits_auto.
Qed.

(** ** Contact parsing *)

Lemma split_not_nil sep s : JS.split sep s <> [].
Proof.
  destruct s as [|c s]; simpl; [discriminate|].
  destruct (Ascii.eqb c sep); [discriminate|].
  destruct (JS.split sep s); discriminate.
Qed.

Lemma split_without sep s : JS.includes sep s = false -> JS.split sep s = [s].
Proof.
  induction s as [|c s IH]; simpl; [reflexivity|].
  intros H. apply orb_false_elim in H as [Hc Hs].
  rewrite Hc, (IH Hs). reflexivity.
Qed.

Lemma split_with sep s :
  JS.includes sep s = true -> exists seg x rest, JS.split sep s = seg :: x :: rest.
Proof.
  induction s as [|c s IH]; simpl; [discriminate|].
  destruct (Ascii.eqb c sep) eqn:Hc; simpl.
  - intros _. destruct (JS.split sep s) as [|x rest] eqn:E.
    + destruct (split_not_nil _ _ E).
    + eauto.
  - intros Hs. destruct (IH Hs) as (seg & x & rest & ->). eauto.
Qed.

Lemma last_cons {A} (a : A) l d : l <> [] -> List.last (a :: l) d = List.last l d.
Proof. destruct l; [congruence|reflexivity]. Qed.

Lemma last_segment sep s :
  JS.includes sep (List.last (JS.split sep s) "") = false
  /\ (s = List.last (JS.split sep s) ""
      \/ exists p, s = p +:+ String sep (List.last (JS.split sep s) "")).
Proof.
  induction s as [|c s IH]; [simpl; auto|].
  destruct IH as [Hno IH]. cbn [JS.split].
  destruct (Ascii.eqb c sep) eqn:Hc.
  - apply Ascii.eqb_eq in Hc as ->.
    rewrite (last_cons _ _ _ (split_not_nil sep s)).
    split; [exact Hno|]. right.
    destruct IH as [IH|[p IH]].
    + exists "". change (String sep s = String sep (List.last (JS.split sep s) "")).
      f_equal. exact IH.
    + exists (String sep p).
      change (String sep s = String sep (p +:+ String sep (List.last (JS.split sep s) ""))).
      f_equal. exact IH.
  - destruct (JS.includes sep s) eqn:Hs.
    + destruct (split_with _ _ Hs) as (seg & x & rest & E). rewrite E in *.
      rewrite last_cons by discriminate. rewrite last_cons in Hno, IH by discriminate.
      split; [exact Hno|]. right.
      destruct IH as [IH|[p IH]].
      * rewrite <- IH in Hno. congruence.
      * exists (String c p).
        change (String c s = String c (p +:+ String sep (List.last (x :: rest) ""))).
        f_equal. exact IH.
    + rewrite (split_without _ _ Hs). simpl. rewrite Hc, Hs. auto.
Qed.

Lemma contact_of_last_segment body :
  JS.includes "/" (contact_of body) = false
  /\ (body = contact_of body \/ exists p, body = p +:+ "/" +:+ contact_of body).
Proof. apply (last_segment "/" body). Qed.


Lemma opens_call {A} env c (effect : World -> Res A * World) :
  (forall w, trace (snd (effect w)) = trace w) -> Opens c (call env c effect).
Proof.
  intros Heff w. unfold call. destruct (fails env _ c); simpl; [reflexivity|].
  exists []. split; [rewrite Heff; symmetry; apply app_nil_r|constructor].
Qed.

Lemma opens_bind {A B} c (m : M A) (k : A -> M B) :
  Opens c m -> (forall a, Keeps (emits (fun _ => True)) (k a)) -> Opens c (bind m k).
Proof.
  intros Hm Hk w. unfold bind. specialize (Hm w).
  destruct (m w) as [[a|e] w1]; simpl in *; [|exact Hm].
  etransitivity; [exact Hm|apply Hk].
Qed.

Lemma opens_try_catch {A} c (m : M A) (h : Error -> M A) :
  Opens c m -> (forall e, Keeps (emits (fun _ => True)) (h e)) ->
  Opens c (try_catch m h).
Proof.
  intros Hm Hh w. unfold try_catch. specialize (Hm w).
  destruct (m w) as [[a|e] w1]; simpl in *; [exact Hm|].
  etransitivity; [exact Hm|apply Hh].
Qed.

Lemma opens_emitted {A} c (m : M A) w :
  Opens c m -> exists rest, emitted m w = c :: rest.
Proof.
  intros Hm. destruct (Hm w) as (l & E & _). exists l.
  unfold emitted. rewrite E. simpl. rewrite <- app_assoc.
  rewrite drop_app_length. reflexivity.
Qed.

Lemma on_step_opens_lookup env now chat body event st :
  step st = AWAITING_USER_ID \/ step st = AWAITING_USER_ID_FOR_TASKS ->
  bad_contact (contact_of body) = false ->
  Opens (UserFindUnique (contact_of body)) (on_step env now chat body event st).
Proof.
  intros Hstep Hgood. unfold on_step.
  destruct Hstep as [-> | ->]; rewrite Hgood;
    (apply opens_try_catch; [|intros ?; emits_auto]);
    (apply opens_bind; [|intros ?; unfold report; emits_auto]);
    apply opens_call; reflexivity.
Qed.

(** C7: in the steps [AWAITING_USER_ID] and [AWAITING_USER_ID_FOR_TASKS]
    the contact identifier is the segment of the message text after its
    last ['/'] (the whole text when it has none);
    ["https://host/path/user@example"] yields ["user@example"]; a text
    whose last segment is empty or has no ['@'] is answered with the
    "send a contact" reply and nothing else happens: the session store,
    hence the chat's step, and both tables are as before; any other text
    makes the handler look up the user named by that segment. *)
Theorem contact_parsing env now chat body event w entry :
  sessions w !! chat = Some entry ->
  step (value entry) = AWAITING_USER_ID
  \/ step (value entry) = AWAITING_USER_ID_FOR_TASKS ->
  (forall n, fails env n (RedisGet chat) = false) ->
  let handler := handleMessage env now chat body event in
  (JS.includes "/" (contact_of body) = false
   /\ (body = contact_of body \/ exists p, body = p +:+ "/" +:+ contact_of body))
  /\ contact_of "https://host/path/user@example" = "user@example"
  /\ (contact_of body = "" \/ JS.includes "@" (contact_of body) = false ->
      emitted handler w = [RedisGet chat; SendText chat msg_bad_link None]
      /\ sessions (snd (handler w)) = sessions w
      /\ users (snd (handler w)) = users w
      /\ tasks (snd (handler w)) = tasks w)
  /\ (contact_of body <> "" -> JS.includes "@" (contact_of body) = true ->
      exists rest,
        emitted handler w = RedisGet chat :: UserFindUnique (contact_of body) :: rest).
Proof.
  intros Hs Hstep Hget handler.
  split; [apply contact_of_last_segment|].
  split; [reflexivity|]. split.
  - intros Hbad.
    assert (Hb : bad_contact (contact_of body) = true).
    { unfold bad_contact. destruct Hbad as [-> | ->]; [reflexivity|].
      apply orb_true_r. }
    assert (E : snd (handler w)
            = mkWorld (users w) (tasks w) (sessions w)
                (trace w ++ [RedisGet chat; SendText chat msg_bad_link None])).
    { unfold handler, handleMessage, bind, redis_get, call. rewrite Hget. simpl.
      rewrite Hs. simpl. unfold on_step.
      destruct Hstep as [-> | ->]; rewrite Hb; simpl;
        unfold sendText, call; simpl;
        destruct (fails env _ _); simpl; unfold log_call; simpl;
        rewrite <- app_assoc; reflexivity. }
    unfold emitted. rewrite E. simpl. rewrite drop_app_length. auto.
  - intros Hne Hat.
    assert (Hb : bad_contact (contact_of body) = false).
    { unfold bad_contact. rewrite Hat. destruct (contact_of body); [congruence|].
      reflexivity. }
    pose (rest := bind (bind (on_step env now chat body event (value entry))
                          (fun responseText => ret (responseText, @nil (list Button))))
                    (fun reply => sendText env chat (fst reply)
                       (if (List.length (snd reply) =? 0)%nat then None
                        else Some (snd reply)))).
    assert (Hrest : Opens (UserFindUnique (contact_of body)) rest).
    { apply opens_bind; [|intros ?; emits_auto].
      apply opens_bind; [|intros ?; emits_auto].
      apply on_step_opens_lookup; assumption. }
    assert (E : handler w = rest (log_call (RedisGet chat) w)).
    { unfold handler, handleMessage. unfold bind at 1. unfold redis_get, call.
      rewrite Hget. cbn [fst snd]. simpl sessions. rewrite Hs. reflexivity. }
    destruct (Hrest (log_call (RedisGet chat) w)) as (l & El & _).
    exists l. unfold emitted. rewrite E, El. simpl.
    rewrite <- !app_assoc. rewrite drop_app_length. reflexivity.
Qed.

Lemma contact_parsing_witness :
  let handler := handleMessage quiet 0 "alice@corp" "https://host/path/nobody" from_alice in
  let w := in_step AWAITING_USER_ID in
  emitted handler w = [RedisGet "alice@corp"; SendText "alice@corp" msg_bad_link None]
  /\ sessions (snd (handler w)) = sessions w
  /\ users (snd (handler w)) = users w
  /\ tasks (snd (handler w)) = tasks w.
Proof.
  intros handler w.
  refine (proj1 (proj2 (proj2
    (contact_parsing quiet 0 "alice@corp" "https://host/path/nobody" from_alice w
       (mkEntry (mkSession AWAITING_USER_ID draft) (Some 3600)) _ _ _))) _).
  - reflexivity.
  - left. reflexivity.
  - intros n. reflexivity.
  - right. reflexivity.
Defined.

Lemma handleCallback_after_get env event w :
  fails env (List.length (trace w)) (RedisGet (cb_chatId event)) = false ->
  handleCallback env event w
  = bind (on_callback env event)
      (fun responseText =>
         bind (answerCallbackQuery env (cb_queryId event) msg_ack)
           (fun _ => sendText env (cb_chatId event) responseText None))
      (log_call (RedisGet (cb_chatId event)) w).
Proof.
  intros Hget. unfold handleCallback. unfold bind at 1. unfold redis_get, call.
  rewrite Hget. reflexivity.
Qed.

Lemma callback_opens_session env event w (s : USER_STEPS) :
  (forall n, fails env n (RedisGet (cb_chatId event)) = false) ->
  on_callback env event
  = bind (redis_set env (cb_chatId event) (mkSession s emptyTaskData) None)
      (fun _ => ret (if step (mkSession s emptyTaskData) is AWAITING_DESCRIPTION
                     then msg_ask_description else msg_ask_user_contact)) ->
  exists rest,
    emitted (handleCallback env event) w
    = RedisGet (cb_chatId event)
      :: RedisSet (cb_chatId event) (mkSession s emptyTaskData) None :: rest.
Proof.
  intros Hget Hon.
  pose proof (handleCallback_after_get env event w (Hget _)) as E.
  rewrite Hon in E.
  match type of E with _ = ?m _ => assert (Hopens :
    Opens (RedisSet (cb_chatId event) (mkSession s emptyTaskData) None) m) end.
  { apply opens_bind; [|intros ?; emits_auto].
    apply opens_bind; [|intros ?; emits_auto].
    apply opens_call. reflexivity. }
  destruct (Hopens (log_call (RedisGet (cb_chatId event)) w)) as (l & El & _).
  exists l. unfold emitted. rewrite E, El. simpl.
  rewrite <- !app_assoc. rewrite drop_app_length. reflexivity.
Qed.

(** C5, as the code has it: the session writes without an expiry are the
    two made by the callback handler, the one that enters
    [AWAITING_DESCRIPTION] ([create_task]) and the one that enters
    [AWAITING_USER_ID_FOR_TASKS] ([check_user_tasks]), and both are made
    whenever the store can be read; every session write of the message
    handler carries the expiry of 3600 seconds, and the reminder sweep
    never touches the store. *)
Theorem session_write_expiry env w :
  (forall now chat body event,
      Forall expires_in_an_hour (emitted (handleMessage env now chat body event) w))
  /\ (forall event,
         Forall opens_flow_without_expiry (emitted (handleCallback env event) w))
  /\ (forall now,
         Forall (fun c => is_redis c = false) (emitted (startReminderChecks env now) w))
  /\ (forall event,
         (forall n, fails env n (RedisGet (cb_chatId event)) = false) ->
         cb_data event = "create_task" ->
         exists rest,
           emitted (handleCallback env event) w
           = RedisGet (cb_chatId event)
             :: RedisSet (cb_chatId event)
                  (mkSession AWAITING_DESCRIPTION emptyTaskData) None :: rest)
  /\ (forall event,
         (forall n, fails env n (RedisGet (cb_chatId event)) = false) ->
         cb_data event = "check_user_tasks" ->
         exists rest,
           emitted (handleCallback env event) w
           = RedisGet (cb_chatId event)
             :: RedisSet (cb_chatId event)
                  (mkSession AWAITING_USER_ID_FOR_TASKS emptyTaskData) None :: rest).
Proof.
  split; [|split; [|split; [|split]]].
  - intros. apply emits_emitted, handleMessage_expiry.
  - intros. apply emits_emitted, handleCallback_expiry.
  - intros. apply emits_emitted, startReminderChecks_no_redis.
  - intros event Hget Hdata. apply callback_opens_session; [exact Hget|].
    unfold on_callback. rewrite Hdata. reflexivity.
  - intros event Hget Hdata. apply callback_opens_session; [exact Hget|].
    unfold on_callback. rewrite Hdata. reflexivity.
Qed.

Lemma session_write_expiry_witness :
  exists rest,
    emitted (handleCallback quiet (press "create_task")) (idle [])
    = RedisGet "alice@corp"
      :: RedisSet "alice@corp" (mkSession AWAITING_DESCRIPTION emptyTaskData) None
      :: rest.
Proof.
  refine (proj1 (proj2 (proj2 (proj2 (session_write_expiry quiet (idle [])))))
            (press "create_task") _ _).
  - intros n. reflexivity.
  - reflexivity.
Defined.

(** C5, as stated, fails: pressing [check_user_tasks] writes a session
    without expiry, and that session is at [AWAITING_USER_ID_FOR_TASKS],
    not at [AWAITING_DESCRIPTION]. *)
Lemma check_user_tasks_write_has_no_expiry :
  emitted (handleCallback quiet (press "check_user_tasks")) (idle [])
  = [RedisGet "alice@corp";
     RedisSet "alice@corp" (mkSession AWAITING_USER_ID_FOR_TASKS emptyTaskData) None;
     AnswerCallbackQuery "query-1" msg_ack;
     SendText "alice@corp" msg_ask_user_contact None]
  /\ step (mkSession AWAITING_USER_ID_FOR_TASKS emptyTaskData) <> AWAITING_DESCRIPTION.
Proof. split; [vm_compute; reflexivity|discriminate]. Qed.

(** ** Acknowledgement of callbacks *)

Lemma try_catch_returns {A} (m : M A) (x : A) w :
  exists a, fst (try_catch m (fun _ => ret x) w) = Ok a.
Proof. unfold try_catch. destruct (m w) as [[a|e] w']; simpl; eauto. Qed.

Lemma on_callback_returns env event w :
  (forall n c, is_redis c = true -> fails env n c = false) ->
  exists reply, fst (on_callback env event w) = Ok reply.
Proof.
  intros Hredis. unfold on_callback.
  repeat match goal with
         | |- context [if ?b then _ else _] => destruct b
         end;
    try apply try_catch_returns;
    try (unfold bind, redis_set, call; rewrite Hredis by reflexivity; simpl; eauto);
    simpl; eauto.
Qed.

Lemma on_callback_no_gateway env event :
  Keeps (emits (fun c => is_gateway c = false)) (on_callback env event).
Proof.
  unfold on_callback, decide_task, last_tasks, statistics, report. emits_auto.
Qed.

(** C6: provided the session store answers, every callback event is
    acknowledged with its own [queryId], whatever the task lookup and the
    repository calls did: the calls of the handler are some calls that do
    not reach the gateway, then [answerCallbackQuery], then at most one
    more call, which is the reply text sent as plain text without buttons;
    that reply is sent whenever the acknowledgement succeeds. *)
Theorem callback_acknowledged env event w :
  (forall n c, is_redis c = true -> fails env n c = false) ->
  exists pre reply post,
    emitted (handleCallback env event) w
    = (pre ++ AnswerCallbackQuery (cb_queryId event) msg_ack :: post)%list
    /\ Forall (fun c => is_gateway c = false) pre
    /\ fst (on_callback env event (log_call (RedisGet (cb_chatId event)) w)) = Ok reply
    /\ (post = [] \/ post = [SendText (cb_chatId event) reply None])
    /\ (fails env (List.length (trace w) + List.length pre)
          (AnswerCallbackQuery (cb_queryId event) msg_ack) = false ->
        post = [SendText (cb_chatId event) reply None]).
Proof.
  intros Hredis.
  set (chat := cb_chatId event). set (w1 := log_call (RedisGet chat) w).
  assert (E := handleCallback_after_get env event w
                 (Hredis _ (RedisGet chat) eq_refl)).
  fold chat w1 in E.
  destruct (on_callback_returns env event w1 Hredis) as (reply & Hreply).
  destruct (on_callback_no_gateway env event w1) as (l & El & Fl).
  exists (RedisGet chat :: l), reply.
  unfold bind at 1 in E.
  destruct (on_callback env event w1) as [r w2] eqn:Hon. simpl in Hreply, El.
  subst r.
  assert (Hlen : List.length (trace w2)
                 = (List.length (trace w) + List.length (RedisGet chat :: l))%nat).
  { rewrite El. unfold w1. simpl. rewrite !length_app. simpl. lia. }
  unfold bind, answerCallbackQuery, sendText, call in E. rewrite Hlen in E.
  destruct (fails env _ (AnswerCallbackQuery (cb_queryId event) msg_ack)) eqn:Hack.
  - exists []. unfold emitted. rewrite E. simpl. rewrite El. unfold w1. simpl.
    rewrite <- !app_assoc. rewrite drop_app_length. simpl.
    repeat split; auto. intros; congruence.
  - exists [SendText chat reply None].
    assert (Etr : trace (snd (handleCallback env event w))
              = (trace w ++ (RedisGet chat :: l)
                   ++ [AnswerCallbackQuery (cb_queryId event) msg_ack;
                       SendText chat reply None])%list).
    { rewrite E. simpl.
      destruct (fails env _ (SendText chat reply None)); simpl;
        rewrite El; unfold w1; simpl; rewrite <- !app_assoc; reflexivity. }
    unfold emitted. rewrite Etr. rewrite drop_app_length. simpl.
    repeat split; auto.
Qed.

Lemma callback_acknowledged_witness :
  exists pre reply post,
    emitted (handleCallback repository_down (press "approve_t1"))
      (idle [sample_task "t1" PENDING 0])
    = (pre ++ AnswerCallbackQuery "query-1" msg_ack :: post)%list
    /\ Forall (fun c => is_gateway c = false) pre
    /\ fst (on_callback repository_down (press "approve_t1")
              (log_call (RedisGet "alice@corp") (idle [sample_task "t1" PENDING 0])))
       = Ok reply
    /\ (post = [] \/ post = [SendText "alice@corp" reply None])
    /\ (fails repository_down
          (List.length (trace (idle [sample_task "t1" PENDING 0])) + List.length pre)
          (AnswerCallbackQuery "query-1" msg_ack) = false ->
        post = [SendText "alice@corp" reply None]).
Proof.
  apply (callback_acknowledged repository_down (press "approve_t1")
           (idle [sample_task "t1" PENDING 0])).
  intros n c Hc. destruct c; try discriminate Hc; reflexivity.
Defined.

(** ** Messages inside a conversation *)

Lemma handleMessage_in_session env now chat body event w entry :
  sessions w !! chat = Some entry ->
  (forall n, fails env n (RedisGet chat) = false) ->
  handleMessage env now chat body event w
  = bind (on_step env now chat body event (value entry))
      (fun responseText => sendText env chat responseText None)
      (log_call (RedisGet chat) w).
Proof.
  intros Hs Hget. unfold handleMessage. unfold bind at 1. unfold redis_get, call.
  rewrite Hget. cbn [fst snd]. simpl sessions. rewrite Hs. simpl.
  unfold bind, ret. destruct (on_step _ _ _ _ _ _ _) as [[r|e] w']; reflexivity.
Qed.

(** Once the step has produced its text, the text is sent and nothing
    else changes. *)
Lemma handleMessage_replies env now chat body event w entry reply w2 :
  sessions w !! chat = Some entry ->
  (forall n, fails env n (RedisGet chat) = false) ->
  on_step env now chat body event (value entry) (log_call (RedisGet chat) w)
  = (Ok reply, w2) ->
  snd (handleMessage env now chat body event w)
  = log_call (SendText chat reply None) w2.
Proof.
  intros Hs Hget Hstep.
  rewrite (handleMessage_in_session _ _ _ _ _ _ _ Hs Hget).
  unfold bind. rewrite Hstep. unfold sendText, call.
  destruct (fails env _ _); reflexivity.
Qed.

Lemma emitted_after {A} (m : M A) w l us ts ss :
  snd (m w) = mkWorld us ts ss (trace w ++ l) -> emitted m w = l.
Proof. intros E. unfold emitted. rewrite E. simpl. apply drop_app_length. Qed.

(** Writes a world as a record whose trace is the old one followed by
    the new calls. *)
Ltac expose_world :=
  unfold log_call, set_sessions, set_tasks, set_users; simpl;
  rewrite <- ?app_assoc; simpl.

(** Reads off the calls and the frame of a run whose final world is known
    to be the initial one with a longer trace. *)
Ltac read_world E :=
  unfold log_call in E; simpl in E; rewrite <- ?app_assoc in E; simpl in E;
  rewrite (emitted_after _ _ _ _ _ _ E); rewrite E; simpl; auto.

(** ** Persistence failures inside a conversation *)

(** C3, as the code has it: when the repository throws while a step is
    handled -- the [create] of [AWAITING_TIME], or the user lookup of
    [AWAITING_USER_ID] and of [AWAITING_USER_ID_FOR_TASKS] -- the bot
    replies with the generic error text of that step and leaves the
    session store as it was, so the chat stays in its step and the same
    input can be sent again; no task row is written. *)
Theorem persistence_failure_keeps_session env now chat body event w entry :
  sessions w !! chat = Some entry ->
  (forall k, fails env k (RedisGet chat) = false) ->
  let handler := handleMessage env now chat body event in
  let td := taskData (value entry) in
  (forall n,
      step (value entry) = AWAITING_TIME ->
      JS.parseInt body = Some n -> 0 < n ->
      (forall k, fails env k (TaskCreateCall (new_task chat td n now)) = true) ->
      emitted handler w
      = [RedisGet chat; TaskCreateCall (new_task chat td n now);
         SendText chat msg_create_error None]
      /\ sessions (snd (handler w)) = sessions w
      /\ tasks (snd (handler w)) = tasks w)
  /\ (step (value entry) = AWAITING_USER_ID ->
      bad_contact (contact_of body) = false ->
      (forall k, fails env k (UserFindUnique (contact_of body)) = true) ->
      emitted handler w
      = [RedisGet chat; UserFindUnique (contact_of body);
         SendText chat msg_check_error None]
      /\ sessions (snd (handler w)) = sessions w
      /\ tasks (snd (handler w)) = tasks w)
  /\ (step (value entry) = AWAITING_USER_ID_FOR_TASKS ->
      bad_contact (contact_of body) = false ->
      (forall k, fails env k (UserFindUnique (contact_of body)) = true) ->
      emitted handler w
      = [RedisGet chat; UserFindUnique (contact_of body);
         SendText chat msg_tasks_error None]
      /\ sessions (snd (handler w)) = sessions w
      /\ tasks (snd (handler w)) = tasks w).
Proof.
  intros Hs Hget handler td. split; [|split].
  - intros n Hstep Hparse Hpos Hfail.
    assert (Hle : (n <=? 0) = false) by (apply Z.leb_gt; exact Hpos).
    assert (E := handleMessage_replies env now chat body event w entry
                   msg_create_error
                   (log_call (TaskCreateCall (new_task chat td n now))
                      (log_call (RedisGet chat) w)) Hs Hget).
    fold handler in E. unfold on_step in E. rewrite Hstep, Hparse, Hle in E.
    unfold bind, try_catch, task_create, call in E. rewrite Hfail in E.
    specialize (E eq_refl). read_world E.
  - intros Hstep Hgood Hfail.
    assert (E := handleMessage_replies env now chat body event w entry
                   msg_check_error
                   (log_call (UserFindUnique (contact_of body))
                      (log_call (RedisGet chat) w)) Hs Hget).
    fold handler in E. unfold on_step in E. rewrite Hstep, Hgood in E.
    unfold bind, try_catch, user_findUnique, call in E. rewrite Hfail in E.
    specialize (E eq_refl). read_world E.
  - intros Hstep Hgood Hfail.
    assert (E := handleMessage_replies env now chat body event w entry
                   msg_tasks_error
                   (log_call (UserFindUnique (contact_of body))
                      (log_call (RedisGet chat) w)) Hs Hget).
    fold handler in E. unfold on_step in E. rewrite Hstep, Hgood in E.
    unfold bind, try_catch, user_findUnique, call in E. rewrite Hfail in E.
    specialize (E eq_refl). read_world E.
Qed.

Lemma persistence_failure_keeps_session_witness :
  let handler := handleMessage create_refused 1000 "alice@corp" "30" from_alice in
  let w := in_step AWAITING_TIME in
  emitted handler w
  = [RedisGet "alice@corp"; TaskCreateCall (new_task "alice@corp" draft 30 1000);
     SendText "alice@corp" msg_create_error None]
  /\ sessions (snd (handler w)) = sessions w
  /\ tasks (snd (handler w)) = tasks w.
Proof.
  intros handler w.
  refine (proj1 (persistence_failure_keeps_session create_refused 1000 "alice@corp"
                   "30" from_alice w
                   (mkEntry (mkSession AWAITING_TIME draft) (Some 3600)) _ _)
            30 _ _ _ _).
  - reflexivity.
  - intros k. reflexivity.
  - reflexivity.
  - reflexivity.
  - lia.
  - intros k. reflexivity.
Defined.

(** C3, as stated, fails: the repository refuses the [create] of a task
    in step [AWAITING_TIME]; the generic error is sent, but the session is
    not cleared -- the chat is still at [AWAITING_TIME] with its draft. *)
Lemma failed_create_does_not_clear_session :
  let w' := snd (handleMessage create_refused 1000 "alice@corp" "30" from_alice
                   (in_step AWAITING_TIME)) in
  trace w'
  = [RedisGet "alice@corp"; TaskCreateCall (new_task "alice@corp" draft 30 1000);
     SendText "alice@corp" msg_create_error None]
  /\ sessions w' !! "alice@corp"
     = Some (mkEntry (mkSession AWAITING_TIME draft) (Some 3600))
  /\ sessions w' <> ∅.
Proof.
  split; [vm_compute; reflexivity|]. split; [vm_compute; reflexivity|].
  intros H. apply (f_equal (fun m => m !! "alice@corp")) in H.
  vm_compute in H. discriminate H.
Qed.

(** ** [/start] inside a conversation *)

Lemma start_is_no_contact : bad_contact (contact_of "/start") = true.
Proof. reflexivity. Qed.

Lemma start_is_no_interval : JS.parseInt "/start" = None.
Proof. reflexivity. Qed.

(** C4 on the code: when the chat has a session, ["/start"] is taken as
    the input of the current step.  The handler makes no [del] on the
    session store and no user upsert, sends no welcome text and no
    buttons, and the chat still has a session afterwards. *)
Theorem start_inside_conversation env now chat event w entry :
  sessions w !! chat = Some entry ->
  (forall k, fails env k (RedisGet chat) = false) ->
  let handler := handleMessage env now chat "/start" event in
  Forall not_a_restart (emitted handler w)
  /\ is_Some (sessions (snd (handler w)) !! chat)
  /\ users (snd (handler w)) = users w.
Proof.
  intros Hs Hget handler.
  assert (E := handleMessage_in_session env now chat "/start" event w entry Hs Hget).
  fold handler in E.
  assert (Hcase :
    (exists l, snd (handler w)
               = mkWorld (users w) (tasks w) (sessions w) (trace w ++ l)
               /\ Forall not_a_restart l)
    \/ (exists l v, snd (handler w)
               = mkWorld (users w) (tasks w)
                   (<[chat := mkEntry v (Some 3600)]> (sessions w)) (trace w ++ l)
               /\ Forall not_a_restart l)).
  { rewrite E. unfold on_step.
    destruct (step (value entry));
      rewrite ?start_is_no_contact, ?start_is_no_interval;
      unfold bind, redis_set, sendText, call; simpl.
    - destruct (fails env _ (RedisSet _ _ _)); simpl.
      + left. eexists. expose_world. split; [reflexivity|]. repeat constructor.
      + right. destruct (fails env _ (SendText _ _ _)); simpl;
          do 2 eexists; expose_world;
          (split; [reflexivity|]); repeat constructor; discriminate.
    - left. destruct (fails env _ (SendText _ _ _)); simpl;
        eexists; expose_world;
        (split; [reflexivity|]); repeat constructor; discriminate.
    - left. destruct (fails env _ (SendText _ _ _)); simpl;
        eexists; expose_world;
        (split; [reflexivity|]); repeat constructor; discriminate.
    - left. destruct (fails env _ (SendText _ _ _)); simpl;
        eexists; expose_world;
        (split; [reflexivity|]); repeat constructor; discriminate. }
  destruct Hcase as [(l & El & Fl)|(l & v & El & Fl)];
    rewrite (emitted_after _ _ _ _ _ _ El); rewrite El; simpl;
    (split; [exact Fl|]); (split; [|reflexivity]).
  - rewrite Hs. eauto.
  - rewrite lookup_insert_eq. eauto.
Qed.

Lemma start_inside_conversation_witness :
  let handler := handleMessage quiet 1000 "alice@corp" "/start" from_alice in
  let w := in_step AWAITING_DESCRIPTION in
  Forall not_a_restart (emitted handler w)
  /\ is_Some (sessions (snd (handler w)) !! "alice@corp")
  /\ users (snd (handler w)) = users w.
Proof.
  intros handler w.
  apply (start_inside_conversation quiet 1000 "alice@corp" from_alice w
           (mkEntry (mkSession AWAITING_DESCRIPTION draft) (Some 3600))).
  - reflexivity.
  - intros k. reflexivity.
Defined.

(** The same message in the two situations: in a conversation at
    [AWAITING_DESCRIPTION] it becomes the description of the task; in an
    idle chat it is the command. *)
Lemma start_as_description :
  let w' := snd (handleMessage quiet 1000 "alice@corp" "/start" from_alice
                   (in_step AWAITING_DESCRIPTION)) in
  trace w'
  = [RedisGet "alice@corp";
     RedisSet "alice@corp"
       (mkSession AWAITING_USER_ID (describe "/start" from_alice draft)) (Some 3600);
     SendText "alice@corp" msg_ask_contact None]
  /\ sessions w' !! "alice@corp"
     = Some (mkEntry (mkSession AWAITING_USER_ID (describe "/start" from_alice draft))
               (Some 3600))
  /\ users w' = [bob].
Proof. repeat split; vm_compute; reflexivity. Qed.

Lemma start_as_command :
  let w' := snd (handleMessage quiet 1000 "alice@corp" "/start" from_alice (idle [])) in
  trace w'
  = [RedisGet "alice@corp"; RedisDel "alice@corp";
     UserUpsert "alice@corp" (Some "Alice") (Some "Adams");
     SendText "alice@corp" msg_welcome (Some welcome_keyboard)]
  /\ users w' = [bob; mkUser "alice@corp" (Some "Alice") (Some "Adams")].
Proof. repeat split; vm_compute; reflexivity. Qed.

(** ** The reminder interval *)

Example parseInt_plain : JS.parseInt "30" = Some 30.
Proof. reflexivity. Qed.

Example parseInt_words : JS.parseInt "abc" = None.
Proof. reflexivity. Qed.

Example parseInt_negative : JS.parseInt "-5" = Some (-5).
Proof. reflexivity. Qed.

Example parseInt_zero : JS.parseInt "0" = Some 0.
Proof. reflexivity. Qed.

Example parseInt_tail : JS.parseInt "15 min" = Some 15.
Proof. reflexivity. Qed.

Example parseInt_fraction : JS.parseInt "  7.5" = Some 7.
Proof. reflexivity. Qed.

Lemma digit_not_skipped d r fuel :
  is_Some (JS.digit_of d) -> JS.skip_space fuel (String d r) = String d r.
Proof.
  intros [v Hv]. destruct fuel as [|fuel]; [reflexivity|].
  destruct d as [[] [] [] [] [] [] [] []]; try discriminate Hv;
    destruct r as [|b [|c r]]; reflexivity.
Qed.

Lemma digit_not_sign d r :
  is_Some (JS.digit_of d) -> JS.parseInt (String d r) = JS.digits None (String d r).
Proof.
  intros Hd. unfold JS.parseInt, JS.trimStart.
  rewrite (digit_not_skipped d r _ Hd). destruct Hd as [v Hv].
  destruct d as [[] [] [] [] [] [] [] []]; try discriminate Hv; reflexivity.
Qed.

Lemma digits_ignore_tail ds c rest acc :
  forallb (fun c => bool_decide (is_Some (JS.digit_of c))) (list_ascii_of_string ds) = true ->
  JS.digit_of c = None ->
  JS.digits acc (ds +:+ String c rest) = JS.digits acc ds.
Proof.
  revert acc. induction ds as [|d ds IH]; intros acc Hds Hc.
  - simpl. rewrite Hc. reflexivity.
  - simpl in Hds. apply andb_true_iff in Hds as [Hd Hds].
    apply bool_decide_eq_true in Hd as [v Hv].
    change (String d ds +:+ String c rest) with (String d (ds +:+ String c rest)).
    simpl. rewrite Hv. apply IH; assumption.
Qed.

(** What follows a numeral is not read. *)
Lemma parseInt_ignores_tail ds c rest :
  is_numeral ds = true -> JS.digit_of c = None ->
  JS.parseInt (ds +:+ String c rest) = JS.parseInt ds.
Proof.
  unfold is_numeral. intros H Hc. apply andb_true_iff in H as [Hne Hds].
  destruct ds as [|d ds]; [discriminate|].
  assert (Hd : is_Some (JS.digit_of d)).
  { simpl in Hds. apply andb_true_iff in Hds as [Hd _].
    apply bool_decide_eq_true in Hd. exact Hd. }
  change (String d ds +:+ String c rest) with (String d (ds +:+ String c rest)).
  rewrite !digit_not_sign by exact Hd.
  apply (digits_ignore_tail (String d ds) c rest None Hds Hc).
Qed.

(** C8, as the code has it: in step [AWAITING_TIME] the text is read
    with [parseInt(text, 10)] -- leading white space and a sign are
    skipped and the longest run of decimal digits that follows is the
    value, whatever comes after it.  When there is no such run, or its
    value is not positive, the reply is the format error and the store and
    the tables are as before, so the chat stays at [AWAITING_TIME].  When
    the value [n] is positive (and within the range [2^53] in which the
    number is exact) and the repository accepts the row, one [PENDING]
    task is appended with [remindInterval = n] and [lastRemind = now]; if
    the session can then be deleted, it is, and the success text is
    sent. *)
Theorem interval_parsing env now chat body event w entry :
  sessions w !! chat = Some entry ->
  step (value entry) = AWAITING_TIME ->
  (forall k, fails env k (RedisGet chat) = false) ->
  let handler := handleMessage env now chat body event in
  let td := taskData (value entry) in
  (JS.parseInt body = None \/ (exists n, JS.parseInt body = Some n /\ n <= 0) ->
   emitted handler w = [RedisGet chat; SendText chat msg_bad_interval None]
   /\ sessions (snd (handler w)) = sessions w
   /\ tasks (snd (handler w)) = tasks w
   /\ users (snd (handler w)) = users w)
  /\ (forall n assignee,
         JS.parseInt body = Some n -> 0 < n -> n <= 2 ^ 53 ->
         td_userId td = Some assignee ->
         (forall k, fails env k (TaskCreateCall (new_task chat td n now)) = false) ->
         (exists tid,
             tasks (snd (handler w))
             = (tasks w ++
                [mkTask tid assignee chat (td_firstName td) (td_lastName td)
                   (td_description td) (td_fileId td) (td_fileCaption td)
                   PENDING n now now])%list)
         /\ ((forall k, fails env k (RedisDel chat) = false) ->
             emitted handler w
             = [RedisGet chat; TaskCreateCall (new_task chat td n now);
                RedisDel chat; SendText chat msg_created None]
             /\ sessions (snd (handler w)) = delete chat (sessions w))).
Proof.
  intros Hs Hstep Hget handler td. split.
  - intros Hbad.
    assert (E := handleMessage_replies env now chat body event w entry
                   msg_bad_interval (log_call (RedisGet chat) w) Hs Hget).
    fold handler in E. unfold on_step in E. rewrite Hstep in E.
    assert (Hon : match JS.parseInt body with
                  | Some interval =>
                      if interval <=? 0 then @ret string msg_bad_interval
                      else ret msg_bad_interval
                  | None => ret msg_bad_interval
                  end = ret msg_bad_interval).
    { destruct (JS.parseInt body) as [n|]; [|reflexivity].
      destruct (n <=? 0); reflexivity. }
    assert (E' : snd (handler w)
                 = log_call (SendText chat msg_bad_interval None)
                     (log_call (RedisGet chat) w)).
    { apply E. destruct Hbad as [-> | (n & -> & Hn)]; [reflexivity|].
      apply Z.leb_le in Hn. rewrite Hn. reflexivity. }
    clear E Hon. read_world E'.
  - intros n assignee Hparse Hpos _ Huser Hcreate.
    assert (Hle : (n <=? 0) = false) by (apply Z.leb_gt; exact Hpos).
    assert (E := handleMessage_in_session env now chat body event w entry Hs Hget).
    fold handler in E. unfold on_step in E. rewrite Hstep, Hparse, Hle in E.
    unfold bind, try_catch, task_create, redis_del, sendText, call in E.
    rewrite Hcreate in E. fold td in E. simpl in E. rewrite Huser in E.
    simpl in E. split.
    + eexists. rewrite E.
      destruct (fails env _ (RedisDel chat)); simpl;
        [|destruct (fails env _ (SendText _ _ _)); simpl]; reflexivity.
    + intros Hdel. rewrite Hdel in E. simpl in E.
      assert (E' : snd (handler w)
                   = mkWorld (users w)
                       (tasks w ++
                        [mkTask (uuid env (List.length (trace w) + 2)%nat)
                           assignee chat (td_firstName td) (td_lastName td)
                           (td_description td) (td_fileId td) (td_fileCaption td)
                           PENDING n now now])
                       (delete chat (sessions w))
                       (trace w ++
                        [RedisGet chat; TaskCreateCall (new_task chat td n now);
                         RedisDel chat; SendText chat msg_created None])).
      { rewrite E. destruct (fails env _ (SendText _ _ _)); simpl;
          expose_world; rewrite length_app; reflexivity. }
      rewrite (emitted_after _ _ _ _ _ _ E'). rewrite E'. auto.
Qed.

Lemma interval_parsing_witness :
  let handler := handleMessage quiet 1000 "alice@corp" "30" from_alice in
  let w := in_step AWAITING_TIME in
  (exists tid,
      tasks (snd (handler w))
      = (tasks w ++
         [mkTask tid "bob@corp" "alice@corp" (Some "Alice") (Some "Adams")
            (Some "Fix bug") None None PENDING 30 1000 1000])%list)
  /\ ((forall k, fails quiet k (RedisDel "alice@corp") = false) ->
      emitted handler w
      = [RedisGet "alice@corp"; TaskCreateCall (new_task "alice@corp" draft 30 1000);
         RedisDel "alice@corp"; SendText "alice@corp" msg_created None]
      /\ sessions (snd (handler w)) = delete "alice@corp" (sessions w)).
Proof.
  intros handler w.
  refine (proj2 (interval_parsing quiet 1000 "alice@corp" "30" from_alice w
                   (mkEntry (mkSession AWAITING_TIME draft) (Some 3600)) _ _ _)
            30 "bob@corp" _ _ _ _ _).
  - reflexivity.
  - reflexivity.
  - intros k. reflexivity.
  - reflexivity.
  - lia.
  - vm_compute. discriminate.
  - reflexivity.
  - intros k. reflexivity.
Defined.

(** C8, as stated, fails: ["15 min"] is not a numeral, yet it is not
    answered with the format error; a task that reminds every 15 minutes
    is created and the conversation ends. *)
Lemma text_after_the_digits_is_accepted :
  let w' := snd (handleMessage quiet 1000 "alice@corp" "15 min" from_alice
                   (in_step AWAITING_TIME)) in
  is_numeral "15 min" = false
  /\ trace w'
     = [RedisGet "alice@corp"; TaskCreateCall (new_task "alice@corp" draft 15 1000);
        RedisDel "alice@corp"; SendText "alice@corp" msg_created None]
  /\ tasks w'
     = [mkTask "task-2" "bob@corp" "alice@corp" (Some "Alice") (Some "Adams")
          (Some "Fix bug") None None PENDING 15 1000 1000]
  /\ sessions w' !! "alice@corp" = None.
Proof. repeat split; vm_compute; reflexivity. Qed.

(** ** What the reminder sweep leaves alone *)

Lemma keeps_weaken {A} (R R' : World -> World -> Prop) (m : M A) :
  (forall w w', R w w' -> R' w w') -> Keeps R m -> Keeps R' m.
Proof. intros H Hm w. apply H, Hm. Qed.

Lemma frame_refl ts : Forall2 lastRemind_only ts ts.
Proof. induction ts; constructor; auto using lastRemind_only_refl. Qed.

Lemma same_tables_frame w w' : same_tables w w' -> tasks_frame w w'.
Proof. intros [_ E]. unfold tasks_frame. rewrite E. apply frame_refl. Qed.

Lemma update_lastRemind_frame tid x ts :
  Forall2 lastRemind_only ts (update_task tid (SetLastRemind x) ts).
Proof.
  induction ts as [|t ts IH]; simpl; [constructor|].
  destruct (String.eqb (id t) tid).
  - constructor; [repeat split|apply frame_refl].
  - constructor; [apply lastRemind_only_refl|exact IH].
Qed.

Lemma task_update_lastRemind_frame env tid x :
  Keeps tasks_frame (task_update env tid (SetLastRemind x)).
Proof.
  apply keeps_call; [typeclasses eauto| |].
  - intros w. apply frame_refl.
  - intros w. destruct (find_task tid (tasks w)); simpl; [|apply frame_refl].
    apply update_lastRemind_frame.
Qed.

Lemma task_update_users env tid p w :
  users (snd (task_update env tid p w)) = users w
  /\ sessions (snd (task_update env tid p w)) = sessions w.
Proof.
  unfold task_update, call. destruct (fails env _ _); simpl; [auto|].
  destruct (find_task tid (tasks w)); simpl; auto.
Qed.

Lemma startReminderChecks_frame env now :
  Keeps tasks_frame (startReminderChecks env now).
Proof.
  unfold startReminderChecks, remind, sendReminderWithButtons.
  keeps_structure;
    first [ apply task_update_lastRemind_frame
          | apply (keeps_weaken same_tables); [apply same_tables_frame|];
            auto with frames ].
Qed.

#[local] Instance same_users_sessions_preorder : PreOrder same_users_sessions.
Proof.
  split; [intros w; split; reflexivity|].
  intros a b c [H1 H2] [H3 H4]. split; congruence.
Qed.

Lemma startReminderChecks_users_sessions env now :
  Keeps same_users_sessions (startReminderChecks env now).
Proof.
  unfold startReminderChecks, remind, sendReminderWithButtons.
  keeps_structure;
    first [ intros w; apply task_update_users
          | keeps_primitive by_reflexivity ].
Qed.

Lemma startReminderChecks_writes env now :
  Keeps (emits (fun c => adds_or_decides c = false)) (startReminderChecks env now).
Proof.
  unfold startReminderChecks, remind, sendReminderWithButtons. emits_auto.
Qed.

(** C9: the reminder sweep writes nothing but [lastRemind].  After a
    sweep the task table has the same rows in the same places; in every
    row [id], [userToId], [chatId], [firstName], [lastName], [text],
    [fileId], [fileCaption], [status], [remindInterval] and [createdAt]
    are unchanged; the sweep issues no [create] and no status update, and
    users and sessions are as before.  This holds whichever calls fail. *)
Theorem sweep_changes_lastRemind_only env now w :
  let w' := snd (startReminderChecks env now w) in
  Forall2 lastRemind_only (tasks w) (tasks w')
  /\ List.length (tasks w') = List.length (tasks w)
  /\ Forall (fun c => adds_or_decides c = false)
       (emitted (startReminderChecks env now) w)
  /\ users w' = users w
  /\ sessions w' = sessions w.
Proof.
  intros w'.
  assert (H := startReminderChecks_frame env now w). fold w' in H.
  split; [exact H|]. split.
  - symmetry. eapply Forall2_length. exact H.
  - split; [apply emits_emitted, startReminderChecks_writes|].
    apply (startReminderChecks_users_sessions env now w).
Qed.

(** ** A decided task stays decided *)

Lemma decide_task_outcomes env data w :
  let tid := decided_task data in
  let c1 := TaskFindUnique tid in
  exists reply w',
    decide_task env data w = (Ok reply, w')
    /\ ((w' = log_call c1 w
         /\ (fails env (List.length (trace w)) c1 = false ->
             forall t, find_task tid (tasks w) = Some t ->
               status t <> PENDING /\ reply = already (status t)))
        \/ (exists t s,
              find_task tid (tasks w) = Some t /\ status t = PENDING
              /\ (s = APPROVED \/ s = REJECTED)
              /\ (w' = log_call (TaskUpdate tid (SetStatus s)) (log_call c1 w)
                  \/ w' = set_tasks (update_task tid (SetStatus s) (tasks w))
                            (log_call (TaskUpdate tid (SetStatus s)) (log_call c1 w))))).
Proof.
  intros tid c1. unfold decide_task. fold (decided_task data). fold tid.
  unfold try_catch, bind, task_findUnique, task_update, call. fold c1.
  destruct (fails env (List.length (trace w)) c1) eqn:Hf1; simpl.
  - do 2 eexists. split; [reflexivity|]. left. split; [reflexivity|]. discriminate.
  - destruct (find_task tid (tasks w)) as [t|] eqn:Hfind; simpl.
    + destruct (status t) eqn:Hst; simpl.
      * set (s := if String.eqb (List.nth 0 (JS.split "_" data) "") "approve"
                  then APPROVED else REJECTED).
        assert (Hs : s = APPROVED \/ s = REJECTED).
        { unfold s. destruct (String.eqb _ _); auto. }
        destruct (fails env _ (TaskUpdate tid (SetStatus s))); simpl.
        -- do 2 eexists. split; [reflexivity|]. right. exists t, s. auto.
        -- rewrite Hfind. simpl.
           do 2 eexists. split; [reflexivity|]. right. exists t, s. auto 6.
      * do 2 eexists. split; [reflexivity|]. left. split; [reflexivity|].
        intros _ t' [= <-]. rewrite Hst. split; [discriminate|reflexivity].
      * do 2 eexists. split; [reflexivity|]. left. split; [reflexivity|].
        intros _ t' [= <-]. rewrite Hst. split; [discriminate|reflexivity].
      * do 2 eexists. split; [reflexivity|]. left. split; [reflexivity|].
        intros _ t' [= <-]. rewrite Hst. split; [discriminate|reflexivity].
    + do 2 eexists. split; [reflexivity|]. left. split; [reflexivity|].
      intros _ t' [=].
Qed.

Lemma update_first_pending tid s ts t :
  find_task tid ts = Some t -> status t = PENDING ->
  forall i t0, ts !! i = Some t0 ->
    exists t', update_task tid (SetStatus s) ts !! i = Some t'
               /\ id t' = id t0 /\ (status t0 <> PENDING -> status t' = status t0).
Proof.
  unfold find_task. induction ts as [|a ts IH]; simpl; [discriminate|].
  destruct (String.eqb (id a) tid) eqn:Ha.
  - intros [= ->] Hp [|i] t0; simpl.
    + intros [= <-]. eexists. split; [reflexivity|]. split; [reflexivity|].
      congruence.
    + intros Hi. exists t0. auto.
  - intros Hf Hp [|i] t0; simpl.
    + intros [= <-]. exists a. auto.
    + intros Hi. apply IH; assumption.
Qed.

Lemma decide_task_rows env data : Keeps rows_kept (decide_task env data).
Proof.
  intros w. destruct (decide_task_outcomes env data w) as (reply & w' & E & H).
  rewrite E. simpl.
  destruct H as [[-> _]|(t & s & Hf & Hp & _ & [-> | ->])].
  - intros i t0 Hi. exists t0. auto.
  - intros i t0 Hi. exists t0. auto.
  - intros i t0 Hi. simpl. eapply update_first_pending; eauto.
Qed.

#[local] Instance tasks_extend_preorder : PreOrder tasks_extend.
Proof.
  split.
  - intros w. exists []. symmetry. apply app_nil_r.
  - intros a b c [l1 E1] [l2 E2]. exists (l1 ++ l2)%list.
    rewrite E2, E1. symmetry. apply app_assoc.
Qed.

Lemma same_tables_rows w w' : same_tables w w' -> rows_kept w w'.
Proof. intros [_ E] i t Hi. exists t. rewrite E. auto. Qed.

Lemma tasks_extend_rows w w' : tasks_extend w w' -> rows_kept w w'.
Proof.
  intros [l E] i t Hi. exists t. rewrite E.
  split; [apply lookup_app_l_Some; exact Hi|auto].
Qed.

Lemma tasks_frame_rows w w' : tasks_frame w w' -> rows_kept w w'.
Proof.
  intros H i t Hi.
  destruct (Forall2_lookup_l _ _ _ _ _ H Hi) as (t' & Hi' & Ht').
  exists t'. split; [exact Hi'|]. unfold lastRemind_only in Ht'.
  split; [tauto|intros _; tauto].
Qed.

Ltac extends_fin :=
  first [ exists []; symmetry; apply app_nil_r | eexists; reflexivity ].

Lemma handleMessage_extends env now chat body event :
  Keeps tasks_extend (handleMessage env now chat body event).
Proof.
  unfold handleMessage, on_step, on_command, report.
  keeps_structure;
    unfold redis_get, redis_set, redis_del, user_findUnique, user_upsert,
      task_findMany, task_create, sendText;
    keeps_primitive extends_fin.
Qed.

Lemma on_callback_rows env event : Keeps rows_kept (on_callback env event).
Proof.
  unfold on_callback.
  destruct (JS.startsWith "approve_" (cb_data event)
            || JS.startsWith "reject_" (cb_data event)).
  - apply decide_task_rows.
  - unfold last_tasks, statistics, report.
    keeps_structure;
      (apply (keeps_weaken same_tables); [apply same_tables_rows|]);
      auto with frames.
Qed.

Lemma handleCallback_rows env event : Keeps rows_kept (handleCallback env event).
Proof.
  unfold handleCallback.
  apply keeps_bind; [typeclasses eauto| |intros ?].
  { apply (keeps_weaken same_tables); [apply same_tables_rows|].
    auto with frames. }
  apply keeps_bind; [typeclasses eauto| |intros ?].
  { apply on_callback_rows. }
  keeps_structure;
    (apply (keeps_weaken same_tables); [apply same_tables_rows|]);
    auto with frames.
Qed.

Lemma perform_rows env a : Keeps rows_kept (perform env a).
Proof.
  destruct a; simpl.
  - apply (keeps_weaken tasks_extend); [apply tasks_extend_rows|].
    apply handleMessage_extends.
  - apply handleCallback_rows.
  - apply (keeps_weaken tasks_frame); [apply tasks_frame_rows|].
    apply startReminderChecks_frame.
Qed.

Lemma run_rows steps w : rows_kept w (run steps w).
Proof.
  revert w. induction steps as [|[env a] steps IH]; intros w; simpl.
  - reflexivity.
  - etransitivity; [apply (perform_rows env a w)|apply IH].
Qed.

(** The acknowledgement and the reply that end every callback. *)
Lemma acknowledge_and_reply env query chat reply w :
  let ack := AnswerCallbackQuery query msg_ack in
  exists tail,
    snd (bind (answerCallbackQuery env query msg_ack)
           (fun _ => sendText env chat reply None) w)
    = mkWorld (users w) (tasks w) (sessions w) (trace w ++ ack :: tail)
    /\ (tail = [SendText chat reply None]
        \/ tail = [] /\ fails env (List.length (trace w)) ack = true).
Proof.
  intros ack. unfold bind, answerCallbackQuery, sendText, call. fold ack.
  destruct (fails env (List.length (trace w)) ack); simpl.
  - exists []. split; [reflexivity|auto].
  - exists [SendText chat reply None].
    split; [|auto]. destruct (fails env _ _); simpl; expose_world; reflexivity.
Qed.

(** All the ways the handling of an approve / reject callback can go. *)
Lemma decision_shapes env event w :
  is_decision (cb_data event) = true ->
  let tid := decided_task (cb_data event) in
  let chat := cb_chatId event in
  let get := RedisGet chat in
  let find := TaskFindUnique tid in
  let ack := AnswerCallbackQuery (cb_queryId event) msg_ack in
  exists calls ts,
    snd (handleCallback env event w)
    = mkWorld (users w) ts (sessions w) (trace w ++ calls)
    /\ ((calls = [get] /\ ts = tasks w
         /\ fails env (List.length (trace w)) get = true)
        \/ (exists reply tail,
               calls = get :: find :: ack :: tail /\ ts = tasks w
               /\ (tail = [SendText chat reply None]
                   \/ tail = [] /\ exists k, fails env k ack = true)
               /\ ((forall k, fails env k find = false) ->
                   forall t, find_task tid (tasks w) = Some t ->
                     status t <> PENDING /\ reply = already (status t)))
        \/ (exists t s tail,
               find_task tid (tasks w) = Some t /\ status t = PENDING
               /\ (s = APPROVED \/ s = REJECTED)
               /\ calls = get :: find :: TaskUpdate tid (SetStatus s) :: ack :: tail
               /\ (tail = [] \/ exists reply, tail = [SendText chat reply None])
               /\ (ts = tasks w \/ ts = update_task tid (SetStatus s) (tasks w)))).
Proof.
  intros Hd tid chat get find ack.
  destruct (fails env (List.length (trace w)) get) eqn:Hget.
  - exists [get], (tasks w). split; [|auto].
    unfold handleCallback. unfold bind at 1. unfold redis_get, call.
    fold chat get. rewrite Hget. reflexivity.
  - rewrite (handleCallback_after_get env event w Hget).
    rewrite (on_callback_decision _ _ Hd). fold chat get.
    destruct (decide_task_outcomes env (cb_data event) (log_call get w))
      as (reply & w2 & E & H).
    unfold bind at 1. rewrite E. fold tid find in H.
    destruct (acknowledge_and_reply env (cb_queryId event) chat reply w2)
      as (tail & Etail & Htail).
    fold ack in Etail, Htail. rewrite Etail.
    destruct H as [[-> Hreply]|(t & s & Hf & Hp & Hs & Hw2)].
    + exists (get :: find :: ack :: tail), (tasks w).
      split; [expose_world; reflexivity|]. right. left.
      exists reply, tail. repeat split; auto.
      * destruct Htail as [->|[-> Hk]]; eauto.
      * apply (Hreply (H _)). assumption.
      * apply (Hreply (H _)). assumption.
    + simpl in Hf.
      assert (Ht : tail = [] \/ exists r, tail = [SendText chat r None]).
      { destruct Htail as [->|[-> _]]; eauto. }
      destruct Hw2 as [-> | ->].
      * exists (get :: find :: TaskUpdate tid (SetStatus s) :: ack :: tail), (tasks w).
        split; [expose_world; reflexivity|]. right. right.
        exists t, s, tail. auto 8.
      * exists (get :: find :: TaskUpdate tid (SetStatus s) :: ack :: tail),
          (update_task tid (SetStatus s) (tasks w)).
        split; [expose_world; reflexivity|]. right. right.
        exists t, s, tail. auto 8.
Qed.

(** C1: a task that is [APPROVED] or [REJECTED] keeps its status for
    ever: after any sequence of messages, callbacks and reminder sweeps, in
    any environments, the row is still in its place with the same
    identifier and the same status.  In the approve / reject handler the
    only status write is made after the lookup returned a [PENDING] task;
    on a task already [APPROVED] or [REJECTED] the handler writes nothing,
    leaves the task table as it is and, when the lookup and the
    acknowledgement succeed, replies with the text that reports the
    existing state. *)
Theorem status_is_final :
  (forall steps w i t,
      tasks w !! i = Some t ->
      status t = APPROVED \/ status t = REJECTED ->
      exists t', tasks (run steps w) !! i = Some t'
                 /\ id t' = id t /\ status t' = status t)
  /\ (forall env event w,
         is_decision (cb_data event) = true ->
         let tid := decided_task (cb_data event) in
         let chat := cb_chatId event in
         let ack := AnswerCallbackQuery (cb_queryId event) msg_ack in
         let handler := handleCallback env event in
         (forall x p,
             In (TaskUpdate x p) (emitted handler w) ->
             x = tid /\ (p = SetStatus APPROVED \/ p = SetStatus REJECTED)
             /\ exists t, find_task tid (tasks w) = Some t /\ status t = PENDING)
         /\ (forall t,
                find_task tid (tasks w) = Some t ->
                status t = APPROVED \/ status t = REJECTED ->
                tasks (snd (handler w)) = tasks w
                /\ Forall (fun c => is_task_write c = false) (emitted handler w)
                /\ ((forall k, fails env k (RedisGet chat) = false) ->
                    (forall k, fails env k (TaskFindUnique tid) = false) ->
                    (forall k, fails env k ack = false) ->
                    emitted handler w
                    = [RedisGet chat; TaskFindUnique tid; ack;
                       SendText chat (already (status t)) None]))).
Proof.
  split.
  - intros steps w i t Hi Hst.
    destruct (run_rows steps w i t Hi) as (t' & Hi' & Hid & Hkeep).
    exists t'. repeat split; auto. apply Hkeep.
    destruct Hst as [-> | ->]; discriminate.
  - intros env event w Hd tid chat ack handler.
    destruct (decision_shapes env event w Hd) as (calls & ts & E & H).
    fold tid chat ack handler in E, H.
    rewrite (emitted_after _ _ _ _ _ _ E). rewrite E. simpl. split.
    + intros x p Hin.
      destruct H as [(-> & _)|[(reply & tail & -> & _ & Htail & _)
                              |(t & s & tail & Hf & Hp & Hs & -> & Htail & _)]].
      * simpl in Hin. intuition discriminate.
      * simpl in Hin.
        destruct Hin as [Hin|[Hin|[Hin|Hin]]]; try discriminate.
        destruct Htail as [->|[-> _]]; simpl in Hin; intuition discriminate.
      * simpl in Hin.
        destruct Hin as [Hin|[Hin|[Hin|[Hin|Hin]]]]; try discriminate.
        -- injection Hin as <- <-. split; [reflexivity|]. split; [|eauto].
           destruct Hs as [-> | ->]; auto.
        -- destruct Htail as [->|[r ->]]; simpl in Hin; intuition discriminate.
    + intros t Hf Hst.
      assert (Hnp : status t <> PENDING) by (destruct Hst as [-> | ->]; discriminate).
      destruct H as [(-> & -> & Hfail)|[(reply & tail & -> & -> & Htail & Hreply)
                                       |(t' & s & tail & Hf' & Hp & _)]].
      * split; [reflexivity|]. split; [repeat constructor|].
        intros Hget. rewrite Hget in Hfail. discriminate.
      * split; [reflexivity|]. split.
        { destruct Htail as [->|[-> _]]; repeat constructor. }
        intros _ Hfind Hack. destruct (Hreply Hfind t Hf) as [_ ->].
        destruct Htail as [->|[-> [k Hk]]]; [reflexivity|].
        rewrite Hack in Hk. discriminate.
      * congruence.
Qed.

Lemma status_is_final_witness :
  let w := idle [sample_task "t1" APPROVED 0] in
  let handler := handleCallback quiet (press "reject_t1") in
  (exists t', tasks (run [(quiet, Callback (press "reject_t1")); (quiet, Sweep 5000)] w)
              !! 0%nat = Some t'
              /\ id t' = "t1" /\ status t' = APPROVED)
  /\ tasks (snd (handler w)) = tasks w
  /\ Forall (fun c => is_task_write c = false) (emitted handler w)
  /\ ((forall k, fails quiet k (RedisGet "alice@corp") = false) ->
      (forall k, fails quiet k (TaskFindUnique "t1") = false) ->
      (forall k, fails quiet k (AnswerCallbackQuery "query-1" msg_ack) = false) ->
      emitted handler w
      = [RedisGet "alice@corp"; TaskFindUnique "t1";
         AnswerCallbackQuery "query-1" msg_ack;
         SendText "alice@corp" msg_already_approved None]).
Proof.
  intros w handler. split.
  - apply (proj1 status_is_final
             [(quiet, Callback (press "reject_t1")); (quiet, Sweep 5000)] w 0%nat
             (sample_task "t1" APPROVED 0)).
    + reflexivity.
    + left. reflexivity.
  - refine (proj2 (proj2 status_is_final quiet (press "reject_t1") w _)
              (sample_task "t1" APPROVED 0) _ _).
    + reflexivity.
    + reflexivity.
    + left. reflexivity.
Defined.

(** ** The reminder sweep, task by task *)

Lemma patch_task_id p t : id (patch_task p t) = id t.
Proof. destruct p; reflexivity. Qed.

Lemma find_update_other tid tid' p ts :
  tid' <> tid -> find_task tid (update_task tid' p ts) = find_task tid ts.
Proof.
  intros Hne. unfold find_task. induction ts as [|t ts IH]; simpl; [reflexivity|].
  destruct (String.eqb (id t) tid') eqn:E'; simpl.
  - rewrite patch_task_id. apply String.eqb_eq in E'.
    destruct (String.eqb_spec (id t) tid); [congruence|reflexivity].
  - rewrite IH. reflexivity.
Qed.

Lemma find_update_same tid p ts t :
  find_task tid ts = Some t ->
  find_task tid (update_task tid p ts) = Some (patch_task p t).
Proof.
  unfold find_task. induction ts as [|a ts IH]; simpl; [discriminate|].
  destruct (String.eqb (id a) tid) eqn:E; simpl.
  - intros [= ->]. rewrite patch_task_id, E. reflexivity.
  - intros H. rewrite E. apply IH. exact H.
Qed.

Lemma find_unique ts t :
  NoDup (map id ts) -> In t ts -> find_task (id t) ts = Some t.
Proof.
  unfold find_task. induction ts as [|a ts IH]; simpl; [tauto|].
  intros Hnd Hin. apply NoDup_cons in Hnd as [Hnotin Hnd].
  destruct Hin as [-> | Hin].
  - rewrite String.eqb_refl. reflexivity.
  - destruct (String.eqb_spec (id a) (id t)) as [E|_]; [|auto].
    exfalso. apply Hnotin. rewrite E. apply list_elem_of_In, in_map. exact Hin.
Qed.

Lemma eqb_append_prefix p a b :
  String.eqb (p +:+ a) (p +:+ b) = String.eqb a b.
Proof.
  induction p as [|c p IH]; [reflexivity|].
  change (String.eqb (String c (p +:+ a)) (String c (p +:+ b)) = String.eqb a b).
  simpl. rewrite Ascii.eqb_refl. exact IH.
Qed.

Lemma offers_reminder tid tid' :
  offers tid (reminder_keyboard tid') = String.eqb tid' tid.
Proof.
  unfold offers, reminder_keyboard. cbn. rewrite !eqb_append_prefix.
  rewrite !orb_false_r. destruct (String.eqb tid' tid); reflexivity.
Qed.

Lemma untouched_call {A} env tid c (effect : World -> Res A * World) :
  concerns tid c = false ->
  (forall w, trace (snd (effect w)) = trace w
             /\ find_task tid (tasks (snd (effect w))) = find_task tid (tasks w)) ->
  Keeps (untouched tid) (call env c effect).
Proof.
  intros Hc Heff. apply keeps_call; [typeclasses eauto| |].
  - intros w. split; [reflexivity|].
    exists [c]. split; [reflexivity|repeat constructor; exact Hc].
  - intros w. destruct (Heff w) as [Htr Hfind]. split; [exact Hfind|].
    exists []. split; [rewrite Htr; symmetry; apply app_nil_r|constructor].
Qed.

Lemma remind_untouched env now (u : Task) tid :
  id u <> tid -> Keeps (untouched tid) (remind env now u).
Proof.
  intros Hne.
  assert (Heq : String.eqb (id u) tid = false) by (apply String.eqb_neq; exact Hne).
  unfold remind, sendReminderWithButtons.
  keeps_structure;
    unfold task_findUnique, task_update, sendText, sendFile;
    (apply untouched_call;
     [ cbn [concerns]; rewrite ?offers_reminder; exact Heq
     | intros w; simpl; repeat case_match; simpl;
       rewrite ?find_update_other by exact Hne; auto ]).
Qed.

Lemma remind_returns env now u w : fst (remind env now u w) = Ok tt.
Proof.
  unfold remind, try_catch.
  destruct (bind _ _ w) as [[[]|e] w']; reflexivity.
Qed.

(** The reminder of a task whose row is as it was selected, when the
    calls about it succeed. *)
Lemma remind_own env now t w :
  find_task (id t) (tasks w) = Some t ->
  (forall k c, concerns (id t) c = true -> fails env k c = false) ->
  let next := now + remindInterval t * 60 * 1000 in
  snd (remind env now t w)
  = mkWorld (users w) (update_task (id t) (SetLastRemind next) (tasks w))
      (sessions w)
      (trace w ++ [TaskFindUnique (id t); prompt_of t;
                   TaskUpdate (id t) (SetLastRemind next)]).
Proof.
  intros Hfind Hok next.
  assert (Hprompt : concerns (id t) (prompt_of t) = true).
  { unfold prompt_of. destruct (JS.truthy_opt (fileId t)); cbn [concerns];
      rewrite offers_reminder; apply String.eqb_refl. }
  unfold remind, sendReminderWithButtons, try_catch, bind, task_findUnique,
    task_update, call.
  rewrite Hok by (simpl; apply String.eqb_refl). simpl. rewrite Hfind.
  unfold prompt_of in *. unfold sendFile, sendText, call.
  destruct (JS.truthy_opt (fileId t)); rewrite (Hok _ _ Hprompt); simpl;
    rewrite Hok by (simpl; apply String.eqb_refl); simpl; rewrite Hfind;
    expose_world; reflexivity.
Qed.

Lemma reminders_untouched env now tid rows i :
  Forall (fun u => id u <> tid) rows ->
  Keeps (untouched tid) (reminders env now i rows).
Proof.
  unfold reminders. intros H. revert i.
  induction H as [|u rows Hu _ IH]; intros i; simpl.
  - apply keeps_ret. typeclasses eauto.
  - apply keeps_bind; [typeclasses eauto| |intros []; apply IH].
    apply remind_untouched. exact Hu.
Qed.

Lemma reminders_app env now i l1 t l2 w :
  snd (reminders env now i (l1 ++ t :: l2) w)
  = snd (reminders env now (S (i + List.length l1)) l2
           (snd (remind env now t (snd (reminders env now i l1 w))))).
Proof.
  unfold reminders. revert i w.
  induction l1 as [|u l1 IH]; intros i w; simpl.
  - unfold bind, ret. simpl.
    pose proof (remind_returns env now t w) as Hr.
    destruct (remind env now t w) as [r w1]. simpl in Hr. subst r. simpl.
    rewrite Nat.add_0_r. reflexivity.
  - unfold bind.
    pose proof (remind_returns env now u w) as Hr.
    destruct (remind env now u w) as [r w1]. simpl in Hr. subst r.
    rewrite IH. rewrite Nat.add_succ_r. reflexivity.
Qed.

Lemma no_concern_filter tid l :
  Forall (fun c => concerns tid c = false) l -> List.filter (concerns tid) l = [].
Proof.
  induction 1 as [|c l Hc _ IH]; simpl; [reflexivity|]. rewrite Hc. exact IH.
Qed.

(** The loop reaches [t] with its row intact, reminds, and moves on. *)
Lemma reminders_remind env now t l1 l2 i w :
  Forall (fun u => id u <> id t) l1 ->
  Forall (fun u => id u <> id t) l2 ->
  find_task (id t) (tasks w) = Some t ->
  (forall k c, concerns (id t) c = true -> fails env k c = false) ->
  let next := now + remindInterval t * 60 * 1000 in
  let w' := snd (reminders env now i (l1 ++ t :: l2) w) in
  find_task (id t) (tasks w') = Some (patch_task (SetLastRemind next) t)
  /\ exists calls,
       trace w' = (trace w ++ calls)%list
       /\ List.filter (concerns (id t)) calls
          = [TaskFindUnique (id t); prompt_of t;
             TaskUpdate (id t) (SetLastRemind next)].
Proof.
  intros H1 H2 Hfind Hok next w'. unfold w'. rewrite reminders_app.
  destruct (reminders_untouched env now (id t) l1 i H1 w)
    as (Hf1 & pre & Epre & Fpre).
  set (w1 := snd (reminders env now i l1 w)) in *.
  rewrite Hfind in Hf1.
  pose proof (remind_own env now t w1 Hf1 Hok) as E2. fold next in E2.
  set (w2 := snd (remind env now t w1)) in *.
  destruct (reminders_untouched env now (id t) l2 (S (i + List.length l1)) H2 w2)
    as (Hf3 & post & Epost & Fpost).
  split.
  - rewrite Hf3, E2. exact (find_update_same _ (SetLastRemind next) _ _ Hf1).
  - exists (pre ++ [TaskFindUnique (id t); prompt_of t;
                    TaskUpdate (id t) (SetLastRemind next)] ++ post)%list.
    split.
    + rewrite Epost, E2. simpl. rewrite Epre. rewrite <- !app_assoc. reflexivity.
    + rewrite !List.filter_app.
      rewrite (no_concern_filter _ _ Fpre), (no_concern_filter _ _ Fpost).
      cbn [List.filter concerns app]. rewrite !String.eqb_refl.
      unfold prompt_of. destruct (JS.truthy_opt (fileId t)); cbn [concerns];
        rewrite offers_reminder, String.eqb_refl; reflexivity.
Qed.

Lemma sweep_selected env now w :
  let c := TaskFindMany (pending_before now) false None in
  fails env (List.length (trace w)) c = false ->
  snd (startReminderChecks env now w)
  = snd (reminders env now 0
           (List.filter (matches (pending_before now)) (tasks w)) (log_call c w)).
Proof.
  intros c Hok. unfold startReminderChecks, try_catch, bind, task_findMany, call.
  fold c. rewrite Hok. unfold reminders, select_tasks. simpl.
  destruct (for_each _ _ _ _ _) as [[r|e] w']; reflexivity.
Qed.

Lemma sweep_refused env now w :
  let c := TaskFindMany (pending_before now) false None in
  fails env (List.length (trace w)) c = true ->
  snd (startReminderChecks env now w) = log_call c w.
Proof.
  intros c Hfail. unfold startReminderChecks, try_catch, bind, task_findMany, call.
  fold c. rewrite Hfail. reflexivity.
Qed.

Lemma due_selected now t :
  status t = PENDING -> lastRemind t < now ->
  matches (pending_before now) t = true.
Proof.
  intros Hs Hl. unfold matches, pending_before. simpl. rewrite Hs. simpl.
  rewrite !andb_true_r. apply Z.ltb_lt. exact Hl.
Qed.

Lemma not_due_not_selected now t :
  now <= lastRemind t -> matches (pending_before now) t = false.
Proof.
  intros Hl. unfold matches, pending_before. simpl.
  replace (lastRemind t <? now) with false by (symmetry; apply Z.ltb_ge; exact Hl).
  rewrite andb_false_r. reflexivity.
Qed.

Lemma NoDup_ids_filter (p : Task -> bool) ts :
  NoDup (map id ts) -> NoDup (map id (List.filter p ts)).
Proof.
  induction ts as [|t ts IH]; simpl; [auto|].
  intros Hnd. apply NoDup_cons in Hnd as [Hnotin Hnd].
  destruct (p t); simpl; [|auto].
  apply NoDup_cons. split; [|auto].
  intros Hin. apply Hnotin.
  apply list_elem_of_In in Hin. apply list_elem_of_In.
  apply in_map_iff in Hin as (u & Hu & Hin). apply in_map_iff.
  exists u. split; [exact Hu|]. apply List.filter_In in Hin. tauto.
Qed.

Lemma NoDup_ids_split t l1 l2 :
  NoDup (map id (l1 ++ t :: l2)) ->
  Forall (fun u => id u <> id t) l1 /\ Forall (fun u => id u <> id t) l2.
Proof.
  rewrite map_app. simpl. intros Hnd.
  apply NoDup_app in Hnd as (_ & Hdisj & Hnd2).
  apply NoDup_cons in Hnd2 as [Hnotin _].
  split; apply List.Forall_forall; intros u Hu Heq.
  - apply (Hdisj (id u)).
    + apply list_elem_of_In, in_map. exact Hu.
    + rewrite Heq. apply list_elem_of_here.
  - apply Hnotin. rewrite <- Heq. apply list_elem_of_In, in_map. exact Hu.
Qed.

Lemma frame_ids l l' : Forall2 lastRemind_only l l' -> map id l' = map id l.
Proof.
  induction 1 as [|t t' l l' Ht _ IH]; simpl; [reflexivity|].
  destruct Ht as [-> _]. rewrite IH. reflexivity.
Qed.

(** A sweep at a time when the task is not due leaves it alone. *)
Lemma sweep_not_due env now w tid t :
  NoDup (map id (tasks w)) ->
  find_task tid (tasks w) = Some t ->
  now <= lastRemind t ->
  untouched tid w (snd (startReminderChecks env now w)).
Proof.
  intros Hnd Hfind Hl.
  set (c := TaskFindMany (pending_before now) false None).
  assert (Hlog : untouched tid w (log_call c w)).
  { split; [reflexivity|]. exists [c]. split; [reflexivity|repeat constructor]. }
  destruct (fails env (List.length (trace w)) c) eqn:Hc.
  - rewrite (sweep_refused env now w Hc). exact Hlog.
  - rewrite (sweep_selected env now w Hc). fold c.
    etransitivity; [exact Hlog|].
    apply reminders_untouched.
    apply List.Forall_forall. intros u Hu Heq.
    apply List.filter_In in Hu as [Hin Hm].
    pose proof (find_unique _ _ Hnd Hin) as Hfu. rewrite Heq, Hfind in Hfu.
    injection Hfu as <-. rewrite (not_due_not_selected now t Hl) in Hm.
    discriminate.
Qed.

Lemma sweep_keeps_ids env now w :
  map id (tasks (snd (startReminderChecks env now w))) = map id (tasks w).
Proof. apply frame_ids, startReminderChecks_frame. Qed.

Lemma run_sweeps_not_due sweeps w tid t :
  NoDup (map id (tasks w)) ->
  find_task tid (tasks w) = Some t ->
  Forall (fun s => snd s <= lastRemind t) sweeps ->
  untouched tid w (run_sweeps sweeps w).
Proof.
  intros Hnd Hfind Hall. revert w Hnd Hfind.
  induction Hall as [|[env now] sweeps Hnow _ IH]; intros w Hnd Hfind; simpl.
  - reflexivity.
  - pose proof (sweep_not_due env now w tid t Hnd Hfind Hnow) as Hu.
    etransitivity; [exact Hu|]. apply IH.
    + rewrite sweep_keeps_ids. exact Hnd.
    + destruct Hu as [-> _]. exact Hfind.
Qed.

(** C2: a sweep at time [now] that selects a task -- [PENDING] with
    [lastRemind < now] -- and whose calls about that task succeed makes
    exactly three calls about it, in this order: the lookup of the row,
    the approve / reject prompt to the assignee, and the update that sets
    [lastRemind] to [now] plus [remindInterval] minutes.  Afterwards the
    row is the old one with that [lastRemind]; and any sweeps that
    follow at times not later than it, in any environments, make no call
    about the task (no prompt in particular) and leave its row as it
    is. *)
Theorem reminder_advances env now w t :
  NoDup (map id (tasks w)) ->
  In t (tasks w) ->
  status t = PENDING ->
  lastRemind t < now ->
  fails env (List.length (trace w)) (TaskFindMany (pending_before now) false None)
  = false ->
  (forall k c, concerns (id t) c = true -> fails env k c = false) ->
  let sweep := startReminderChecks env now in
  let w' := snd (sweep w) in
  let next := now + remindInterval t * 60 * 1000 in
  List.filter (concerns (id t)) (emitted sweep w)
  = [TaskFindUnique (id t); prompt_of t; TaskUpdate (id t) (SetLastRemind next)]
  /\ find_task (id t) (tasks w') = Some (patch_task (SetLastRemind next) t)
  /\ lastRemind (patch_task (SetLastRemind next) t) = next
  /\ forall sweeps,
       Forall (fun s => snd s <= next) sweeps ->
       find_task (id t) (tasks (run_sweeps sweeps w'))
       = Some (patch_task (SetLastRemind next) t)
       /\ Forall (fun c => concerns (id t) c = false)
            (drop (List.length (trace w')) (trace (run_sweeps sweeps w'))).
Proof.
  intros Hnd Hin Hst Hdue Hmany Hok sweep w' next.
  set (c := TaskFindMany (pending_before now) false None) in *.
  set (selected := List.filter (matches (pending_before now)) (tasks w)).
  assert (Ew' : w' = snd (reminders env now 0 selected (log_call c w))).
  { apply sweep_selected. exact Hmany. }
  assert (Hsel : In t selected).
  { apply List.filter_In. split; [exact Hin|]. apply due_selected; assumption. }
  apply in_split in Hsel as (l1 & l2 & Esel).
  assert (Hids : NoDup (map id selected)) by (apply NoDup_ids_filter; exact Hnd).
  rewrite Esel in Hids, Ew'. apply NoDup_ids_split in Hids as [H1 H2].
  assert (Hfind : find_task (id t) (tasks (log_call c w)) = Some t).
  { simpl. apply find_unique; assumption. }
  destruct (reminders_remind env now t l1 l2 0%nat (log_call c w) H1 H2 Hfind Hok)
    as (Hrow & calls & Etrace & Hcalls).
  fold next in Hrow, Hcalls. rewrite <- Ew' in Hrow, Etrace.
  split; [|split; [exact Hrow|split; [reflexivity|]]].
  - unfold emitted. fold w'. rewrite Etrace. simpl.
    rewrite <- app_assoc. rewrite drop_app_length. simpl. exact Hcalls.
  - intros sweeps Hall.
    assert (Hnd' : NoDup (map id (tasks w'))).
    { unfold w', sweep. rewrite sweep_keeps_ids. exact Hnd. }
    destruct (run_sweeps_not_due sweeps w' (id t) _ Hnd' Hrow Hall)
      as (Hsame & l & El & Fl).
    split; [rewrite Hsame; exact Hrow|].
    rewrite El, drop_app_length. exact Fl.
Qed.

Lemma reminder_advances_witness :
  let w := idle [sample_task "t1" PENDING 0; sample_task "t2" APPROVED 0] in
  let t := sample_task "t1" PENDING 0 in
  let sweep := startReminderChecks quiet 1000 in
  let w' := snd (sweep w) in
  List.filter (concerns "t1") (emitted sweep w)
  = [TaskFindUnique "t1"; prompt_of t; TaskUpdate "t1" (SetLastRemind 1801000)]
  /\ find_task "t1" (tasks w') = Some (patch_task (SetLastRemind 1801000) t)
  /\ lastRemind (patch_task (SetLastRemind 1801000) t) = 1801000
  /\ forall sweeps,
       Forall (fun s => snd s <= 1801000) sweeps ->
       find_task "t1" (tasks (run_sweeps sweeps w'))
       = Some (patch_task (SetLastRemind 1801000) t)
       /\ Forall (fun c => concerns "t1" c = false)
            (drop (List.length (trace w')) (trace (run_sweeps sweeps w'))).
Proof.
  intros w t sweep w'.
  apply (reminder_advances quiet 1000 w t).
  - apply (bool_decide_unpack _). vm_compute. exact I.
  - left. reflexivity.
  - reflexivity.
  - reflexivity.
  - reflexivity.
  - intros k c _. reflexivity.
Defined.

Example sweep_once_then_silence :
  let w := idle [sample_task "t1" PENDING 0] in
  let w1 := snd (startReminderChecks quiet 1000 w) in
  let w2 := snd (startReminderChecks quiet 31000 w1) in
  List.length (List.filter is_gateway (trace w1)) = 1%nat
  /\ trace w2
     = (trace w1 ++ [TaskFindMany (pending_before 31000) false None])%list
  /\ tasks w2 = [sample_task "t1" PENDING 1801000].
Proof. repeat split; vm_compute; reflexivity. Qed.

(** ** The creation flow, end to end *)

Example creation_flow :
  let w1 := snd (handleMessage quiet 10 "alice@corp" "/start" from_alice (idle [])) in
  let w2 := snd (handleCallback quiet (press "create_task") w1) in
  let w3 := snd (handleMessage quiet 20 "alice@corp" "Fix bug" from_alice w2) in
  let w4 := snd (handleMessage quiet 30 "alice@corp" "bob@corp" from_alice w3) in
  let w5 := snd (handleMessage quiet 40 "alice@corp" "30" from_alice w4) in
  step <$> (value <$> sessions w2 !! "alice@corp") = Some AWAITING_DESCRIPTION
  /\ step <$> (value <$> sessions w3 !! "alice@corp") = Some AWAITING_USER_ID
  /\ step <$> (value <$> sessions w4 !! "alice@corp") = Some AWAITING_TIME
  /\ sessions w5 !! "alice@corp" = None
  /\ tasks w5 = [mkTask "task-17" "bob@corp" "alice@corp" (Some "Alice")
                   (Some "Adams") (Some "Fix bug") None None PENDING 30 40 40].
Proof. repeat split; vm_compute; reflexivity. Qed.

(** * Further properties of the service *)

(** ** What the handlers throw *)












(** ** The sweep and its failures *)

(** X2: a reminder sweep never throws, whatever fails inside it; and when
    the query for the due tasks itself fails, the sweep ends there: that
    query is its only call and nothing is written. *)
Theorem sweep_never_throws env now w :
  fst (startReminderChecks env now w) = Ok tt
  /\ (fails env (List.length (trace w))
        (TaskFindMany (pending_before now) false None) = true ->
      snd (startReminderChecks env now w)
      = log_call (TaskFindMany (pending_before now) false None) w).
Proof.
  split.
  - unfold startReminderChecks.
    destruct (try_catch_returns
                (bind (task_findMany env (pending_before now) false None)
                   (fun selected =>
                      for_each (fun _ task _ => remind env now task) 0%nat selected tt))
                tt w) as ([] & H).
    exact H.
  - apply sweep_refused.
Qed.

Lemma sweep_never_throws_witness :
  snd (startReminderChecks repository_down 1000 (idle [sample_task "t1" PENDING 0]))
  = log_call (TaskFindMany (pending_before 1000) false None)
      (idle [sample_task "t1" PENDING 0]).
Proof.
  apply (proj2 (sweep_never_throws repository_down 1000
                  (idle [sample_task "t1" PENDING 0]))).
  reflexivity.
Defined.

(** ** The user table *)

#[local] Instance users_grow_preorder : PreOrder users_grow.
Proof.
  split.
  - intros w. split; [exists []; symmetry; apply app_nil_r|auto].
  - intros a b c [[l1 E1] N1] [[l2 E2] N2]. split; [|auto].
    exists (l1 ++ l2)%list. rewrite E2, E1. symmetry. apply app_assoc.
Qed.

Lemma find_user_absent vk us :
  find_user vk us = None -> vk ∉ map vkId us.
Proof.
  unfold find_user. intros H Hin.
  apply list_elem_of_In, in_map_iff in Hin as (u & Hu & Hin).
  apply (List.find_none _ _ H) in Hin. rewrite Hu, String.eqb_refl in Hin.
  discriminate.
Qed.

Lemma user_upsert_grows env vk a b : Keeps users_grow (user_upsert env vk a b).
Proof.
  apply keeps_call; [typeclasses eauto| |].
  - intros w. split; [exists []; symmetry; apply app_nil_r|auto].
  - intros w. destruct (find_user vk (users w)) eqn:Hfind; simpl; [reflexivity|].
    split; [eexists; reflexivity|].
    intros Hnd. cbn [users set_users log_call]. rewrite map_app. simpl.
    apply NoDup_app.
    split; [exact Hnd|]. split; [|apply NoDup_singleton].
    intros x Hx Hx'. apply list_elem_of_singleton in Hx'. subst x.
    exact (find_user_absent _ _ Hfind Hx).
Qed.

Ltac users_same := first [reflexivity | split; [exists []; symmetry; apply app_nil_r|auto]].

Ltac users_auto :=
  keeps_structure;
  first
    [ apply user_upsert_grows
    | unfold redis_get, redis_set, redis_del, user_findUnique,
        task_findUnique, task_findMany, task_count, task_update, task_create,
        sendText, sendFile, answerCallbackQuery;
      keeps_primitive users_same ].

Lemma perform_users env a : Keeps users_grow (perform env a).
Proof.
  destruct a; simpl.
  - unfold handleMessage, on_step, on_command, report. users_auto.
  - unfold handleCallback, on_callback, decide_task, last_tasks, statistics, report.
    users_auto.
  - unfold startReminderChecks, remind, sendReminderWithButtons. users_auto.
Qed.

Lemma run_users steps w : users_grow w (run steps w).
Proof.
  revert w. induction steps as [|[env a] steps IH]; intros w; simpl.
  - reflexivity.
  - etransitivity; [apply (perform_users env a w)|apply IH].
Qed.

(** X3: one user row per chat.  If no two user rows share a [vkId], then
    after any sequence of messages, callbacks and sweeps, in any
    environments, still no two do -- however often [/start] is sent --
    and the rows that were there are still there, unchanged and in their
    places, followed by the rows added since. *)
Theorem users_stay_unique steps w :
  NoDup (map vkId (users w)) ->
  NoDup (map vkId (users (run steps w)))
  /\ exists added, users (run steps w) = (users w ++ added)%list.
Proof.
  intros Hnd. destruct (run_users steps w) as [Hprefix Hkeep]. auto.
Qed.

Lemma users_stay_unique_witness :
  let steps := [(quiet, Message 10 "alice@corp" "/start" from_alice);
                (quiet, Message 20 "alice@corp" "/start again" from_alice)] in
  NoDup (map vkId (users (run steps (idle []))))
  /\ exists added, users (run steps (idle [])) = (users (idle []) ++ added)%list.
Proof.
  intros steps. apply (users_stay_unique steps (idle [])).
  apply (bool_decide_unpack _). vm_compute. exact I.
Defined.

Example start_twice_one_row :
  users (run [(quiet, Message 10 "alice@corp" "/start" from_alice);
              (quiet, Message 20 "alice@corp" "/start" from_alice)] (idle []))
  = [bob; mkUser "alice@corp" (Some "Alice") (Some "Adams")].
Proof. vm_compute. reflexivity. Qed.

(** ** One conversation does not touch another *)

#[local] Instance sessions_elsewhere_preorder chat : PreOrder (sessions_elsewhere chat).
Proof.
  split.
  - intros w other _. reflexivity.
  - intros a b c H1 H2 other Hne. rewrite (H2 other Hne). apply H1. exact Hne.
Qed.

Ltac elsewhere_fin :=
  intros ? ?; simpl;
  rewrite ?lookup_insert_ne, ?lookup_delete_ne by congruence; reflexivity.

Ltac elsewhere_auto :=
  keeps_structure;
  unfold redis_get, redis_set, redis_del, user_findUnique, user_upsert,
    task_findUnique, task_findMany, task_count, task_update, task_create,
    sendText, sendFile, answerCallbackQuery;
  keeps_primitive elsewhere_fin.

Lemma handleMessage_elsewhere env now chat body event :
  Keeps (sessions_elsewhere chat) (handleMessage env now chat body event).
Proof. unfold handleMessage, on_step, on_command, report. elsewhere_auto. Qed.

Lemma handleCallback_elsewhere env event :
  Keeps (sessions_elsewhere (cb_chatId event)) (handleCallback env event).
Proof.
  unfold handleCallback, on_callback, decide_task, last_tasks, statistics, report.
  elsewhere_auto.
Qed.

(** X4: a handler reads and writes the session of the chat the event
    came from only.  After a message from [chat], or a callback pressed in
    it, the session of every other chat is what it was -- present or
    absent, with the same step, draft and expiry -- whichever calls
    fail. *)
Theorem other_sessions_untouched env w other :
  (forall now chat body event,
      other <> chat ->
      sessions (snd (handleMessage env now chat body event w)) !! other
      = sessions w !! other)
  /\ (forall event,
         other <> cb_chatId event ->
         sessions (snd (handleCallback env event w)) !! other
         = sessions w !! other).
Proof.
  split.
  - intros now chat body event Hne.
    apply (handleMessage_elsewhere env now chat body event w other Hne).
  - intros event Hne. apply (handleCallback_elsewhere env event w other Hne).
Qed.

Lemma other_sessions_untouched_witness :
  let w := in_step AWAITING_TIME in
  sessions (snd (handleMessage quiet 10 "carol@corp" "anything" from_alice w))
    !! "alice@corp"
  = sessions w !! "alice@corp".
Proof.
  intros w.
  apply (proj1 (other_sessions_untouched quiet w "alice@corp")
           10 "carol@corp" "anything" from_alice).
  discriminate.
Defined.

(** ** Commands of an idle chat *)

Lemma handleMessage_idle env now chat body event w :
  sessions w !! chat = None ->
  fails env (List.length (trace w)) (RedisGet chat) = false ->
  handleMessage env now chat body event w
  = bind (on_command env chat body event)
      (fun reply =>
         sendText env chat (fst reply)
           (if (List.length (snd reply) =? 0)%nat then None else Some (snd reply)))
      (log_call (RedisGet chat) w).
Proof.
  intros Hs Hget. unfold handleMessage. unfold bind at 1. unfold redis_get, call.
  rewrite Hget. cbn [fst snd]. simpl sessions. rewrite Hs. reflexivity.
Qed.

(** X5: what an idle chat gets for its text.  The first word decides.
    [/start] deletes nothing that exists, makes sure the sender has a user
    row (adding one with the sender's names only when none has the chat's
    id) and sends the welcome text with the button grid; when the upsert
    fails the handler throws and no reply is sent.  Any other text is
    answered with the help text ([/help]) or the unknown-command text and
    leaves users, tasks and sessions as they were. *)
Theorem idle_commands env now chat body event w :
  sessions w !! chat = None ->
  (forall k, fails env k (RedisGet chat) = false) ->
  let handler := handleMessage env now chat body event in
  let command := List.hd "" (JS.split " " body) in
  let upsert := UserUpsert chat (m_firstName event) (m_lastName event) in
  (command = "/start" ->
   (forall k, fails env k (RedisDel chat) = false) ->
   ((forall k, fails env k upsert = false) ->
    emitted handler w
    = [RedisGet chat; RedisDel chat; upsert;
       SendText chat msg_welcome (Some welcome_keyboard)]
    /\ users (snd (handler w))
       = match find_user chat (users w) with
         | Some _ => users w
         | None =>
             (users w ++ [mkUser chat (m_firstName event) (m_lastName event)])%list
         end
    /\ tasks (snd (handler w)) = tasks w
    /\ sessions (snd (handler w)) = sessions w)
   /\ ((forall k, fails env k upsert = true) ->
       handler w
       = (Throw (CallFailed upsert),
          mkWorld (users w) (tasks w) (sessions w)
            (trace w ++ [RedisGet chat; RedisDel chat; upsert]))))
  /\ (command <> "/start" ->
      emitted handler w
      = [RedisGet chat;
         SendText chat (if String.eqb command "/help" then msg_help else msg_unknown)
           None]
      /\ users (snd (handler w)) = users w
      /\ tasks (snd (handler w)) = tasks w
      /\ sessions (snd (handler w)) = sessions w).
Proof.
  intros Hs Hget handler command upsert.
  assert (E := handleMessage_idle env now chat body event w Hs (Hget _)).
  fold handler in E. unfold on_command in E. fold command in E.
  split.
  - intros Hc Hdel. rewrite Hc in E. simpl in E.
    unfold bind, redis_del, user_upsert, sendText, call in E.
    rewrite Hdel in E. fold upsert in E. simpl in E.
    assert (Hgone : delete chat (sessions w) = sessions w)
      by (apply delete_id; exact Hs).
    split.
    + intros Hup. rewrite Hup in E. simpl in E.
      assert (E' : snd (handler w)
                   = mkWorld
                       match find_user chat (users w) with
                       | Some _ => users w
                       | None =>
                           users w ++
                           [mkUser chat (m_firstName event) (m_lastName event)]
                       end
                       (tasks w) (sessions w)
                       (trace w ++ [RedisGet chat; RedisDel chat; upsert;
                                    SendText chat msg_welcome (Some welcome_keyboard)])).
      { rewrite E. destruct (find_user chat (users w)); simpl;
          destruct (fails env _ (SendText _ _ _)); simpl;
          expose_world; rewrite Hgone; reflexivity. }
      rewrite (emitted_after _ _ _ _ _ _ E'). rewrite E'. simpl. auto.
    + intros Hup. rewrite Hup in E. simpl in E. rewrite E.
      expose_world. rewrite Hgone. reflexivity.
  - intros Hc. apply String.eqb_neq in Hc. rewrite Hc in E.
    assert (E' : snd (handler w)
                 = mkWorld (users w) (tasks w) (sessions w)
                     (trace w ++
                      [RedisGet chat;
                       SendText chat
                         (if String.eqb command "/help" then msg_help else msg_unknown)
                         None])).
    { rewrite E. destruct (String.eqb command "/help"); simpl;
        unfold bind, sendText, call; simpl;
        destruct (fails env _ (SendText _ _ _)); simpl;
        expose_world; reflexivity. }
    rewrite (emitted_after _ _ _ _ _ _ E'). rewrite E'. simpl. auto.
Qed.

Lemma idle_commands_witness :
  let handler := handleMessage quiet 10 "alice@corp" "/help me" from_alice in
  emitted handler (idle [])
  = [RedisGet "alice@corp"; SendText "alice@corp" msg_help None]
  /\ users (snd (handler (idle []))) = users (idle [])
  /\ tasks (snd (handler (idle []))) = tasks (idle [])
  /\ sessions (snd (handler (idle []))) = sessions (idle []).
Proof.
  intros handler.
  refine (proj2 (idle_commands quiet 10 "alice@corp" "/help me" from_alice (idle [])
                   _ _) _).
  - reflexivity.
  - intros k. reflexivity.
  - discriminate.
Defined.

(** ** The steps of the creation flow *)

Lemma step_description env now chat body event w entry :
  sessions w !! chat = Some entry ->
  step (value entry) = AWAITING_DESCRIPTION ->
  (forall k, fails env k (RedisGet chat) = false) ->
  let v := mkSession AWAITING_USER_ID
             (attach (find_file event) (describe body event (taskData (value entry)))) in
  (forall k, fails env k (RedisSet chat v (Some 3600)) = false) ->
  snd (handleMessage env now chat body event w)
  = mkWorld (users w) (tasks w) (<[chat := mkEntry v (Some 3600)]> (sessions w))
      (trace w ++ [RedisGet chat; RedisSet chat v (Some 3600);
                   SendText chat msg_ask_contact None]).
Proof.
  intros Hs Hstep Hget v Hset.
  assert (E := handleMessage_replies env now chat body event w entry msg_ask_contact
                 (set_sessions (<[chat := mkEntry v (Some 3600)]> (sessions w))
                    (log_call (RedisSet chat v (Some 3600))
                       (log_call (RedisGet chat) w))) Hs Hget).
  unfold on_step in E. rewrite Hstep in E. fold v in E.
  unfold bind, redis_set, call in E. rewrite Hset in E.
  rewrite (E eq_refl). expose_world. reflexivity.
Qed.

Lemma step_assignee env now chat body event w entry u :
  sessions w !! chat = Some entry ->
  step (value entry) = AWAITING_USER_ID ->
  (forall k, fails env k (RedisGet chat) = false) ->
  bad_contact (contact_of body) = false ->
  (forall k, fails env k (UserFindUnique (contact_of body)) = false) ->
  find_user (contact_of body) (users w) = Some u ->
  let v := mkSession AWAITING_TIME
             (attach (find_file event) (assign (contact_of body) (taskData (value entry)))) in
  (forall k, fails env k (RedisSet chat v (Some 3600)) = false) ->
  snd (handleMessage env now chat body event w)
  = mkWorld (users w) (tasks w) (<[chat := mkEntry v (Some 3600)]> (sessions w))
      (trace w ++ [RedisGet chat; UserFindUnique (contact_of body);
                   RedisSet chat v (Some 3600);
                   SendText chat msg_ask_interval None]).
Proof.
  intros Hs Hstep Hget Hgood Hfind Hu v Hset.
  assert (E := handleMessage_replies env now chat body event w entry msg_ask_interval
                 (set_sessions (<[chat := mkEntry v (Some 3600)]> (sessions w))
                    (log_call (RedisSet chat v (Some 3600))
                       (log_call (UserFindUnique (contact_of body))
                          (log_call (RedisGet chat) w)))) Hs Hget).
  unfold on_step in E. rewrite Hstep, Hgood in E. fold v in E.
  unfold bind, try_catch, user_findUnique, redis_set, call in E.
  rewrite Hfind in E. simpl in E. rewrite Hu in E. rewrite Hset in E.
  rewrite (E eq_refl). expose_world. reflexivity.
Qed.

Lemma step_unknown_assignee env now chat body event w entry :
  sessions w !! chat = Some entry ->
  step (value entry) = AWAITING_USER_ID
  \/ step (value entry) = AWAITING_USER_ID_FOR_TASKS ->
  (forall k, fails env k (RedisGet chat) = false) ->
  bad_contact (contact_of body) = false ->
  (forall k, fails env k (UserFindUnique (contact_of body)) = false) ->
  find_user (contact_of body) (users w) = None ->
  snd (handleMessage env now chat body event w)
  = mkWorld (users w) (tasks w) (sessions w)
      (trace w ++ [RedisGet chat; UserFindUnique (contact_of body);
                   SendText chat msg_no_user None]).
Proof.
  intros Hs Hstep Hget Hgood Hfind Hu.
  assert (E := handleMessage_replies env now chat body event w entry msg_no_user
                 (log_call (UserFindUnique (contact_of body))
                    (log_call (RedisGet chat) w)) Hs Hget).
  unfold on_step in E.
  destruct Hstep as [Hstep|Hstep]; rewrite Hstep, Hgood in E;
    unfold bind, try_catch, user_findUnique, call in E;
    rewrite Hfind in E; simpl in E; rewrite Hu in E;
    rewrite (E eq_refl); expose_world; reflexivity.
Qed.



(** X6: the step [AWAITING_DESCRIPTION] accepts any text.  The text
    becomes the description of the draft, the sender's names become its
    creator names, a file part of the message replaces the draft's file
    and caption (otherwise they stay), the assignee stays; the session is
    rewritten at [AWAITING_USER_ID] with an expiry of 3600 seconds and
    the reply asks for a contact.  If the session cannot be written the
    handler throws: no reply is sent and the session is as before. *)
Theorem description_step env now chat body event w entry :
  sessions w !! chat = Some entry ->
  step (value entry) = AWAITING_DESCRIPTION ->
  (forall k, fails env k (RedisGet chat) = false) ->
  let handler := handleMessage env now chat body event in
  let old := taskData (value entry) in
  let td := attach (find_file event) (describe body event old) in
  let set := RedisSet chat (mkSession AWAITING_USER_ID td) (Some 3600) in
  (td_description td = Some body
   /\ td_firstName td = m_firstName event /\ td_lastName td = m_lastName event
   /\ td_userId td = td_userId old
   /\ match find_file event with
      | Some f => td_fileId td = f_fileId f /\ td_fileCaption td = f_caption f
      | None => td_fileId td = td_fileId old /\ td_fileCaption td = td_fileCaption old
      end)
  /\ ((forall k, fails env k set = false) ->
      emitted handler w = [RedisGet chat; set; SendText chat msg_ask_contact None]
      /\ sessions (snd (handler w))
         = <[chat := mkEntry (mkSession AWAITING_USER_ID td) (Some 3600)]> (sessions w)
      /\ users (snd (handler w)) = users w
      /\ tasks (snd (handler w)) = tasks w)
  /\ ((forall k, fails env k set = true) ->
      handler w
      = (Throw (CallFailed set),
         mkWorld (users w) (tasks w) (sessions w) (trace w ++ [RedisGet chat; set]))).
Proof.
  intros Hs Hstep Hget handler old td set. split; [|split].
  - unfold td, attach, describe.
    destruct (find_file event); simpl; repeat split; reflexivity.
  - intros Hset.
    pose proof (step_description env now chat body event w entry Hs Hstep Hget Hset)
      as E.
    fold handler old td set in E.
    rewrite (emitted_after _ _ _ _ _ _ E). rewrite E. simpl. auto.
  - intros Hset.
    assert (E := handleMessage_in_session env now chat body event w entry Hs Hget).
    fold handler in E. unfold on_step in E. rewrite Hstep in E.
    fold old td set in E. unfold bind, redis_set, call in E.
    fold set in E. rewrite Hset in E. rewrite E. expose_world. reflexivity.
Qed.

Lemma description_step_witness :
  let handler := handleMessage quiet 10 "alice@corp" "/help" from_alice in
  let w := in_step AWAITING_DESCRIPTION in
  let td := attach (find_file from_alice) (describe "/help" from_alice draft) in
  let set := RedisSet "alice@corp" (mkSession AWAITING_USER_ID td) (Some 3600) in
  emitted handler w = [RedisGet "alice@corp"; set;
                       SendText "alice@corp" msg_ask_contact None]
  /\ sessions (snd (handler w))
     = <["alice@corp" := mkEntry (mkSession AWAITING_USER_ID td) (Some 3600)]>
         (sessions w)
  /\ users (snd (handler w)) = users w
  /\ tasks (snd (handler w)) = tasks w.
Proof.
  intros handler w td set.
  refine (proj1 (proj2 (description_step quiet 10 "alice@corp" "/help" from_alice w
                          (mkEntry (mkSession AWAITING_DESCRIPTION draft) (Some 3600))
                          _ _ _)) _).
  - reflexivity.
  - reflexivity.
  - intros k. reflexivity.
  - intros k. reflexivity.
Defined.

(** X7: the step [AWAITING_USER_ID] with a well-formed contact whose
    lookup succeeds.  If no user row has the contact's id, the reply says
    so and nothing changes: the chat stays at [AWAITING_USER_ID] and may
    send another contact.  If one has, the contact becomes the draft's
    assignee (a file part of the message replacing the draft's file), the
    session is rewritten at [AWAITING_TIME] with an expiry of 3600
    seconds and the reply asks for the interval. *)
Theorem assignee_step env now chat body event w entry :
  sessions w !! chat = Some entry ->
  step (value entry) = AWAITING_USER_ID ->
  (forall k, fails env k (RedisGet chat) = false) ->
  bad_contact (contact_of body) = false ->
  (forall k, fails env k (UserFindUnique (contact_of body)) = false) ->
  let handler := handleMessage env now chat body event in
  let contact := contact_of body in
  let td := attach (find_file event) (assign contact (taskData (value entry))) in
  let set := RedisSet chat (mkSession AWAITING_TIME td) (Some 3600) in
  (find_user contact (users w) = None ->
   emitted handler w
   = [RedisGet chat; UserFindUnique contact; SendText chat msg_no_user None]
   /\ sessions (snd (handler w)) = sessions w
   /\ users (snd (handler w)) = users w
   /\ tasks (snd (handler w)) = tasks w)
  /\ (find_user contact (users w) <> None ->
      (forall k, fails env k set = false) ->
      td_userId td = Some contact
      /\ td_description td = td_description (taskData (value entry))
      /\ emitted handler w
         = [RedisGet chat; UserFindUnique contact; set;
            SendText chat msg_ask_interval None]
      /\ sessions (snd (handler w))
         = <[chat := mkEntry (mkSession AWAITING_TIME td) (Some 3600)]> (sessions w)
      /\ users (snd (handler w)) = users w
      /\ tasks (snd (handler w)) = tasks w).
Proof.
  intros Hs Hstep Hget Hgood Hfind handler contact td set. split.
  - intros Hnone.
    pose proof (step_unknown_assignee env now chat body event w entry Hs
                  (or_introl Hstep) Hget Hgood Hfind Hnone) as E.
    fold handler contact in E.
    rewrite (emitted_after _ _ _ _ _ _ E). rewrite E. simpl. auto.
  - intros Hsome Hset.
    destruct (find_user contact (users w)) as [u|] eqn:Hu; [|congruence].
    pose proof (step_assignee env now chat body event w entry u Hs Hstep Hget Hgood
                  Hfind Hu Hset) as E.
    fold handler contact td set in E.
    rewrite (emitted_after _ _ _ _ _ _ E). rewrite E. simpl.
    split; [|split]; [| |auto].
    + unfold td, attach, assign. destruct (find_file event); reflexivity.
    + unfold td, attach, assign. destruct (find_file event); reflexivity.
Qed.

Lemma assignee_step_witness :
  let handler := handleMessage quiet 10 "alice@corp" "https://u/profile/carol@corp"
                   from_alice in
  let w := in_step AWAITING_USER_ID in
  emitted handler w
  = [RedisGet "alice@corp"; UserFindUnique "carol@corp";
     SendText "alice@corp" msg_no_user None]
  /\ sessions (snd (handler w)) = sessions w
  /\ users (snd (handler w)) = users w
  /\ tasks (snd (handler w)) = tasks w.
Proof.
  intros handler w.
  refine (proj1 (assignee_step quiet 10 "alice@corp" "https://u/profile/carol@corp"
                   from_alice w
                   (mkEntry (mkSession AWAITING_USER_ID draft) (Some 3600))
                   _ _ _ _ _) _).
  - reflexivity.
  - reflexivity.
  - intros k. reflexivity.
  - reflexivity.
  - intros k. reflexivity.
  - reflexivity.
Defined.



(** ** Deciding a task *)

Lemma prefix_split p s : String.prefix p s = true -> exists r, s = p +:+ r.
Proof.
  revert s. induction p as [|a p IH]; intros s.
  - intros _. exists s. reflexivity.
  - destruct s as [|b s]; simpl; [discriminate|].
    destruct (ascii_dec a b) as [->|]; [|discriminate].
    intros H. destruct (IH s H) as [r ->]. exists r. reflexivity.
Qed.

Lemma prefix_append p r : String.prefix p (p +:+ r) = true.
Proof.
  induction p as [|a p IH].
  - destruct r; reflexivity.
  - change (String a p +:+ r) with (String a (p +:+ r)). simpl.
    destruct (ascii_dec a a); [exact IH|congruence].
Qed.

Lemma split_approve r : JS.split "_" ("approve_" +:+ r) = "approve" :: JS.split "_" r.
Proof. reflexivity. Qed.

Lemma split_reject r : JS.split "_" ("reject_" +:+ r) = "reject" :: JS.split "_" r.
Proof. reflexivity. Qed.

Lemma decision_cases data :
  is_decision data = true ->
  exists r,
    (data = "approve_" +:+ r \/ data = "reject_" +:+ r)
    /\ decided_task data = List.hd "" (JS.split "_" r)
    /\ String.eqb (List.nth 0 (JS.split "_" data) "") "approve"
       = JS.startsWith "approve_" data.
Proof.
  unfold is_decision, decided_task, JS.startsWith. intros H.
  apply orb_true_iff in H as [H|H]; apply prefix_split in H as [r ->]; exists r.
  - rewrite split_approve. split; [auto|]. split.
    + simpl. destruct (JS.split "_" r); reflexivity.
    + rewrite prefix_append. reflexivity.
  - rewrite split_reject. split; [auto|]. split.
    + simpl. destruct (JS.split "_" r); reflexivity.
    + reflexivity.
Qed.

Lemma update_task_length tid p ts :
  List.length (update_task tid p ts) = List.length ts.
Proof.
  induction ts as [|t ts IH]; simpl; [reflexivity|].
  destruct (String.eqb (id t) tid); simpl; [reflexivity|]. rewrite IH. reflexivity.
Qed.

(** X9: a decision on a pending task.  When the pressed button names a
    task whose row is [PENDING] and the session read, the lookup and the
    update succeed, the row gets the status [APPROVED] for [approve_...]
    and [REJECTED] for [reject_...], and nothing else in it changes; the
    rows of all other ids, the number of rows, users and sessions are as
    before; the callback is acknowledged and, if that succeeds, the reply
    is the matching success text.  When instead the update fails, the
    task stays [PENDING] and the reply is the generic error. *)
Theorem decision_on_pending env event w t :
  is_decision (cb_data event) = true ->
  let tid := decided_task (cb_data event) in
  let chat := cb_chatId event in
  let approve := JS.startsWith "approve_" (cb_data event) in
  let s := if approve then APPROVED else REJECTED in
  let get := RedisGet chat in
  let find := TaskFindUnique tid in
  let update := TaskUpdate tid (SetStatus s) in
  let ack := AnswerCallbackQuery (cb_queryId event) msg_ack in
  let handler := handleCallback env event in
  find_task tid (tasks w) = Some t ->
  status t = PENDING ->
  (forall k, fails env k get = false) ->
  (forall k, fails env k find = false) ->
  (forall k, fails env k ack = false) ->
  ((forall k, fails env k update = false) ->
   emitted handler w
   = [get; find; update; ack;
      SendText chat (if approve then msg_approved else msg_rejected) None]
   /\ tasks (snd (handler w)) = update_task tid (SetStatus s) (tasks w)
   /\ find_task tid (tasks (snd (handler w))) = Some (patch_task (SetStatus s) t)
   /\ (forall other, other <> tid ->
         find_task other (tasks (snd (handler w))) = find_task other (tasks w))
   /\ List.length (tasks (snd (handler w))) = List.length (tasks w)
   /\ users (snd (handler w)) = users w
   /\ sessions (snd (handler w)) = sessions w)
  /\ ((forall k, fails env k update = true) ->
      emitted handler w = [get; find; update; ack; SendText chat msg_task_error None]
      /\ tasks (snd (handler w)) = tasks w).
Proof.
  intros Hd tid chat approve s get find update ack handler Hfind Hst Hget Hf Hack.
  destruct (decision_cases _ Hd) as (r & _ & _ & Haction).
  assert (E := handleCallback_after_get env event w (Hget _)).
  fold handler chat get in E. rewrite (on_callback_decision _ _ Hd) in E.
  unfold decide_task in E. fold (decided_task (cb_data event)) in E. fold tid in E.
  rewrite Haction in E. fold approve s in E.
  unfold bind, try_catch, task_findUnique, task_update, answerCallbackQuery,
    sendText, call in E.
  fold find update ack in E. rewrite Hf in E. simpl in E. rewrite Hfind, Hst in E.
  split.
  - intros Hup. rewrite Hup in E. simpl in E. rewrite Hfind in E. simpl in E.
    rewrite Hack in E. simpl in E.
    assert (E' : snd (handler w)
                 = mkWorld (users w) (update_task tid (SetStatus s) (tasks w))
                     (sessions w)
                     (trace w ++
                      [get; find; update; ack;
                       SendText chat (if approve then msg_approved else msg_rejected)
                         None])).
    { rewrite E. destruct (fails env _ (SendText _ _ _)); simpl;
        expose_world; reflexivity. }
    rewrite (emitted_after _ _ _ _ _ _ E'). rewrite E'. cbn [tasks users sessions].
    split; [reflexivity|]. split; [reflexivity|].
    split; [apply find_update_same; exact Hfind|].
    split; [intros other Hne; apply find_update_other; congruence|].
    split; [apply update_task_length|auto].
  - intros Hup. rewrite Hup in E. simpl in E. rewrite Hack in E. simpl in E.
    assert (E' : snd (handler w)
                 = mkWorld (users w) (tasks w) (sessions w)
                     (trace w ++ [get; find; update; ack;
                                  SendText chat msg_task_error None])).
    { rewrite E. destruct (fails env _ (SendText _ _ _)); simpl;
        expose_world; reflexivity. }
    rewrite (emitted_after _ _ _ _ _ _ E'). rewrite E'. auto.
Qed.

Lemma decision_on_pending_witness :
  let w := idle [sample_task "t1" PENDING 0; sample_task "t2" PENDING 0] in
  let handler := handleCallback quiet (press "reject_t2") in
  emitted handler w
  = [RedisGet "alice@corp"; TaskFindUnique "t2";
     TaskUpdate "t2" (SetStatus REJECTED);
     AnswerCallbackQuery "query-1" msg_ack;
     SendText "alice@corp" msg_rejected None]
  /\ tasks (snd (handler w)) = update_task "t2" (SetStatus REJECTED) (tasks w)
  /\ find_task "t2" (tasks (snd (handler w)))
     = Some (patch_task (SetStatus REJECTED) (sample_task "t2" PENDING 0))
  /\ (forall other, other <> "t2" ->
        find_task other (tasks (snd (handler w))) = find_task other (tasks w))
  /\ List.length (tasks (snd (handler w))) = List.length (tasks w)
  /\ users (snd (handler w)) = users w
  /\ sessions (snd (handler w)) = sessions w.
Proof.
  intros w handler.
  refine (proj1 (decision_on_pending quiet (press "reject_t2") w
                   (sample_task "t2" PENDING 0) _ _ _ _ _ _) _).
  - reflexivity.
  - reflexivity.
  - reflexivity.
  - intros k. reflexivity.
  - intros k. reflexivity.
  - intros k. reflexivity.
  - intros k. reflexivity.
Defined.

Lemma first_segment_clean sep s :
  JS.includes sep (List.hd "" (JS.split sep s)) = false.
Proof.
  induction s as [|c s IH]; simpl; [reflexivity|].
  destruct (Ascii.eqb c sep) eqn:Hc; [reflexivity|].
  destruct (JS.split sep s) as [|seg rest]; simpl in *;
    rewrite Hc; [reflexivity|exact IH].
Qed.

(** X10: the buttons under a reminder and the handler that reads them.
    Both buttons of the keyboard sent for task [tid] carry data the
    callback handler takes as a decision, the first as an approval and
    the second as a rejection, and the task it then looks up is the part
    of [tid] before its first ['_'].  So the buttons lead back to the task
    they were sent for exactly when its identifier has no underscore (as
    the generated UUIDs have none); with an underscore the handler looks
    up a different, shorter identifier. *)
Theorem reminder_buttons_round_trip tid :
  let approve := "approve_" +:+ tid in
  let reject := "reject_" +:+ tid in
  List.map callbackData (List.concat (reminder_keyboard tid)) = [approve; reject]
  /\ is_decision approve = true /\ is_decision reject = true
  /\ JS.startsWith "approve_" approve = true
  /\ JS.startsWith "approve_" reject = false
  /\ decided_task approve = List.hd "" (JS.split "_" tid)
  /\ decided_task reject = List.hd "" (JS.split "_" tid)
  /\ (JS.includes "_" tid = false -> decided_task approve = tid /\ decided_task reject = tid)
  /\ (JS.includes "_" tid = true -> decided_task approve <> tid /\ decided_task reject <> tid).
Proof.
  intros approve reject.
  assert (Ha : decided_task approve = List.hd "" (JS.split "_" tid)).
  { unfold decided_task, approve. rewrite split_approve. simpl.
    destruct (JS.split "_" tid); reflexivity. }
  assert (Hr : decided_task reject = List.hd "" (JS.split "_" tid)).
  { unfold decided_task, reject. rewrite split_reject. simpl.
    destruct (JS.split "_" tid); reflexivity. }
  assert (Hpa : JS.startsWith "approve_" approve = true) by apply prefix_append.
  assert (Hpr : JS.startsWith "reject_" reject = true) by apply prefix_append.
  split; [reflexivity|].
  split; [unfold is_decision; rewrite Hpa; reflexivity|].
  split; [unfold is_decision; rewrite Hpr; apply orb_true_r|].
  split; [exact Hpa|]. split; [reflexivity|].
  split; [exact Ha|]. split; [exact Hr|]. split.
  - intros Hno. rewrite Ha, Hr. rewrite (split_without _ _ Hno). auto.
  - intros Hyes. rewrite Ha, Hr.
    assert (Hne : List.hd "" (JS.split "_" tid) <> tid).
    { intros Heq. pose proof (first_segment_clean "_" tid) as Hc.
      rewrite Heq in Hc. congruence. }
    auto.
Qed.

Lemma reminder_buttons_round_trip_witness :
  decided_task ("approve_" +:+ "6f1c-22") = "6f1c-22"
  /\ decided_task ("reject_" +:+ "6f1c-22") = "6f1c-22".
Proof.
  apply (proj1 (proj2 (proj2 (proj2 (proj2 (proj2 (proj2 (proj2
           (reminder_buttons_round_trip "6f1c-22"))))))))).
  reflexivity.
Defined.

(** ** Which tasks a sweep reminds *)

Lemma sweep_unselected env now w tid t :
  NoDup (map id (tasks w)) ->
  find_task tid (tasks w) = Some t ->
  matches (pending_before now) t = false ->
  untouched tid w (snd (startReminderChecks env now w)).
Proof.
  intros Hnd Hfind Hno.
  set (c := TaskFindMany (pending_before now) false None).
  assert (Hlog : untouched tid w (log_call c w)).
  { split; [reflexivity|]. exists [c]. split; [reflexivity|repeat constructor]. }
  destruct (fails env (List.length (trace w)) c) eqn:Hc.
  - rewrite (sweep_refused env now w Hc). exact Hlog.
  - rewrite (sweep_selected env now w Hc). fold c.
    etransitivity; [exact Hlog|].
    apply reminders_untouched.
    apply List.Forall_forall. intros u Hu Heq.
    apply List.filter_In in Hu as [Hin Hm].
    pose proof (find_unique _ _ Hnd Hin) as Hfu. rewrite Heq, Hfind in Hfu.
    injection Hfu as <-. congruence.
Qed.

Lemma decided_not_selected now t :
  status t <> PENDING -> matches (pending_before now) t = false.
Proof.
  intros Hs. unfold matches, pending_before. simpl.
  destruct (status t); [congruence|reflexivity..].
Qed.

Lemma run_sweeps_decided sweeps w tid t :
  NoDup (map id (tasks w)) ->
  find_task tid (tasks w) = Some t ->
  status t <> PENDING ->
  untouched tid w (run_sweeps sweeps w).
Proof.
  intros Hnd Hfind Hst. revert w Hnd Hfind.
  induction sweeps as [|[env now] sweeps IH]; intros w Hnd Hfind; simpl.
  - reflexivity.
  - pose proof (sweep_unselected env now w tid t Hnd Hfind
                  (decided_not_selected now t Hst)) as Hu.
    etransitivity; [exact Hu|]. apply IH.
    + rewrite sweep_keeps_ids. exact Hnd.
    + destruct Hu as [-> _]. exact Hfind.
Qed.

(** X11: only pending tasks are reminded.  With unique task ids, a task
    whose status is not [PENDING] -- approved, rejected or anything else
    -- is left alone by every sweep: through any number of sweeps, at any
    times and in any environments, no call is made about it (no lookup,
    no prompt, no update) and its row stays as it is. *)
Theorem decided_tasks_are_not_reminded sweeps w t :
  NoDup (map id (tasks w)) ->
  In t (tasks w) ->
  status t <> PENDING ->
  find_task (id t) (tasks (run_sweeps sweeps w)) = Some t
  /\ Forall (fun c => concerns (id t) c = false)
       (drop (List.length (trace w)) (trace (run_sweeps sweeps w))).
Proof.
  intros Hnd Hin Hst.
  pose proof (find_unique _ _ Hnd Hin) as Hfind.
  destruct (run_sweeps_decided sweeps w (id t) t Hnd Hfind Hst)
    as (Hsame & l & El & Fl).
  split; [rewrite Hsame; exact Hfind|].
  rewrite El, drop_app_length. exact Fl.
Qed.

Lemma decided_tasks_are_not_reminded_witness :
  let w := idle [sample_task "t1" PENDING 0; sample_task "t2" REJECTED 0] in
  let sweeps := [(quiet, 1000); (gateway_down, 500000000)] in
  find_task "t2" (tasks (run_sweeps sweeps w)) = Some (sample_task "t2" REJECTED 0)
  /\ Forall (fun c => concerns "t2" c = false)
       (drop (List.length (trace w)) (trace (run_sweeps sweeps w))).
Proof.
  intros w sweeps.
  apply (decided_tasks_are_not_reminded sweeps w (sample_task "t2" REJECTED 0)).
  - apply (bool_decide_unpack _). vm_compute. exact I.
  - right. left. reflexivity.
  - discriminate.
Defined.

Lemma remind_prompt_failed env now t w :
  find_task (id t) (tasks w) = Some t ->
  (forall k, fails env k (TaskFindUnique (id t)) = false) ->
  (forall k, fails env k (prompt_of t) = true) ->
  snd (remind env now t w)
  = mkWorld (users w) (tasks w) (sessions w)
      (trace w ++ [TaskFindUnique (id t); prompt_of t]).
Proof.
  intros Hfind Hok Hfail.
  unfold remind, sendReminderWithButtons, try_catch, bind, task_findUnique, call.
  rewrite Hok. simpl. rewrite Hfind.
  unfold prompt_of in *. unfold sendFile, sendText, call.
  destruct (JS.truthy_opt (fileId t)); rewrite Hfail; simpl;
    expose_world; reflexivity.
Qed.

(** X12: a reminder that cannot be sent is not counted.  When a sweep
    selects a task, looks it up, and the gateway refuses the prompt, the
    sweep makes no update for that task: its calls about the task are the
    lookup and the refused prompt, and the row keeps its [lastRemind].
    The task is therefore still due at every later sweep. *)
Theorem refused_prompt_is_retried env now w t :
  NoDup (map id (tasks w)) ->
  In t (tasks w) ->
  status t = PENDING ->
  lastRemind t < now ->
  fails env (List.length (trace w)) (TaskFindMany (pending_before now) false None)
  = false ->
  (forall k, fails env k (TaskFindUnique (id t)) = false) ->
  (forall k, fails env k (prompt_of t) = true) ->
  let sweep := startReminderChecks env now in
  List.filter (concerns (id t)) (emitted sweep w)
  = [TaskFindUnique (id t); prompt_of t]
  /\ find_task (id t) (tasks (snd (sweep w))) = Some t
  /\ forall later, now <= later -> matches (pending_before later) t = true.
Proof.
  intros Hnd Hin Hst Hdue Hmany Hok Hfail sweep.
  set (c := TaskFindMany (pending_before now) false None) in *.
  set (selected := List.filter (matches (pending_before now)) (tasks w)).
  assert (Ew' : snd (sweep w) = snd (reminders env now 0 selected (log_call c w))).
  { apply sweep_selected. exact Hmany. }
  assert (Hsel : In t selected).
  { apply List.filter_In. split; [exact Hin|]. apply due_selected; assumption. }
  apply in_split in Hsel as (l1 & l2 & Esel).
  assert (Hids : NoDup (map id selected)) by (apply NoDup_ids_filter; exact Hnd).
  rewrite Esel in Hids, Ew'. apply NoDup_ids_split in Hids as [H1 H2].
  rewrite reminders_app in Ew'.
  destruct (reminders_untouched env now (id t) l1 0 H1 (log_call c w))
    as (Hf1 & pre & Epre & Fpre).
  set (w1 := snd (reminders env now 0 l1 (log_call c w))) in *.
  assert (Hfind1 : find_task (id t) (tasks w1) = Some t).
  { rewrite Hf1. simpl. apply find_unique; assumption. }
  pose proof (remind_prompt_failed env now t w1 Hfind1 Hok Hfail) as E2.
  set (w2 := snd (remind env now t w1)) in *.
  destruct (reminders_untouched env now (id t) l2 (S (0 + List.length l1)) H2 w2)
    as (Hf3 & post & Epost & Fpost).
  rewrite <- Ew' in Hf3, Epost.
  split; [|split].
  - unfold emitted. rewrite Epost, E2. simpl. rewrite Epre. simpl.
    rewrite <- !app_assoc. rewrite drop_app_length. unfold c.
    rewrite !List.filter_app.
    rewrite (no_concern_filter _ _ Fpre), (no_concern_filter _ _ Fpost).
    cbn [List.filter concerns app]. rewrite !String.eqb_refl.
    unfold prompt_of. destruct (JS.truthy_opt (fileId t)); cbn [concerns];
      rewrite offers_reminder, String.eqb_refl; reflexivity.
  - rewrite Hf3, E2. simpl. exact Hfind1.
  - intros later Hl. apply due_selected; [exact Hst|lia].
Qed.

Lemma refused_prompt_is_retried_witness :
  let w := idle [sample_task "t1" PENDING 0] in
  let t := sample_task "t1" PENDING 0 in
  let sweep := startReminderChecks gateway_down 1000 in
  List.filter (concerns "t1") (emitted sweep w) = [TaskFindUnique "t1"; prompt_of t]
  /\ find_task "t1" (tasks (snd (sweep w))) = Some t
  /\ forall later, 1000 <= later -> matches (pending_before later) t = true.
Proof.
  intros w t sweep.
  apply (refused_prompt_is_retried gateway_down 1000 w t).
  - apply (bool_decide_unpack _). vm_compute. exact I.
  - left. reflexivity.
  - reflexivity.
  - reflexivity.
  - reflexivity.
  - intros k. reflexivity.
  - intros k. reflexivity.
Defined.

(** ** The event dispatcher *)

Lemma startPolling_polled env clock getEvents p :
  startPolling env clock getEvents p
  = snd (dispatch_all env clock 0 (polled getEvents p) p).
Proof.
  unfold startPolling, polled.
  destruct (getEvents (lastEventId p) pollTime) as [[[] es]|e]; simpl; try reflexivity.
  destruct es; reflexivity.
Qed.

Lemma dispatch_perform env now e a w :
  action_of now e = Some a -> dispatch env now e w = perform env a w.
Proof.
  unfold action_of, dispatch. destruct (e_body e); intros [= <-]; reflexivity.
Qed.

Lemma dispatch_other env now e w :
  action_of now e = None -> dispatch env now e w = (Ok tt, w).
Proof.
  unfold action_of, dispatch. destruct (e_body e); try discriminate. reflexivity.
Qed.

Lemma last_cons_default {A} (x : A) l d : List.last (x :: l) d = List.last l x.
Proof.
  revert x d. induction l as [|y l IH]; intros x d; [reflexivity|].
  change (List.last (y :: l) d = List.last (y :: l) x). rewrite !IH. reflexivity.
Qed.

Lemma ascending_above low ids :
  ascending low ids = true -> Forall (fun x => low < x) ids.
Proof.
  revert low. induction ids as [|x ids IH]; intros low; simpl; [constructor|].
  intros H. apply andb_true_iff in H as [Hx Hrest]. apply Z.ltb_lt in Hx.
  constructor; [exact Hx|].
  eapply Forall_impl; [apply IH; exact Hrest|]. simpl. intros; lia.
Qed.

(** The loop over a batch: what it has done when it stops. *)
Lemma dispatch_all_stops env clock es :
  forall i p,
    exists done rest,
      es = (done ++ rest)%list
      /\ world (snd (dispatch_all env clock i es p))
         = run (batch_actions env clock i (done ++ firstn 1 rest)) (world p)
      /\ lastEventId (snd (dispatch_all env clock i es p))
         = List.last (map eventId done) (lastEventId p)
      /\ dispatch_all env clock i done p
         = (Ok tt, mkPoller (List.last (map eventId done) (lastEventId p))
                     (run (batch_actions env clock i done) (world p)))
      /\ (rest = [] /\ fst (dispatch_all env clock i es p) = Ok tt
          \/ exists failing later err,
               rest = failing :: later
               /\ fst (dispatch_all env clock i es p) = Throw err
               /\ fst (dispatch env (clock (i + List.length done)%nat) failing
                         (run (batch_actions env clock i done) (world p)))
                  = Throw err).
Proof.
  induction es as [|e es IH]; intros i p.
  - exists [], []. simpl. repeat (split; [reflexivity|]).
    split; [destruct p; reflexivity|]. left. split; reflexivity.
  - simpl. destruct (dispatch env (clock i) e (world p)) as [[[]|err] w1] eqn:Hd.
    + destruct (IH (S i) (mkPoller (eventId e) w1))
        as (done & rest & -> & Hw & Hl & Hdone & Hrest).
      exists (e :: done), rest. simpl in Hw, Hl, Hdone.
      assert (Hstep : forall tail,
                 run (batch_actions env clock i (e :: tail)) (world p)
                 = run (batch_actions env clock (S i) tail) w1).
      { intros tail. simpl. destruct (action_of (clock i) e) as [a|] eqn:Ha.
        - rewrite (dispatch_perform _ _ _ _ _ Ha) in Hd.
          simpl. rewrite Hd. reflexivity.
        - rewrite (dispatch_other _ _ _ _ Ha) in Hd. injection Hd as <-.
          reflexivity. }
      split; [reflexivity|]. split; [rewrite <- app_comm_cons, Hstep; exact Hw|].
      split; [simpl map; rewrite last_cons_default; exact Hl|].
      split.
      { simpl dispatch_all. rewrite Hd. simpl map. rewrite last_cons_default, Hstep.
        exact Hdone. }
      destruct Hrest as [[-> Hok]|(failing & later & err & -> & Hthrow & Hfail)].
      * left. auto.
      * right. exists failing, later, err. split; [reflexivity|].
        split; [exact Hthrow|]. rewrite Hstep. simpl List.length.
        rewrite Nat.add_succ_r. exact Hfail.
    + exists [], (e :: es). simpl.
      split; [reflexivity|]. split.
      * destruct (action_of (clock i) e) as [a|] eqn:Ha.
        -- rewrite (dispatch_perform _ _ _ _ _ Ha) in Hd. simpl. rewrite Hd.
           reflexivity.
        -- rewrite (dispatch_other _ _ _ _ Ha) in Hd. discriminate.
      * split; [reflexivity|]. split; [destruct p; reflexivity|].
        right. exists e, es, err. rewrite Nat.add_0_r, Hd. auto.
Qed.

Lemma Forall_ids (P : Z -> Prop) es :
  Forall P (map eventId es) -> Forall (fun e => P (eventId e)) es.
Proof.
  induction es as [|e es IH]; simpl; intros H; [constructor|].
  apply List.Forall_cons_iff in H as [He H]. constructor; auto.
Qed.



Lemma ascending_split low l1 l2 :
  ascending low (l1 ++ l2) = true ->
  low <= List.last l1 low
  /\ Forall (fun x => x <= List.last l1 low) l1
  /\ Forall (fun x => List.last l1 low < x) l2.
Proof.
  revert low. induction l1 as [|x l1 IH]; intros low H.
  - simpl. split; [lia|]. split; [constructor|]. apply ascending_above. exact H.
  - simpl in H. apply andb_true_iff in H as [Hx Hrest]. apply Z.ltb_lt in Hx.
    destruct (IH x Hrest) as (Hle & Hl1 & Hl2).
    rewrite last_cons_default. split; [lia|]. split; [|exact Hl2].
    constructor; [exact Hle|exact Hl1].
Qed.

(** X14: the watermark and redelivery.  When the ids of the polled
    batch ascend from the watermark, a tick never moves the watermark
    back, and it splits the batch in two: the events up to the new
    watermark, every one of which was handled without a throw, and the
    events above it, which are either none or begin with the event whose
    handler threw.  So a poll from the new watermark asks again for
    exactly the events that were not completed, the one that threw
    included. *)
Theorem watermark_splits_the_batch env clock getEvents p :
  let p' := startPolling env clock getEvents p in
  let batch := polled getEvents p in
  ascending (lastEventId p) (map eventId batch) = true ->
  lastEventId p <= lastEventId p'
  /\ exists done rest,
       batch = (done ++ rest)%list
       /\ Forall (fun e => eventId e <= lastEventId p') done
       /\ Forall (fun e => lastEventId p' < eventId e) rest
       /\ dispatch_all env clock 0 done p
          = (Ok tt, mkPoller (List.last (map eventId done) (lastEventId p))
                      (run (batch_actions env clock 0 done) (world p)))
       /\ (rest = []
           \/ exists failing later err,
                rest = failing :: later
                /\ fst (dispatch env (clock (List.length done)) failing
                          (run (batch_actions env clock 0 done) (world p)))
                   = Throw err).
Proof.
  intros p' batch Hasc. unfold p'. rewrite startPolling_polled. fold batch.
  destruct (dispatch_all_stops env clock batch 0%nat p)
    as (done & rest & E & Hw & Hl & Hdone & Hrest).
  rewrite E, map_app in Hasc.
  destruct (ascending_split _ _ _ Hasc) as (Hle & Hbelow & Habove).
  rewrite Hl. split; [exact Hle|].
  exists done, rest. split; [exact E|].
  split; [apply Forall_ids in Hbelow; exact Hbelow|].
  split; [apply Forall_ids in Habove; exact Habove|].
  split; [exact Hdone|].
  destruct Hrest as [[-> _]|(failing & later & err & -> & _ & Hfail)]; [auto|].
  right. exists failing, later, err. auto.
Qed.

Lemma watermark_splits_the_batch_witness :
  let batch := [mkEvent 8 (OtherEvent "editedMessage");
                mkEvent 9 (NewMessage "alice@corp" "/help" from_alice);
                mkEvent 12 (CallbackQuery (press "watch_tasks"))] in
  let getEvents := fun (_ : Z) (_ : nat) => Ok (mkEvents true batch) in
  let p := mkPoller 7 (idle []) in
  7 <= lastEventId (startPolling gateway_down (fun _ => 0) getEvents p).
Proof.
  intros batch getEvents p.
  apply (proj1 (watermark_splits_the_batch gateway_down (fun _ => 0) getEvents p
                  eq_refl)).
Defined.

Example tick_stops_at_the_throw :
  let batch := [mkEvent 8 (OtherEvent "editedMessage");
                mkEvent 9 (NewMessage "alice@corp" "/help" from_alice);
                mkEvent 12 (CallbackQuery (press "watch_tasks"))] in
  let getEvents := fun (_ : Z) (_ : nat) => Ok (mkEvents true batch) in
  let p' := startPolling gateway_down (fun _ => 0) getEvents (mkPoller 7 (idle [])) in
  lastEventId p' = 8
  /\ trace (world p') = [RedisGet "alice@corp"; SendText "alice@corp" msg_help None].
Proof. split; vm_compute; reflexivity. Qed.

(** ** The two timers together *)

Lemma tick_is_a_run t p :
  exists steps, world (tick t p) = run steps (world p).
Proof.
  destruct t as [env clock getEvents|env now]; simpl.
  - rewrite startPolling_polled.
    destruct (dispatch_all_stops env clock (polled getEvents p) 0%nat p)
      as (done & rest & _ & Hw & _).
    eexists. exact Hw.
  - exists [(env, Sweep now)]. reflexivity.
Qed.

Lemma run_app steps1 steps2 w : run (steps1 ++ steps2) w = run steps2 (run steps1 w).
Proof. unfold run. apply fold_left_app. Qed.

Lemma run_service_is_a_run ticks p :
  exists steps, world (run_service ticks p) = run steps (world p).
Proof.
  revert p. induction ticks as [|t ticks IH]; intros p; simpl.
  - exists []. reflexivity.
  - destruct (tick_is_a_run t p) as [s1 E1].
    destruct (IH (tick t p)) as [s2 E2].
    exists (s1 ++ s2)%list. rewrite run_app, <- E1. exact E2.
Qed.

(** X15: the invariants hold for the service as it runs.  Through any
    succession of polling ticks and reminder sweeps -- whatever the
    gateway delivers, whatever fails and wherever a batch is cut short by
    a throw -- a task that is [APPROVED] or [REJECTED] stays in its place
    with its identifier and its status, no task row disappears, and user
    rows stay unique by [vkId] if they were. *)
Theorem service_keeps_its_invariants ticks p :
  let p' := run_service ticks p in
  (forall i t,
      tasks (world p) !! i = Some t ->
      exists t', tasks (world p') !! i = Some t' /\ id t' = id t
                 /\ (status t = APPROVED \/ status t = REJECTED ->
                     status t' = status t))
  /\ (List.length (tasks (world p)) <= List.length (tasks (world p')))%nat
  /\ (NoDup (map vkId (users (world p))) -> NoDup (map vkId (users (world p')))).
Proof.
  intros p'. destruct (run_service_is_a_run ticks p) as [steps E].
  fold p' in E. rewrite E.
  pose proof (run_rows steps (world p)) as Hrows. split; [|split].
  - intros i t Hi. destruct (Hrows i t Hi) as (t' & Hi' & Hid & Hst).
    exists t'. split; [exact Hi'|]. split; [exact Hid|].
    intros Hres. apply Hst. destruct Hres as [-> | ->]; discriminate.
  - destruct (le_lt_dec (List.length (tasks (world p)))
                (List.length (tasks (run steps (world p))))) as [Hle|Hlt];
      [exact Hle|exfalso].
    destruct (tasks (world p)) as [|t0 ts] eqn:Ets; [simpl in Hlt; lia|].
    assert (Hlast : is_Some (tasks (world p) !! (List.length ts))).
    { rewrite Ets. apply lookup_lt_is_Some. simpl. lia. }
    destruct Hlast as [t Ht].
    destruct (Hrows _ t Ht) as (t' & Ht' & _).
    apply lookup_lt_Some in Ht'. simpl in Hlt. lia.
  - apply run_users.
Qed.

Lemma service_keeps_its_invariants_witness :
  let batch := [mkEvent 9 (CallbackQuery (press "reject_t1"))] in
  let getEvents := fun (_ : Z) (_ : nat) => Ok (mkEvents true batch) in
  let p := mkPoller 7 (idle [sample_task "t1" APPROVED 0]) in
  let p' := run_service [Poll quiet (fun _ => 0) getEvents; Remind quiet 5000] p in
  exists t', tasks (world p') !! 0%nat = Some t' /\ id t' = "t1"
             /\ (APPROVED = APPROVED \/ APPROVED = REJECTED -> status t' = APPROVED).
Proof.
  intros batch getEvents p p'.
  apply (proj1 (service_keeps_its_invariants
                  [Poll quiet (fun _ => 0) getEvents; Remind quiet 5000] p)
           0%nat (sample_task "t1" APPROVED 0)).
  reflexivity.
Defined.

(** ** One reply per message *)

Lemma on_command_reply env chat body event w reply w' :
  on_command env chat body event w = (Ok reply, w') ->
  snd reply = [] \/ reply = (msg_welcome, welcome_keyboard).
Proof.
  unfold on_command.
  destruct (String.eqb _ "/start").
  - unfold bind. destruct (redis_del env chat w) as [[a|e] w1]; [|discriminate].
    destruct (user_upsert env chat _ _ w1) as [[b|e] w2]; [|discriminate].
    intros [= <- _]. auto.
  - destruct (String.eqb _ "/help"); intros [= <- _]; auto.
Qed.

Lemma on_step_no_gateway env now chat body event st :
  Keeps (emits (fun c => is_gateway c = false)) (on_step env now chat body event st).
Proof. unfold on_step, report. emits_auto. Qed.

Lemma on_command_no_gateway env chat body event :
  Keeps (emits (fun c => is_gateway c = false)) (on_command env chat body event).
Proof. unfold on_command. emits_auto. Qed.

(** X16: a message gets one reply, last.  Whatever the chat's state and
    whatever fails, the calls of [handleMessage] are calls to the store
    and the repository followed by at most one gateway call, a text sent
    to the chat the message came from; it carries buttons only when it is
    the welcome text, and then the welcome grid.  The reply is missing
    only when the handler threw before reaching it, and a handler that
    returns has sent it. *)
Theorem message_gets_one_reply env now chat body event w :
  let handler := handleMessage env now chat body event in
  exists pre tail,
    emitted handler w = (pre ++ tail)%list
    /\ Forall (fun c => is_gateway c = false) pre
    /\ (tail = [] /\ (exists e, fst (handler w) = Throw e)
        \/ exists reply markup,
             tail = [SendText chat reply markup]
             /\ (markup = None
                 \/ markup = Some welcome_keyboard /\ reply = msg_welcome)).
Proof.
  intros handler. set (get := RedisGet chat). set (w1 := log_call get w).
  set (produce := match value <$> sessions w1 !! chat with
                  | Some st =>
                      bind (on_step env now chat body event st)
                        (fun responseText => ret (responseText, @nil (list Button)))
                  | None => on_command env chat body event
                  end).
  set (send := fun reply : string * Keyboard =>
                 sendText env chat (fst reply)
                   (if (List.length (snd reply) =? 0)%nat then None
                    else Some (snd reply))).
  assert (E : handler w
              = if fails env (List.length (trace w)) get
                then (Throw (CallFailed get), w1)
                else bind produce send w1).
  { unfold handler, handleMessage. unfold bind at 1. unfold redis_get, call.
    fold get. destruct (fails env _ get); reflexivity. }
  unfold emitted. rewrite E. clear E.
  destruct (fails env (List.length (trace w)) get) eqn:Hget.
  - exists [get], []. simpl. rewrite drop_app_length.
    split; [reflexivity|]. split; [repeat constructor|]. left. eauto.
  - assert (Hquiet : Keeps (emits (fun c => is_gateway c = false)) produce).
    { unfold produce. destruct (value <$> sessions w1 !! chat).
      - apply keeps_bind; [typeclasses eauto|apply on_step_no_gateway|].
        intros ?. apply keeps_ret. typeclasses eauto.
      - apply on_command_no_gateway. }
    assert (Hreply : forall reply w2,
               produce w1 = (Ok reply, w2) ->
               snd reply = [] \/ reply = (msg_welcome, welcome_keyboard)).
    { unfold produce. destruct (value <$> sessions w1 !! chat).
      - unfold bind, ret. intros reply w2.
        destruct (on_step _ _ _ _ _ _ _) as [[r|e] w3]; [|discriminate].
        intros [= <- _]. auto.
      - intros reply w2. apply on_command_reply. }
    unfold bind.
    destruct (Hquiet w1) as (l & El & Fl).
    destruct (produce w1) as [[reply|e] w2] eqn:Hp; simpl in El.
    + exists (get :: l),
        [SendText chat (fst reply)
           (if (List.length (snd reply) =? 0)%nat then None else Some (snd reply))].
      split.
      * unfold send, sendText, call.
        destruct (fails env _ (SendText _ _ _)); simpl;
          rewrite El; unfold w1; simpl; rewrite <- !app_assoc;
          rewrite drop_app_length; reflexivity.
      * split; [constructor; [reflexivity|exact Fl]|]. right.
        do 2 eexists. split; [reflexivity|].
        destruct (Hreply reply w2 eq_refl) as [Hnil| ->].
        -- rewrite Hnil. auto.
        -- right. split; reflexivity.
    + exists (get :: l), []. split.
      * simpl. rewrite El. unfold w1. simpl.
        rewrite <- !app_assoc. rewrite drop_app_length, app_nil_r. reflexivity.
      * split; [constructor; [reflexivity|exact Fl]|]. left. eauto.
Qed.

(** ** What a callback can change *)

#[local] Instance same_users_preorder : PreOrder same_users.
Proof.
  split; [intros w; reflexivity|].
  intros a b c H1 H2. unfold same_users in *. congruence.
Qed.

#[local] Instance same_tasks_preorder : PreOrder same_tasks.
Proof.
  split; [intros w; reflexivity|].
  intros a b c H1 H2. unfold same_tasks in *. congruence.
Qed.

Ltac unfold_primitives :=
  unfold redis_get, redis_set, redis_del, user_findUnique, user_upsert,
    task_findUnique, task_findMany, task_count, task_update, task_create,
    sendText, sendFile, answerCallbackQuery.

Lemma handleCallback_users env event : Keeps same_users (handleCallback env event).
Proof.
  unfold handleCallback, on_callback, decide_task, last_tasks, statistics, report.
  keeps_structure; unfold_primitives; keeps_primitive by_reflexivity.
Qed.

Lemma handleCallback_tasks env event :
  is_decision (cb_data event) = false ->
  Keeps same_tasks (handleCallback env event).
Proof.
  intros Hd. unfold is_decision in Hd.
  unfold handleCallback, on_callback. rewrite Hd.
  unfold last_tasks, statistics, report.
  keeps_structure; unfold_primitives; keeps_primitive by_reflexivity.
Qed.

Lemma handleCallback_sessions env event :
  cb_data event <> "create_task" ->
  cb_data event <> "check_user_tasks" ->
  Keeps same_sessions (handleCallback env event).
Proof.
  intros H1 H2. apply String.eqb_neq in H1, H2.
  unfold handleCallback, on_callback. rewrite H1, H2.
  unfold decide_task, last_tasks, statistics, report.
  keeps_structure; auto with frames.
Qed.

(** X17: what a callback can change, by its data.  No callback changes
    the user table.  Only an [approve_...] or [reject_...] callback can
    change the task table.  Only [create_task] and [check_user_tasks] can
    change the session store; every other callback -- the reports, the
    decisions, unknown data -- leaves any conversation in progress as it
    is.  Data that is none of these is acknowledged and answered with
    the unknown-command text, with no call to the repository.  All of
    this holds whichever calls fail. *)
Theorem callback_effects_by_data env event w :
  let data := cb_data event in
  let handler := handleCallback env event in
  users (snd (handler w)) = users w
  /\ (is_decision data = false -> tasks (snd (handler w)) = tasks w)
  /\ (data <> "create_task" -> data <> "check_user_tasks" ->
      sessions (snd (handler w)) = sessions w)
  /\ (is_decision data = false ->
      data <> "create_task" -> data <> "watch_tasks" ->
      data <> "check_user_tasks" -> data <> "watch_statistics" ->
      (forall k, fails env k (RedisGet (cb_chatId event)) = false) ->
      (forall k, fails env k (AnswerCallbackQuery (cb_queryId event) msg_ack) = false) ->
      emitted handler w
      = [RedisGet (cb_chatId event); AnswerCallbackQuery (cb_queryId event) msg_ack;
         SendText (cb_chatId event) msg_unknown None]).
Proof.
  intros data handler. split; [apply (handleCallback_users env event w)|].
  split; [intros Hd; apply (handleCallback_tasks env event Hd w)|].
  split; [intros H1 H2; apply (handleCallback_sessions env event H1 H2 w)|].
  intros Hd H1 H2 H3 H4 Hget Hack.
  apply String.eqb_neq in H1, H2, H3, H4. unfold is_decision in Hd.
  assert (E := handleCallback_after_get env event w (Hget _)).
  fold handler in E. unfold on_callback in E. fold data in E.
  rewrite Hd, H1, H2, H3, H4 in E.
  unfold bind, ret, answerCallbackQuery, sendText, call in E.
  rewrite Hack in E. simpl in E.
  assert (E' : snd (handler w)
               = mkWorld (users w) (tasks w) (sessions w)
                   (trace w ++
                    [RedisGet (cb_chatId event);
                     AnswerCallbackQuery (cb_queryId event) msg_ack;
                     SendText (cb_chatId event) msg_unknown None])).
  { rewrite E. destruct (fails env _ (SendText _ _ _)); simpl;
      expose_world; reflexivity. }
  apply (emitted_after _ _ _ _ _ _ E').
Qed.

Lemma callback_effects_by_data_witness :
  let w := mkWorld [bob] [sample_task "t1" PENDING 0]
             (sessions (in_step AWAITING_TIME)) [] in
  sessions (snd (handleCallback repository_down (press "watch_statistics") w))
  = sessions w.
Proof.
  intros w.
  apply (proj1 (proj2 (proj2
           (callback_effects_by_data repository_down (press "watch_statistics") w))));
    discriminate.
Defined.

(** ** Where task rows come from *)

Lemma on_step_same_tasks env now chat body event st :
  step st <> AWAITING_TIME ->
  Keeps same_tasks (on_step env now chat body event st).
Proof.
  intros Hstep. unfold on_step, report.
  destruct (step st); [| | |congruence];
    keeps_structure; unfold_primitives; keeps_primitive by_reflexivity.
Qed.

Lemma on_command_same_tasks env chat body event :
  Keeps same_tasks (on_command env chat body event).
Proof.
  unfold on_command.
  keeps_structure; unfold_primitives; keeps_primitive by_reflexivity.
Qed.

Lemma sendText_same_tasks env chat reply markup :
  Keeps same_tasks (sendText env chat reply markup).
Proof. unfold sendText. keeps_primitive by_reflexivity. Qed.

Lemma redis_del_same_tasks env chat : Keeps same_tasks (redis_del env chat).
Proof. unfold redis_del. keeps_primitive by_reflexivity. Qed.

Lemma handleMessage_tasks env now chat body event w :
  let w' := snd (handleMessage env now chat body event w) in
  tasks w' = tasks w
  \/ exists entry n assignee tid,
       let td := taskData (value entry) in
       sessions w !! chat = Some entry
       /\ step (value entry) = AWAITING_TIME
       /\ JS.parseInt body = Some n /\ 0 < n
       /\ td_userId td = Some assignee
       /\ tasks w'
          = (tasks w ++
             [mkTask tid assignee chat (td_firstName td) (td_lastName td)
                (td_description td) (td_fileId td) (td_fileCaption td)
                PENDING n now now])%list.
Proof.
  intros w'. assert (E : w' = snd (handleMessage env now chat body event w))
    by reflexivity.
  clearbody w'. revert E. unfold handleMessage. unfold bind at 1.
  unfold redis_get, call.
  destruct (fails env _ (RedisGet chat)); [intros ->; left; reflexivity|].
  cbn [fst snd]. simpl sessions.
  destruct (sessions w !! chat) as [entry|] eqn:Hs; simpl fmap.
  2:{ intros ->. left.
      assert (K : Keeps same_tasks
                    (bind (on_command env chat body event)
                       (fun reply =>
                          sendText env chat (fst reply)
                            (if (List.length (snd reply) =? 0)%nat then None
                             else Some (snd reply))))).
      { apply keeps_bind; [typeclasses eauto|apply on_command_same_tasks|].
        intros ?. apply sendText_same_tasks. }
      exact (K (log_call (RedisGet chat) w)). }
  assert (Hother : step (value entry) <> AWAITING_TIME ->
                   tasks (snd (bind (bind (on_step env now chat body event (value entry))
                                       (fun responseText => ret (responseText, [])))
                                 (fun reply : string * Keyboard =>
                                    sendText env chat (fst reply)
                                      (if (List.length (snd reply) =? 0)%nat then None
                                       else Some (snd reply)))
                                 (log_call (RedisGet chat) w)))
                   = tasks w).
  { intros Hstep.
    assert (K : Keeps same_tasks
                  (bind (bind (on_step env now chat body event (value entry))
                           (fun responseText => ret (responseText, [])))
                     (fun reply : string * Keyboard =>
                        sendText env chat (fst reply)
                          (if (List.length (snd reply) =? 0)%nat then None
                           else Some (snd reply))))).
    { apply keeps_bind; [typeclasses eauto| |intros ?; apply sendText_same_tasks].
      apply keeps_bind; [typeclasses eauto| |intros ?; apply keeps_ret; typeclasses eauto].
      apply on_step_same_tasks. exact Hstep. }
    exact (K (log_call (RedisGet chat) w)). }
  destruct (step (value entry)) eqn:Hstep;
    try (intros ->; left; apply Hother; discriminate).
  clear Hother.
  unfold on_step. rewrite Hstep.
  destruct (JS.parseInt body) as [n|] eqn:Hparse.
  2:{ intros ->. left. unfold bind, ret, sendText, call.
      destruct (fails env _ _); reflexivity. }
  destruct (n <=? 0) eqn:Hle.
  { intros ->. left. unfold bind, ret, sendText, call.
    destruct (fails env _ _); reflexivity. }
  apply Z.leb_gt in Hle.
  set (td := taskData (value entry)).
  unfold bind, try_catch, ret, task_create, redis_del, sendText, call.
  destruct (fails env (List.length (trace (log_call (RedisGet chat) w)))
              (TaskCreateCall (new_task chat td n now))).
  { intros ->. left. simpl. destruct (fails env _ _); reflexivity. }
  simpl c_userToId.
  destruct (td_userId td) as [assignee|] eqn:Huser.
  2:{ intros ->. left. simpl. destruct (fails env _ _); reflexivity. }
  intros E. right. exists entry, n, assignee. eexists.
  split; [reflexivity|]. split; [exact Hstep|]. split; [reflexivity|].
  split; [exact Hle|]. split; [exact Huser|].
  rewrite E. simpl. destruct (fails env _ (RedisDel chat)); simpl;
    [reflexivity|]. destruct (fails env _ (SendText _ _ _)); reflexivity.
Qed.


(** ** Well-formed task rows *)

#[local] Instance keeps_well_formed_preorder : PreOrder keeps_well_formed.
Proof.
  split; [intros w H; exact H|].
  intros a b c H1 H2 H. apply H2, H1, H.
Qed.

Lemma same_tasks_well_formed w w' : same_tasks w w' -> keeps_well_formed w w'.
Proof. intros E H. rewrite E. exact H. Qed.

Lemma tasks_frame_well_formed w w' : tasks_frame w w' -> keeps_well_formed w w'.
Proof.
  unfold tasks_frame, keeps_well_formed.
  generalize (tasks w) (tasks w'). intros ts ts' H.
  induction H as [|t t' ts ts' Ht _ IH]; intros Hwf; [constructor|].
  inversion Hwf as [|? ? Hw Hrest]; subst. constructor; [|apply IH; exact Hrest].
  unfold lastRemind_only in Ht. unfold well_formed in *.
  destruct Ht as (_ & _ & _ & _ & _ & _ & _ & _ & Hs & Hr & _).
  rewrite Hs, Hr. exact Hw.
Qed.

Lemma update_task_Forall (P : Task -> Prop) tid p ts :
  (forall t, P t -> P (patch_task p t)) ->
  Forall P ts -> Forall P (update_task tid p ts).
Proof.
  intros Hp H. induction H as [|t ts Ht Hts IH]; simpl; [constructor|].
  destruct (String.eqb (id t) tid); constructor; auto.
Qed.

Lemma decision_well_formed s t :
  standard s -> well_formed t -> well_formed (patch_task (SetStatus s) t).
Proof. intros Hs [_ Hr]. split; [exact Hs|exact Hr]. Qed.

Lemma decide_task_well_formed env data :
  Keeps keeps_well_formed (decide_task env data).
Proof.
  unfold decide_task.
  keeps_structure; unfold_primitives;
    (apply keeps_call; [typeclasses eauto|intros ? H; exact H|]);
    intros w H; simpl; repeat case_match; simpl; try exact H.
  all: apply update_task_Forall; [|exact H].
  all: intros ?; apply decision_well_formed; unfold standard; auto.
Qed.

Lemma handleCallback_well_formed env event :
  Keeps keeps_well_formed (handleCallback env event).
Proof.
  destruct (is_decision (cb_data event)) eqn:Hd.
  - unfold handleCallback, on_callback. unfold is_decision in Hd. rewrite Hd.
    apply keeps_bind; [typeclasses eauto| |intros ?].
    { apply (keeps_weaken same_tasks); [apply same_tasks_well_formed|].
      unfold redis_get. keeps_primitive by_reflexivity. }
    apply keeps_bind; [typeclasses eauto|apply decide_task_well_formed|intros ?].
    apply (keeps_weaken same_tasks); [apply same_tasks_well_formed|].
    keeps_structure; unfold_primitives; keeps_primitive by_reflexivity.
  - apply (keeps_weaken same_tasks); [apply same_tasks_well_formed|].
    apply handleCallback_tasks. exact Hd.
Qed.

Lemma handleMessage_well_formed env now chat body event :
  Keeps keeps_well_formed (handleMessage env now chat body event).
Proof.
  intros w H.
  destruct (handleMessage_tasks env now chat body event w)
    as [E|(entry & n & assignee & tid & _ & _ & _ & Hpos & _ & E)];
    rewrite E; [exact H|].
  apply Forall_app. split; [exact H|]. constructor; [|constructor].
  split; [left; reflexivity|exact Hpos].
Qed.

Lemma perform_well_formed env a : Keeps keeps_well_formed (perform env a).
Proof.
  destruct a; simpl.
  - apply handleMessage_well_formed.
  - apply handleCallback_well_formed.
  - apply (keeps_weaken tasks_frame); [apply tasks_frame_well_formed|].
    apply startReminderChecks_frame.
Qed.

Lemma run_well_formed steps w : keeps_well_formed w (run steps w).
Proof.
  revert w. induction steps as [|[env a] steps IH]; intros w; simpl.
  - reflexivity.
  - etransitivity; [apply (perform_well_formed env a w)|apply IH].
Qed.

(** X19: the service keeps the task table well formed.  If every task
    row has one of the statuses [PENDING], [APPROVED], [REJECTED] and a
    positive reminder interval, then so does every row after any
    succession of polling ticks and reminder sweeps, whatever events
    arrive and whatever calls fail: the conversation creates rows that
    are [PENDING] with a positive interval, a decision writes [APPROVED]
    or [REJECTED], and the sweep writes [lastRemind] only. *)
Theorem service_keeps_tasks_well_formed ticks p :
  Forall well_formed (tasks (world p)) ->
  Forall well_formed (tasks (world (run_service ticks p))).
Proof.
  intros H. destruct (run_service_is_a_run ticks p) as [steps E].
  rewrite E. apply run_well_formed. exact H.
Qed.

Lemma service_keeps_tasks_well_formed_witness :
  let batch := [mkEvent 9 (CallbackQuery (press "approve_t1"))] in
  let getEvents := fun (_ : Z) (_ : nat) => Ok (mkEvents true batch) in
  let p := mkPoller 7 (idle [sample_task "t1" PENDING 0]) in
  Forall well_formed
    (tasks (world (run_service
                     [Poll quiet (fun _ => 0) getEvents; Remind quiet 5000] p))).
Proof.
  intros batch getEvents p.
  apply (service_keeps_tasks_well_formed
           [Poll quiet (fun _ => 0) getEvents; Remind quiet 5000] p).
  constructor; [|constructor].
  split; [left; reflexivity|reflexivity].
Defined.

(** ** Statistics *)

Lemma count_own userId s ts :
  List.length (List.filter (matches (own_tasks userId (Some s))) ts)
  = tasks_with userId s ts.
Proof.
  unfold tasks_with. f_equal. apply List.filter_ext. intros t.
  unfold matches, own_tasks. simpl.
  destruct (status_eqb (status t) s), (String.eqb (chatId t) userId); reflexivity.
Qed.

Lemma count_all userId ts :
  List.length (List.filter (matches (own_tasks userId None)) ts)
  = tasks_of userId ts.
Proof.
  reflexivity.
Qed.

Lemma counts_add_up userId ts :
  Forall (fun t => standard (status t)) ts ->
  tasks_of userId ts
  = (tasks_with userId APPROVED ts + tasks_with userId REJECTED ts
     + tasks_with userId PENDING ts)%nat.
Proof.
  unfold tasks_of, tasks_with.
  induction 1 as [|t ts Ht _ IH]; [reflexivity|]. simpl.
  destruct (String.eqb (chatId t) userId); simpl; [|exact IH].
  destruct Ht as [-> | [-> | ->]]; simpl; lia.
Qed.

Lemma tasks_log_call c w : tasks (log_call c w) = tasks w.
Proof. reflexivity. Qed.

Lemma on_callback_statistics env event :
  cb_data event = "watch_statistics" ->
  on_callback env event = statistics env (cb_userId event).
Proof. unfold on_callback. intros ->. reflexivity. Qed.

(** X20: the statistics add up.  When every task row has one of the
    three statuses the service writes and no call fails, the
    [watch_statistics] button makes four counting queries, is
    acknowledged, and is answered with one text whose total is the number
    of tasks created from the presser's chat and whose three other
    figures -- approved, rejected, pending -- sum to that total. *)
Theorem statistics_add_up env event w :
  let userId := cb_userId event in
  let chat := cb_chatId event in
  let total := tasks_of userId (tasks w) in
  let approved := tasks_with userId APPROVED (tasks w) in
  let rejected := tasks_with userId REJECTED (tasks w) in
  let pending := tasks_with userId PENDING (tasks w) in
  cb_data event = "watch_statistics" ->
  Forall (fun t => standard (status t)) (tasks w) ->
  (forall k c, fails env k c = false) ->
  total = (approved + rejected + pending)%nat
  /\ emitted (handleCallback env event) w
     = [RedisGet chat;
        TaskCount (own_tasks userId None);
        TaskCount (own_tasks userId (Some APPROVED));
        TaskCount (own_tasks userId (Some REJECTED));
        TaskCount (own_tasks userId (Some PENDING));
        AnswerCallbackQuery (cb_queryId event) msg_ack;
        SendText chat
          ("📊 *Статистика по вашим задачам:*" +:+ nl +:+ nl +:+
           "• Всего создано задач: " +:+ pretty total +:+ nl +:+
           "• Одобрено: " +:+ pretty approved +:+ nl +:+
           "• Отклонено: " +:+ pretty rejected +:+ nl +:+
           "• В ожидании: " +:+ pretty pending) None].
Proof.
  intros userId chat total approved rejected pending Hdata Hstd Hok.
  split; [apply counts_add_up; exact Hstd|].
  assert (E := handleCallback_after_get env event w (Hok _ _)).
  rewrite (on_callback_statistics env event Hdata) in E.
  unfold statistics, bind, try_catch, ret, task_count, answerCallbackQuery,
    sendText, call in E.
  rewrite !Hok in E. cbv beta iota zeta in E.
  rewrite !tasks_log_call, !count_own, count_all in E.
  fold userId chat in E. fold total approved rejected pending in E.
  unfold emitted. rewrite E. cbn [snd]. unfold log_call. cbn [trace].
  rewrite <- !app_assoc. cbn [app]. apply drop_app_length.
Qed.

Lemma statistics_add_up_witness :
  let w := idle [sample_task "t1" APPROVED 0; sample_task "t2" PENDING 0] in
  tasks_of "alice@corp" (tasks w)
  = (tasks_with "alice@corp" APPROVED (tasks w)
     + tasks_with "alice@corp" REJECTED (tasks w)
     + tasks_with "alice@corp" PENDING (tasks w))%nat.
Proof.
  intros w.
  apply (statistics_add_up quiet (press "watch_statistics") w).
  - reflexivity.
  - repeat (constructor; [unfold standard; simpl; auto|]). constructor.
  - reflexivity.
Defined.

(** ** The report on another user's tasks *)

#[local] Instance cleared_or_kept_preorder chat : PreOrder (cleared_or_kept chat).
Proof.
  split; [intros w; left; reflexivity|].
  intros a b c [H1|H1] [H2|H2]; unfold cleared_or_kept; rewrite H2, H1; auto.
  right. apply delete_delete_eq.
Qed.

Lemma report_run env header rows w :
  (forall k c, fails env k c = false) ->
  exists responseText,
    report env header rows w
    = (Ok responseText,
       mkWorld (users w) (tasks w) (sessions w)
         (trace w ++ map (fun t => UserFindUnique (userToId t)) rows)).
Proof.
  intros Hok. unfold report.
  match goal with |- context [for_each ?b] => set (body := b) end.
  assert (Hbody : forall i t h w0,
             body i t h w0
             = (Ok (h +:+ report_entry env i t (find_user (userToId t) (users w0))),
                log_call (UserFindUnique (userToId t)) w0)).
  { intros i t h w0. unfold body, bind, user_findUnique, call, ret.
    rewrite Hok. reflexivity. }
  clearbody body. generalize 0%nat. revert header w.
  induction rows as [|t rows IH]; intros header w i; simpl.
  - exists header. unfold ret. rewrite app_nil_r. destruct w; reflexivity.
  - unfold bind. rewrite Hbody.
    destruct (IH (header +:+ report_entry env i t (find_user (userToId t) (users w)))
                (log_call (UserFindUnique (userToId t)) w) (S i))
      as [responseText E].
    exists responseText. rewrite E. f_equal. expose_world. reflexivity.
Qed.

Lemma insert_newest_Forall (P : Task -> Prop) t ts :
  P t -> Forall P ts -> Forall P (insert_newest t ts).
Proof.
  intros Ht H. induction H as [|u ts Hu Hts IH]; simpl; [repeat constructor; exact Ht|].
  destruct (createdAt u <? createdAt t); repeat constructor; auto.
Qed.

Lemma select_tasks_Forall f newest n ts :
  Forall (fun t => matches f t = true) (select_tasks f newest n ts).
Proof.
  unfold select_tasks.
  assert (H : Forall (fun t => matches f t = true) (List.filter (matches f) ts)).
  { apply List.Forall_forall. intros t Ht. apply List.filter_In in Ht. tauto. }
  assert (H' : Forall (fun t => matches f t = true)
                 (if newest then newest_first_order (List.filter (matches f) ts)
                  else List.filter (matches f) ts)).
  { destruct newest; [|exact H]. unfold newest_first_order.
    induction H as [|t l Ht _ IH]; simpl; [constructor|].
    apply insert_newest_Forall; assumption. }
  destruct n as [k|]; [|exact H'].
  apply Forall_take. exact H'.
Qed.

Lemma given_to_rows contact newest n ts :
  Forall (fun t => userToId t = contact)
    (select_tasks (given_to contact) newest n ts).
Proof.
  eapply Forall_impl; [apply select_tasks_Forall|].
  intros t Ht. unfold matches, given_to in Ht. simpl in Ht.
  apply andb_prop in Ht. destruct Ht as [Ht _].
  apply String.eqb_eq in Ht. exact Ht.
Qed.

Lemma map_constant {A B} (f : A -> B) b l :
  Forall (fun a => f a = b) l -> map f l = repeat b (List.length l).
Proof. induction 1 as [|a l Ha _ IH]; simpl; congruence. Qed.

Lemma report_or_none env none header rows w :
  (forall k c, fails env k c = false) ->
  exists responseText,
    (if (List.length rows =? 0)%nat then ret none else report env header rows) w
    = (Ok responseText,
       mkWorld (users w) (tasks w) (sessions w)
         (trace w ++ map (fun t => UserFindUnique (userToId t)) rows)).
Proof.
  intros Hok. destruct rows as [|t rows]; [|apply report_run; exact Hok].
  exists none. simpl. unfold ret. rewrite app_nil_r. destruct w; reflexivity.
Qed.

Lemma select_tasks_limit f newest k ts :
  (List.length (select_tasks f newest (Some k) ts) <= k)%nat.
Proof. unfold select_tasks. rewrite length_take. lia. Qed.

Lemma on_step_same_users env now chat body event st :
  Keeps same_users (on_step env now chat body event st).
Proof.
  unfold on_step, report.
  keeps_structure; unfold_primitives; keeps_primitive by_reflexivity.
Qed.

Lemma sendText_same_users env chat reply markup :
  Keeps same_users (sendText env chat reply markup).
Proof. unfold sendText. keeps_primitive by_reflexivity. Qed.

Ltac cleared_or_kept_fin :=
  first [ left; reflexivity | right; reflexivity ].

Lemma lookup_cleared_or_kept env now chat body event st :
  step st = AWAITING_USER_ID_FOR_TASKS ->
  Keeps (cleared_or_kept chat)
    (bind (on_step env now chat body event st)
       (fun responseText => sendText env chat responseText None)).
Proof.
  intros Hstep. unfold on_step, report. rewrite Hstep.
  keeps_structure; unfold_primitives; keeps_primitive cleared_or_kept_fin.
Qed.

Lemma lookup_refused env now chat body event st :
  step st = AWAITING_USER_ID_FOR_TASKS ->
  forall w,
    bad_contact (contact_of body) = true
    \/ find_user (contact_of body) (users w) = None ->
    sessions (snd (bind (on_step env now chat body event st)
                     (fun responseText => sendText env chat responseText None) w))
    = sessions w.
Proof.
  intros Hstep w Hno. unfold on_step. rewrite Hstep.
  destruct (bad_contact (contact_of body)) eqn:Hbad.
  { unfold bind, ret, sendText, call. destruct (fails env _ _); reflexivity. }
  destruct Hno as [Hno|Hno]; [discriminate|].
  unfold bind, try_catch, ret, user_findUnique, sendText, call.
  destruct (fails env (List.length (trace w)) (UserFindUnique (contact_of body))).
  { simpl. destruct (fails env _ _); reflexivity. }
  simpl. rewrite Hno. simpl. destruct (fails env _ _); reflexivity.
Qed.

Lemma lookup_answered env now chat body event st w u :
  step st = AWAITING_USER_ID_FOR_TASKS ->
  (forall k c, fails env k c = false) ->
  bad_contact (contact_of body) = false ->
  find_user (contact_of body) (users w) = Some u ->
  let contact := contact_of body in
  let rows := select_tasks (given_to contact) true (Some 10%nat) (tasks w) in
  exists responseText,
    snd (bind (on_step env now chat body event st)
           (fun responseText => sendText env chat responseText None) w)
    = mkWorld (users w) (tasks w) (delete chat (sessions w))
        (trace w ++
         [UserFindUnique contact; TaskFindMany (given_to contact) true (Some 10%nat)]
         ++ map (fun t => UserFindUnique (userToId t)) rows
         ++ [RedisDel chat; SendText chat responseText None]).
Proof.
  intros Hstep Hok Hgood Hu contact rows.
  unfold on_step. rewrite Hstep, Hgood. fold contact.
  unfold try_catch, bind, user_findUnique, task_findMany, call.
  rewrite !Hok. cbv beta iota zeta.
  change (users (log_call (UserFindUnique contact) w)) with (users w).
  fold contact in Hu. rewrite Hu. cbv beta iota zeta. rewrite Hok. cbv beta iota zeta.
  rewrite !tasks_log_call.
  change (mkFilter None None (Some contact) None) with (given_to contact).
  fold rows.
  match goal with
  | |- context [(if (List.length rows =? 0)%nat then ret ?none
                 else report env ?h rows) ?w1] =>
      destruct (report_or_none env none h rows w1 Hok) as [responseText E];
      rewrite E
  end.
  exists responseText. cbv beta iota zeta.
  unfold redis_del, sendText, ret, call. rewrite !Hok. cbv beta iota zeta.
  clearbody rows. cbn [snd]. expose_world. reflexivity.
Qed.

(** X21: the report on another user's tasks.  A chat that was asked for
    a contact and sends one never changes users or tasks, and its session
    is either deleted or left as it was, whichever calls fail.  It is
    left as it was -- so the next message is again read as a contact --
    when the contact is rejected or names nobody.  When the contact names a
    registered user and no call fails, the handler asks for the ten newest
    tasks given to that user, looks the same user up once more for every
    task it got (at most ten), deletes the session and sends one text. *)
Theorem lookup_step env now chat body event w entry :
  sessions w !! chat = Some entry ->
  step (value entry) = AWAITING_USER_ID_FOR_TASKS ->
  (forall k, fails env k (RedisGet chat) = false) ->
  let handler := handleMessage env now chat body event in
  let contact := contact_of body in
  let rows := select_tasks (given_to contact) true (Some 10%nat) (tasks w) in
  users (snd (handler w)) = users w
  /\ tasks (snd (handler w)) = tasks w
  /\ cleared_or_kept chat w (snd (handler w))
  /\ (bad_contact contact = true \/ find_user contact (users w) = None ->
      sessions (snd (handler w)) = sessions w)
  /\ ((forall k c, fails env k c = false) ->
      bad_contact contact = false -> find_user contact (users w) <> None ->
      (List.length rows <= 10)%nat
      /\ sessions (snd (handler w)) = delete chat (sessions w)
      /\ exists responseText,
           emitted handler w
           = ([RedisGet chat; UserFindUnique contact;
               TaskFindMany (given_to contact) true (Some 10%nat)]
              ++ repeat (UserFindUnique contact) (List.length rows)
              ++ [RedisDel chat; SendText chat responseText None])%list).
Proof.
  intros Hs Hstep Hget handler contact rows.
  assert (E := handleMessage_in_session env now chat body event w entry Hs Hget).
  fold handler in E.
  split; [|split; [|split; [|split]]].
  - rewrite E.
    assert (K : Keeps same_users
                  (bind (on_step env now chat body event (value entry))
                     (fun responseText => sendText env chat responseText None))).
    { apply keeps_bind; [typeclasses eauto|apply on_step_same_users|].
      intros ?. apply sendText_same_users. }
    exact (K (log_call (RedisGet chat) w)).
  - rewrite E.
    assert (K : Keeps same_tasks
                  (bind (on_step env now chat body event (value entry))
                     (fun responseText => sendText env chat responseText None))).
    { apply keeps_bind; [typeclasses eauto| |intros ?; apply sendText_same_tasks].
      apply on_step_same_tasks. rewrite Hstep. discriminate. }
    exact (K (log_call (RedisGet chat) w)).
  - rewrite E.
    exact (lookup_cleared_or_kept env now chat body event (value entry) Hstep
             (log_call (RedisGet chat) w)).
  - intros Hno. rewrite E.
    exact (lookup_refused env now chat body event (value entry) Hstep
             (log_call (RedisGet chat) w) Hno).
  - intros Hok Hgood Hsome.
    destruct (find_user contact (users w)) as [u|] eqn:Hu; [|congruence].
    destruct (lookup_answered env now chat body event (value entry)
                (log_call (RedisGet chat) w) u Hstep Hok Hgood Hu)
      as [responseText E'].
    rewrite <- E in E'. fold contact rows in E'.
    split; [apply select_tasks_limit|].
    split; [rewrite E'; reflexivity|].
    exists responseText.
    rewrite <- (map_constant (fun t => UserFindUnique (userToId t))
                  (UserFindUnique contact) rows).
    2:{ eapply Forall_impl; [apply given_to_rows|].
        intros t Ht. simpl. rewrite Ht. reflexivity. }
    unfold emitted. rewrite E'. cbn [trace log_call snd].
    rewrite <- !app_assoc. apply drop_app_length.
Qed.


Lemma lookup_step_witness :
  let handler := handleMessage quiet 10 "alice@corp" "https://u/profile/bob@corp"
                   from_alice in
  let w := mkWorld [bob] [sample_task "t1" PENDING 0]
             (sessions (in_step AWAITING_USER_ID_FOR_TASKS)) [] in
  sessions (snd (handler w)) = delete "alice@corp" (sessions w).
Proof.
  intros handler w.
  refine (proj1 (proj2 (proj2 (proj2 (proj2 (proj2
            (lookup_step quiet 10 "alice@corp" "https://u/profile/bob@corp"
               from_alice w
               (mkEntry (mkSession AWAITING_USER_ID_FOR_TASKS draft) (Some 3600))
               _ _ _)))) _ _ _))).
  - reflexivity.
  - reflexivity.
  - intros k. reflexivity.
  - intros k c. reflexivity.
  - reflexivity.
  - discriminate.
Defined.

(** ** The allowed origins *)

Lemma split_length sep s :
  List.length (JS.split sep s) = S (occurrences sep s).
Proof.
  induction s as [|c s IH]; [reflexivity|]. simpl.
  destruct (Ascii.eqb c sep); simpl; [rewrite IH; reflexivity|].
  destruct (JS.split sep s) as [|seg rest]; [discriminate IH|exact IH].
Qed.

Lemma split_segments sep s :
  Forall (fun seg => JS.includes sep seg = false) (JS.split sep s).
Proof.
  induction s as [|c s IH]; simpl; [repeat constructor|].
  destruct (Ascii.eqb c sep) eqn:Hc; [constructor; [reflexivity|exact IH]|].
  destruct (JS.split sep s) as [|seg rest].
  - repeat constructor. simpl. rewrite Hc. reflexivity.
  - inversion IH as [|? ? Hseg Hrest]; subst. constructor; [|exact Hrest].
    simpl. rewrite Hc, Hseg. reflexivity.
Qed.

Lemma skip_space_includes c fuel s :
  JS.includes c s = false -> JS.includes c (JS.skip_space fuel s) = false.
Proof.
  revert s. induction fuel as [|fuel IH]; intros s Hs; [exact Hs|]. simpl.
  destruct s as [|a [|b [|d r]]]; try exact Hs;
    simpl in Hs; repeat (apply orb_false_elim in Hs; destruct Hs as [? Hs]);
    repeat case_match; try apply IH; simpl;
    repeat (apply orb_false_intro); auto.
Qed.

Lemma trimEnd_includes c s :
  JS.includes c s = false -> JS.includes c (Bootstrap.trimEnd s) = false.
Proof.
  induction s as [|a s IH]; intros Hs; [reflexivity|].
  simpl in Hs. apply orb_false_elim in Hs. destruct Hs as [Ha Hs].
  change (Bootstrap.trimEnd (String a s))
    with (match JS.trimStart (String a s) with
          | EmptyString => EmptyString
          | _ => String a (Bootstrap.trimEnd s)
          end).
  destruct (JS.trimStart (String a s)); [reflexivity|].
  simpl. rewrite Ha, (IH Hs). reflexivity.
Qed.

Lemma trim_includes c s :
  JS.includes c s = false -> JS.includes c (Bootstrap.trim s) = false.
Proof.
  intros Hs. unfold Bootstrap.trim, JS.trimStart.
  apply trimEnd_includes, skip_space_includes, Hs.
Qed.

(** X22: the allowed origins of the HTTP server.  The list is empty
    exactly when [CORS_ORIGIN] is unset or empty.  Otherwise it has one
    entry more than the variable has commas -- also for two commas in a
    row or a comma at the end, which give an entry of their own -- and no
    entry contains a comma. *)
Theorem origins_of_the_variable originString :
  (Bootstrap.origins originString = []
   <-> originString = None \/ originString = Some "")
  /\ (forall s, originString = Some s -> s <> "" ->
      List.length (Bootstrap.origins originString) = S (occurrences "," s))
  /\ Forall (fun origin => JS.includes "," origin = false)
       (Bootstrap.origins originString).
Proof.
  assert (E : forall c s,
             Bootstrap.origins (Some (String c s))
             = map Bootstrap.trim (JS.split "," (String c s))) by reflexivity.
  split; [|split].
  - destruct originString as [[|c s]|].
    + split; auto.
    + rewrite E. split; [|intros [H|H]; discriminate H].
      intros H. apply (f_equal (@List.length _)) in H.
      rewrite length_map, split_length in H. discriminate H.
    + split; auto.
  - intros s -> Hs. destruct s as [|c s]; [congruence|].
    rewrite E, length_map. apply split_length.
  - destruct originString as [[|c s]|]; [constructor| |constructor].
    rewrite E. apply Forall_map. eapply Forall_impl; [apply split_segments|].
    intros seg Hseg. apply trim_includes. exact Hseg.
Qed.
